(** * Kindle bookmark server: path resolution, extraction, merge and cache

    A shallow embedding of the server-side pipeline of the Kindle bookmark
    manager (services/pathDetector.ts, services/kindleParser.ts,
    services/collectionParser.ts, services/bookDataService.ts,
    services/bookService.ts and models/book.ts), with the properties of the
    specification stated and proved over it.

    JavaScript strings are sequences of UTF-16 code units, modelled as
    [list N]; a [Map] is a [gmap], a [Set] a [gset]; a function that can throw
    returns a [Result]. *)

From Stdlib Require Import ZArith NArith List Bool Lia Ascii String.
From Stdlib Require QArith.
From stdpp Require Import base gmap sets list strings.

Set Default Proof Using "Type".

(** A JavaScript string: its UTF-16 code units. *)
Abbreviation jsstring := (list N).

(** The outcome of a call that may throw. *)
Inductive Result (E A : Type) : Type :=
| Ok (a : A)
| Throw (e : E).
Arguments Ok {E A} a.
Arguments Throw {E A} e.

Definition bindR {E A B} (r : Result E A) (k : A -> Result E B) : Result E B :=
  match r with
  | Ok a => k a
  | Throw e => Throw e
  end.

Definition is_ok {E A} (r : Result E A) : bool :=
  match r with Ok _ => true | Throw _ => false end.

(** ** JavaScript string primitives *)
Module JS.

(** An ASCII literal as a JavaScript string. *)
Definition lit (s : string) : jsstring :=
  map N_of_ascii (list_ascii_of_string s).
Arguments lit : simpl never.

(** [!!s] for a string: the empty string is the only falsy one. *)
Definition truthy (s : jsstring) : bool :=
  match s with
  | [] => false
  | _ :: _ => true
  end.

(** Truthiness of a possibly undefined string. *)
Definition truthy_opt (o : option jsstring) : bool :=
  match o with
  | Some s => truthy s
  | None => false
  end.

(** WhiteSpace and LineTerminator code points of ECMAScript, the ones
    [String.prototype.trim] strips: TAB, LF, VT, FF, CR, SP, NBSP,
    U+1680, U+2000..U+200A, U+2028, U+2029, U+202F, U+205F, U+3000,
    U+FEFF. *)
Definition is_ws (c : N) : bool :=
  ((9 <=? c) && (c <=? 13) || (c =? 32) || (c =? 160) || (c =? 5760)
   || (8192 <=? c) && (c <=? 8202) || (c =? 8232) || (c =? 8233)
   || (c =? 8239) || (c =? 8287) || (c =? 12288) || (c =? 65279))%N.

Fixpoint trimStart (s : jsstring) : jsstring :=
  match s with
  | [] => []
  | c :: r => if is_ws c then trimStart r else s
  end.

Definition trimEnd (s : jsstring) : jsstring :=
  rev (trimStart (rev s)).

(** [s.trim()] *)
Definition trim (s : jsstring) : jsstring :=
  trimEnd (trimStart s).

Definition eqb (a b : jsstring) : bool := bool_decide (a = b).

Fixpoint startsWith (p s : jsstring) : bool :=
  match p, s with
  | [], _ => true
  | _ :: _, [] => false
  | a :: p', b :: s' => (a =? b)%N && startsWith p' s'
  end.

(** [s.includes(sub)] *)
Fixpoint includes (sub s : jsstring) : bool :=
  startsWith sub s ||
  match s with
  | [] => false
  | _ :: r => includes sub r
  end.

(** [arr.includes(x)] on an array of strings. *)
Definition arr_includes (x : jsstring) (arr : list jsstring) : bool :=
  bool_decide (x ∈ arr).

(** [parts.join(sep)] *)
Fixpoint join (sep : jsstring) (parts : list jsstring) : jsstring :=
  match parts with
  | [] => []
  | [p] => p
  | p :: rest => p ++ sep ++ join sep rest
  end.

(** The regular-expression fragment the sources use: a character class
    repeated exactly [n] times at the head of the input.  The result is
    the unmatched rest. *)
Fixpoint match_rep (cls : N -> bool) (n : nat) (s : jsstring)
  : option jsstring :=
  match n with
  | O => Some s
  | S k =>
      match s with
      | [] => None
      | c :: r => if cls c then match_rep cls k r else None
      end
  end.

(** [/^cls{n}$/.test(s)]: anchored at both ends, no multiline flag, so [$]
    is the end of the input. *)
Definition test_anchored_rep (cls : N -> bool) (n : nat) (s : jsstring)
  : bool :=
  match match_rep cls n s with
  | Some [] => true
  | _ => false
  end.

(** [/[...]/.test(s)]: some code unit of [s] is in the class. *)
Definition test_class (cls : N -> bool) (s : jsstring) : bool :=
  existsb cls s.

End JS.

(** ** models/book.ts *)
Module BookModel.

(** The class [[A-Z0-9]]. *)
Definition in_AZ09 (c : N) : bool :=
  ((65 <=? c) && (c <=? 90) || (48 <=? c) && (c <=? 57))%N.

(** [ASIN_PATTERN.test(s)] with [ASIN_PATTERN = /^[A-Z0-9]{10}$/]. *)
Definition ASIN_PATTERN_test (s : jsstring) : bool :=
  JS.test_anchored_rep in_AZ09 10 s.

Inductive AsinError : Type :=
| AsinMissing                       (* 'ASINが無効です' *)
| AsinBadFormat (asin : jsstring).  (* '無効なASIN形式: ...' *)

(** [validateAsin]: returns [true] or throws. *)
Definition validateAsin (asin : jsstring) : Result AsinError bool :=
  if negb (JS.truthy asin) then Throw AsinMissing
  else if negb (ASIN_PATTERN_test asin) then Throw (AsinBadFormat asin)
  else Ok true.

(** What the specification calls a well-formed ASIN: exactly ten
    characters, each an upper-case Latin letter or a decimal digit. *)
Definition upper_or_digit (c : N) : Prop :=
  (65 <= c <= 90)%N \/ (48 <= c <= 57)%N.

Definition well_formed_asin (s : jsstring) : Prop :=
  length s = 10 /\ Forall upper_or_digit s.

(** The integrated book of the application. *)
Record Book : Type := mkBook {
  asin : jsstring;
  title : jsstring;
  author : jsstring;
  collections : list jsstring;
  tags : option (list jsstring);
  coverUrl : option jsstring;
  publisher : option jsstring;
  publicationDate : option jsstring;
  purchaseDate : option jsstring
}.

(** [Partial<Book>]: every field may be undefined. *)
Record PartialBook : Type := mkPartialBook {
  p_asin : option jsstring;
  p_title : option jsstring;
  p_author : option jsstring;
  p_collections : option (list jsstring);
  p_tags : option (list jsstring);
  p_coverUrl : option jsstring;
  p_publisher : option jsstring;
  p_publicationDate : option jsstring;
  p_purchaseDate : option jsstring
}.

(** A collection; [bookCount] is a JavaScript number that only ever holds
    an integer here. *)
Record Collection : Type := mkCollection {
  coll_id : jsstring;
  coll_name : jsstring;
  bookCount : Z;
  lastUpdated : option jsstring
}.

Record PartialCollection : Type := mkPartialCollection {
  pc_id : option jsstring;
  pc_name : option jsstring;
  pc_bookCount : option Z;
  pc_lastUpdated : option jsstring
}.

Record BookCollectionAssociation : Type := mkAssociation {
  bookAsin : jsstring;
  collectionId : jsstring
}.

Inductive BookOriginType : Type := Purchase | KindleUnlimited.

(** The metadata of one book as extracted from the XML file. *)
Record BookMetadata : Type := mkBookMetadata {
  bm_asin : jsstring;
  bm_title : jsstring;
  bm_titlePronunciation : option jsstring;
  bm_author : jsstring;
  bm_authorPronunciation : option jsstring;
  bm_publisher : option jsstring;
  bm_publicationDate : option jsstring;
  bm_purchaseDate : option jsstring;
  bm_contentType : option jsstring;
  bm_mimeType : option jsstring;
  bm_originType : option BookOriginType
}.

(** [isValidBook]: the type guard of the final validation. *)
Definition isValidBook (b : Book) : bool :=
  if negb (JS.truthy (asin b)) then false
  else if negb (JS.truthy (title b)) then false
  else if negb (JS.truthy (author b)) then false
  else match validateAsin (asin b) with
       | Ok _ => true
       | Throw _ => false
       end.

(** [isValidCollection] *)
Definition isValidCollection (c : Collection) : bool :=
  if negb (JS.truthy (coll_id c)) then false
  else if negb (JS.truthy (coll_name c)) then false
  else if (bookCount c <? 0)%Z then false
  else true.

Inductive Field : Type := FAsin | FTitle | FAuthor | FId | FName.

Inductive BookValidationError : Type :=
| RequiredField (f : Field)
| InvalidAsin (e : AsinError).

(** The filter callback [(c) => typeof c === 'string' && c.trim()]. *)
Definition keeps (c : jsstring) : bool := JS.truthy (JS.trim c).

(** [createSafeBook] *)
Definition createSafeBook (data : PartialBook)
  : Result BookValidationError Book :=
  if negb (JS.truthy_opt (p_asin data)) then Throw (RequiredField FAsin)
  else if negb (JS.truthy_opt (p_title data)) then Throw (RequiredField FTitle)
  else if negb (JS.truthy_opt (p_author data)) then Throw (RequiredField FAuthor)
  else
    let a := default [] (p_asin data) in
    match validateAsin a with
    | Throw e => Throw (InvalidAsin e)
    | Ok _ =>
        let cs := default [] (p_collections data) in
        Ok {| asin := a;
              title := JS.trim (default [] (p_title data));
              author := JS.trim (default [] (p_author data));
              collections := List.filter keeps cs;
              tags := option_map (List.filter keeps) (p_tags data);
              coverUrl :=
                if JS.truthy_opt (p_coverUrl data)
                then option_map JS.trim (p_coverUrl data) else None;
              publisher := option_map JS.trim (p_publisher data);
              publicationDate := option_map JS.trim (p_publicationDate data);
              purchaseDate := option_map JS.trim (p_purchaseDate data) |}
    end.

(** [createSafeCollection]; [Math.max(0, bookCount)] clamps a negative
    count. *)
Definition createSafeCollection (data : PartialCollection)
  : Result BookValidationError Collection :=
  if negb (JS.truthy_opt (pc_id data)) then Throw (RequiredField FId)
  else if negb (JS.truthy_opt (pc_name data)) then Throw (RequiredField FName)
  else
    let n := default 0%Z (pc_bookCount data) in
    Ok {| coll_id := JS.trim (default [] (pc_id data));
          coll_name := JS.trim (default [] (pc_name data));
          bookCount := Z.max 0 n;
          lastUpdated := option_map JS.trim (pc_lastUpdated data) |}.

End BookModel.

(** ** services/pathDetector.ts *)
Module PathDetector.

Record KindleCacheFiles : Type := mkFiles {
  xmlPath : jsstring;
  dbPath : jsstring
}.

(** ['auto' | 'manual' | 'env'] *)
Inductive Source : Type := SAuto | SManual | SEnv.

Definition source_tag (s : Source) : jsstring :=
  match s with
  | SAuto => JS.lit "auto"
  | SManual => JS.lit "manual"
  | SEnv => JS.lit "env"
  end.

Inductive PathError : Type :=
| PathNotSpecified            (* 'パスが指定されていません' *)
| SecurityViolation           (* 'セキュリティ違反: 不正なパスが含まれています' *)
| InvalidCharacters           (* '無効な文字が含まれています' *)
| ConfigNotFound              (* '設定ファイルが見つかりません' *)
| CacheExpired                (* 'キャッシュが期限切れです' *)
| NotADirectory (p : jsstring)
| XmlFileNotFound (p : jsstring)
| DbFileNotFound (p : jsstring)
| PathValidationError (p : jsstring)
| NoCandidateFound (searched : list jsstring)
| SaveFailed
| DetectionException (e : PathError).

Record PathDetectionResult : Type := mkDetection {
  success : bool;
  paths : option KindleCacheFiles;
  error : option PathError;
  searchedPaths : list jsstring;
  source : Source
}.

Record PathConfiguration : Type := mkConfig {
  kindleCachePath : jsstring;
  lastValidated : Z;
  cfg_source : Source
}.

(** The functions of Node's [path] module that the detector calls. *)
Record PathLib : Type := mkPathLib {
  resolve : jsstring -> jsstring;
  join : list jsstring -> jsstring
}.

Inductive NodeKind : Type := KFile | KDirectory | KOther.

(** What [fs.stat] and [fs.access] report about an existing entry. *)
Record FsEntry : Type := mkEntry {
  kind : NodeKind;
  size : Z;
  readable : bool
}.

Record Environment : Type := mkEnv {
  KINDLE_XML_PATH : option jsstring;
  KINDLE_DB_PATH : option jsstring;
  KINDLE_CACHE_PATH : option jsstring;
  USERPROFILE : option jsstring;
  LOCALAPPDATA : option jsstring
}.

(** The JSON document of [paths.json] after [JSON.parse]: the date is the
    time value of [new Date(lastValidated)], [None] when it is [NaN]. *)
Record StoredConfig : Type := mkStored {
  sc_kindleCachePath : jsstring;
  sc_lastValidated : option Z;
  sc_source : jsstring
}.

(** The host as the detector sees it: the file system, the process
    environment, the configuration file ([None]: absent, unreadable or not
    JSON), whether it can be written, and the clock in milliseconds. *)
Record World : Type := mkWorld {
  fs : jsstring -> option FsEntry;
  env : Environment;
  config_file : option StoredConfig;
  config_writable : bool;
  clock : Z
}.

Definition TARGET_XML : jsstring := JS.lit "KindleSyncMetadataCache.xml".
Definition TARGET_DB : jsstring := JS.lit "synced_collections.db".

Definition parse_source (s : jsstring) : option Source :=
  if JS.eqb s (JS.lit "auto") then Some SAuto
  else if JS.eqb s (JS.lit "manual") then Some SManual
  else if JS.eqb s (JS.lit "env") then Some SEnv
  else None.

(** [isValidConfiguration], returning the typed configuration. *)
Definition isValidConfiguration (c : StoredConfig) : option PathConfiguration :=
  match parse_source (sc_source c), sc_lastValidated c with
  | Some src, Some t =>
      if (0 <? length (sc_kindleCachePath c))%nat
      then Some {| kindleCachePath := sc_kindleCachePath c;
                   lastValidated := t;
                   cfg_source := src |}
      else None
  | _, _ => None
  end.

(** [getCurrentConfiguration] *)
Definition getCurrentConfiguration (w : World) : option PathConfiguration :=
  match config_file w with
  | Some c => isValidConfiguration c
  | None => None
  end.

(** [saveConfiguration]: writes [paths.json] or throws. *)
Definition saveConfiguration (config : PathConfiguration) (w : World)
  : Result PathError World :=
  if config_writable w then
    Ok {| fs := fs w; env := env w;
          config_file :=
            Some {| sc_kindleCachePath := kindleCachePath config;
                    sc_lastValidated := Some (lastValidated config);
                    sc_source := source_tag (cfg_source config) |};
          config_writable := config_writable w;
          clock := clock w |}
  else Throw SaveFailed.

Inductive FileCheckError : Type :=
| Missing | AccessDenied | NotRegularFile | IsEmpty.

(** [validateFile]: exists, readable, a regular file, not empty. *)
Definition validateFile (w : World) (filePath : jsstring)
  : Result FileCheckError unit :=
  match fs w filePath with
  | None => Throw Missing
  | Some e =>
      if negb (readable e) then Throw AccessDenied
      else match kind e with
           | KFile => if (size e =? 0)%Z then Throw IsEmpty else Ok tt
           | _ => Throw NotRegularFile
           end
  end.

(** The character class of the [invalidChars] expression: less-than,
    greater-than, colon, double quote, vertical bar, question mark and
    asterisk. *)
Definition invalidChars (c : N) : bool :=
  ((c =? 60) || (c =? 62) || (c =? 58) || (c =? 34) || (c =? 124)
   || (c =? 63) || (c =? 42))%N.

Section WithPath.

Variable P : PathLib.

(** [validateKindlePath] *)
Definition validateKindlePath (w : World) (basePath : jsstring)
  : Result PathError KindleCacheFiles :=
  match fs w basePath with
  | None => Throw (PathValidationError basePath)
  | Some e =>
      match kind e with
      | KDirectory =>
          let xmlPath := join P [basePath; TARGET_XML] in
          let dbPath := join P [basePath; JS.lit "db"; TARGET_DB] in
          match validateFile w xmlPath, validateFile w dbPath with
          | Throw _, _ => Throw (XmlFileNotFound xmlPath)
          | Ok _, Throw _ => Throw (DbFileNotFound dbPath)
          | Ok _, Ok _ => Ok {| xmlPath := xmlPath; dbPath := dbPath |}
          end
      | _ => Throw (NotADirectory basePath)
      end
  end.

(** [validateAndNormalizePath] *)
Definition validateAndNormalizePath (inputPath : jsstring)
  : Result PathError jsstring :=
  if negb (JS.truthy inputPath) then Throw PathNotSpecified
  else
    let normalizedPath := resolve P (JS.trim inputPath) in
    if JS.includes (JS.lit "..") normalizedPath then Throw SecurityViolation
    else if JS.test_class invalidChars normalizedPath
         then Throw InvalidCharacters
         else Ok normalizedPath.

Definition failure (e : PathError) (searched : list jsstring) (src : Source)
  : PathDetectionResult :=
  {| success := false; paths := None; error := Some e;
     searchedPaths := searched; source := src |}.

(** [24 * 60 * 60 * 1000]: the twenty-four hours of the expiry test.  The
    source compares the quotient by [1000 * 60 * 60] with [24]; for integer
    millisecond values that is the comparison below. *)
Definition CACHE_VALIDITY_MS : Z := (24 * 60 * 60 * 1000)%Z.

(** [loadCachedConfiguration] *)
Definition loadCachedConfiguration (w : World) : PathDetectionResult :=
  match getCurrentConfiguration w with
  | None => failure ConfigNotFound [] SAuto
  | Some config =>
      if (CACHE_VALIDITY_MS <? clock w - lastValidated config)%Z
      then failure CacheExpired [] SAuto
      else
        match validateKindlePath w (kindleCachePath config) with
        | Ok ps =>
            {| success := true; paths := Some ps; error := None;
               searchedPaths := [kindleCachePath config];
               source := cfg_source config |}
        | Throw e =>
            failure e [kindleCachePath config] (cfg_source config)
        end
  end.

Definition auto_segments : list jsstring :=
  [JS.lit "Amazon"; JS.lit "Kindle"; JS.lit "Cache"].

(** [arr.findIndex(f)] *)
Fixpoint findIndex {A} (f : A -> bool) (l : list A) : option nat :=
  match l with
  | [] => None
  | x :: r => if f x then Some 0 else option_map S (findIndex f r)
  end.

(** [arr.filter((x, index, array) => f x index array)], from [index] on. *)
Fixpoint filter_indexed {A} (f : A -> nat -> bool) (index : nat) (l : list A)
  : list A :=
  match l with
  | [] => []
  | x :: r =>
      if f x index then x :: filter_indexed f (S index) r
      else filter_indexed f (S index) r
  end.

(** [generatePathCandidates] *)
Definition generatePathCandidates (w : World) : list (jsstring * Source) :=
  let c1 :=
    match KINDLE_CACHE_PATH (env w) with
    | Some envPath =>
        if JS.truthy envPath then [(resolve P envPath, SEnv)] else []
    | None => []
    end in
  let c2 :=
    match USERPROFILE (env w) with
    | Some userProfile =>
        if JS.truthy userProfile
        then [(join P ([userProfile; JS.lit "AppData"; JS.lit "Local"]
                         ++ auto_segments), SAuto)]
        else []
    | None => []
    end in
  let c3 :=
    match LOCALAPPDATA (env w) with
    | Some localAppData =>
        if JS.truthy localAppData
        then [(join P (localAppData :: auto_segments), SAuto)]
        else []
    | None => []
    end in
  let candidates := c1 ++ c2 ++ c3 in
  filter_indexed
    (fun candidate index =>
       bool_decide
         (findIndex (fun c => JS.eqb (fst c) (fst candidate)) candidates
          = Some index))
    0 candidates.

(** The loop over the candidates: the first one that validates is saved
    and returned; [None] when none validates.  A failing save throws. *)
Fixpoint try_candidates (w : World) (cands : list (jsstring * Source))
  : Result PathError (option (PathDetectionResult * World)) :=
  match cands with
  | [] => Ok None
  | (basePath, src) :: rest =>
      match validateKindlePath w basePath with
      | Ok ps =>
          match saveConfiguration
                  {| kindleCachePath := basePath;
                     lastValidated := clock w;
                     cfg_source := src |} w with
          | Ok w' =>
              Ok (Some ({| success := true; paths := Some ps; error := None;
                           searchedPaths := [basePath]; source := src |}, w'))
          | Throw e => Throw e
          end
      | Throw _ => try_candidates w rest
      end
  end.

(** The test of the two per-file overrides at the head of
    [detectKindlePaths]: both set, both entries exist ([fs.stat] does not
    throw) and both are regular files. *)
Definition env_override (w : World) : option KindleCacheFiles :=
  match KINDLE_XML_PATH (env w), KINDLE_DB_PATH (env w) with
  | Some x, Some d =>
      if JS.truthy x && JS.truthy d then
        let xmlPath := resolve P x in
        let dbPath := resolve P d in
        match fs w xmlPath, fs w dbPath with
        | Some xmlStats, Some dbStats =>
            match kind xmlStats, kind dbStats with
            | KFile, KFile => Some {| xmlPath := xmlPath; dbPath := dbPath |}
            | _, _ => None
            end
        | _, _ => None
        end
      else None
  | _, _ => None
  end.

(** The part of [detectKindlePaths] after the cache: candidates in order. *)
Definition detect_candidates (w : World) : PathDetectionResult * World :=
  let pathCandidates := generatePathCandidates w in
  match try_candidates w pathCandidates with
  | Ok (Some r) => r
  | Ok None =>
      let searched := map fst pathCandidates in
      (failure (NoCandidateFound searched) searched SAuto, w)
  | Throw e => (failure (DetectionException e) [] SAuto, w)
  end.

(** [detectKindlePaths] *)
Definition detectKindlePaths (forceUpdate : bool) (w : World)
  : PathDetectionResult * World :=
  match env_override w with
  | Some ps =>
      ({| success := true; paths := Some ps; error := None;
          searchedPaths := [xmlPath ps; dbPath ps]; source := SEnv |}, w)
  | None =>
      if negb forceUpdate then
        let cachedResult := loadCachedConfiguration w in
        if success cachedResult then (cachedResult, w)
        else detect_candidates w
      else detect_candidates w
  end.

(** [setManualPath] *)
Definition setManualPath (manualPath : jsstring) (w : World)
  : PathDetectionResult * World :=
  match validateAndNormalizePath manualPath with
  | Throw e => (failure e [manualPath] SManual, w)
  | Ok normalizedPath =>
      match validateKindlePath w normalizedPath with
      | Ok ps =>
          match saveConfiguration
                  {| kindleCachePath := normalizedPath;
                     lastValidated := clock w;
                     cfg_source := SManual |} w with
          | Ok w' =>
              ({| success := true; paths := Some ps; error := None;
                  searchedPaths := [normalizedPath]; source := SManual |}, w')
          | Throw e => (failure e [manualPath] SManual, w)
          end
      | Throw e => (failure e [normalizedPath] SManual, w)
      end
  end.

End WithPath.

(** *** Node's [path] module on POSIX

    A model of [path.resolve] with one argument and of [path.join], for a
    process whose working directory is the absolute path [cwd]. *)

Definition SLASH : N := 47%N.

(** The segments between the separators. *)
Fixpoint split_slash (s : jsstring) : list jsstring :=
  match s with
  | [] => [[]]
  | c :: r =>
      if (c =? SLASH)%N then [] :: split_slash r
      else match split_slash r with
           | seg :: segs => (c :: seg) :: segs
           | [] => [[c]]
           end
  end.

(** One segment of [normalizeString]: [.] and empty segments vanish, [..]
    removes the segment before it (or stays, above the root of a relative
    path). *)
Definition norm_step (allowAboveRoot : bool) (stack : list jsstring)
  (seg : jsstring) : list jsstring :=
  if JS.eqb seg [] || JS.eqb seg (JS.lit ".") then stack
  else if JS.eqb seg (JS.lit "..") then
    match last stack with
    | Some top =>
        if JS.eqb top (JS.lit "..")
        then (if allowAboveRoot then stack ++ [seg] else stack)
        else removelast stack
    | None => if allowAboveRoot then stack ++ [seg] else stack
    end
  else stack ++ [seg].

Definition normalizeString (allowAboveRoot : bool) (p : jsstring) : jsstring :=
  JS.join [SLASH] (fold_left (norm_step allowAboveRoot) (split_slash p) []).

Definition isAbsolute (p : jsstring) : bool :=
  match p with
  | c :: _ => (c =? SLASH)%N
  | [] => false
  end.

Definition posix_resolve (cwd p : jsstring) : jsstring :=
  let full :=
    if negb (JS.truthy p) then cwd
    else if isAbsolute p then p
    else cwd ++ [SLASH] ++ p in
  SLASH :: normalizeString false full.

Definition posix_normalize (p : jsstring) : jsstring :=
  if negb (JS.truthy p) then JS.lit "."
  else
    let trailing := match last p with
                    | Some c => (c =? SLASH)%N
                    | None => false
                    end in
    let body := normalizeString (negb (isAbsolute p)) p in
    if negb (JS.truthy body) then
      (if isAbsolute p then [SLASH]
       else if trailing then JS.lit "./" else JS.lit ".")
    else
      let body' := if trailing then body ++ [SLASH] else body in
      if isAbsolute p then SLASH :: body' else body'.

Definition posix_join (parts : list jsstring) : jsstring :=
  posix_normalize (JS.join [SLASH] (List.filter JS.truthy parts)).

Definition posix (cwd : jsstring) : PathLib :=
  {| resolve := posix_resolve cwd; join := posix_join |}.
End PathDetector.

(** ** services/kindleParser.ts *)
Module KindleParser.
Import BookModel.

(** [string | { _?: string; $?: { pronunciation?: string } }] *)
Inductive TextNode : Type :=
| TextStr (s : jsstring)
| TextObj (text : option jsstring) (pronunciation : option jsstring).

(** [authors.author]: one element or an array of them. *)
Inductive AuthorsNode : Type :=
| AuthorOne (a : TextNode)
| AuthorMany (l : list TextNode).

(** [origins.origin]: one origin or an array; an origin is its [type]. *)
Inductive OriginsNode : Type :=
| OriginOne (type : option jsstring)
| OriginMany (l : list (option jsstring)).

(** One [meta_data] element as xml2js delivers it; a missing child is
    [None]. *)
Record MetadataElement : Type := mkElement {
  ASIN : option jsstring;
  e_title : option TextNode;
  e_authors : option AuthorsNode;
  e_publisher : option jsstring;
  publication_date : option jsstring;
  purchase_date : option jsstring;
  cde_contenttype : option jsstring;
  content_type : option jsstring;
  e_origins : option OriginsNode
}.

Inductive MetaDataNode : Type :=
| MetaOne (e : MetadataElement)
| MetaMany (l : list MetadataElement).

(** [response.add_update_list.meta_data]; [None] when a level is missing. *)
Record KindleXMLStructure : Type := mkXml {
  meta_data : option MetaDataNode
}.

Inductive ExtractError : Type :=
| NoAsin | BadAsin (e : AsinError) | BadTitle | NoTitle.

(** [Object.prototype.toString] of a plain object. *)
Definition object_toString : jsstring := JS.lit "[object Object]".

(** ['不明'] *)
Definition UNKNOWN_AUTHOR : jsstring := [19981%N; 26126%N].

Definition CHUNK_SIZE : nat := 100.

(** [node._ || node.toString()] *)
Definition node_text (text : option jsstring) : jsstring :=
  if JS.truthy_opt text then default [] text else object_toString.

(** [extractTitle] *)
Definition extractTitle (m : MetadataElement)
  : Result ExtractError (jsstring * option jsstring) :=
  match e_title m with
  | Some (TextStr s) => Ok (JS.trim s, None)
  | Some (TextObj text pron) =>
      Ok (JS.trim (node_text text), option_map JS.trim pron)
  | None => Throw BadTitle
  end.

(** [extractSingleAuthor] *)
Definition extractSingleAuthor (a : TextNode)
  : option jsstring * option jsstring :=
  match a with
  | TextStr s => (Some (JS.trim s), None)
  | TextObj text pron =>
      (Some (JS.trim (node_text text)), option_map JS.trim pron)
  end.

(** The loop body of the array case of [extractAuthor]. *)
Definition push_author (acc : list jsstring * list jsstring) (a : TextNode)
  : list jsstring * list jsstring :=
  let '(authors, pronunciations) := acc in
  let '(name, pronunciation) := extractSingleAuthor a in
  if JS.truthy_opt name then
    (authors ++ [default [] name],
     if JS.truthy_opt pronunciation
     then pronunciations ++ [default [] pronunciation]
     else pronunciations)
  else acc.

Definition truthy_node (a : TextNode) : bool :=
  match a with
  | TextStr s => JS.truthy s
  | TextObj _ _ => true
  end.

(** [extractAuthor] *)
Definition extractAuthor (m : MetadataElement)
  : option jsstring * option jsstring :=
  match e_authors m with
  | None => (None, None)
  | Some (AuthorOne a) =>
      if negb (truthy_node a) then (None, None)
      else match a with
           | TextStr s => (Some (JS.trim s), None)
           | TextObj _ _ => extractSingleAuthor a
           end
  | Some (AuthorMany l) =>
      let '(authors, pronunciations) := fold_left push_author l ([], []) in
      (match authors with
       | [] => None
       | _ => Some (JS.join (JS.lit ", ") authors)
       end,
       match pronunciations with
       | [] => None
       | _ => Some (JS.join (JS.lit ", ") pronunciations)
       end)
  end.

(** [extractPublisher] *)
Definition extractPublisher (m : MetadataElement) : option jsstring :=
  option_map JS.trim (e_publisher m).

(** [extractOriginType] *)
Definition extractOriginType (m : MetadataElement) : option BookOriginType :=
  let type :=
    match e_origins m with
    | None => None
    | Some (OriginOne t) => t
    | Some (OriginMany l) => default None (head l)
    end in
  match type with
  | Some t =>
      if JS.eqb t (JS.lit "Purchase") then Some Purchase
      else if JS.eqb t (JS.lit "KindleUnlimited") then Some KindleUnlimited
      else None
  | None => None
  end.

Section WithDate.

(** Whether [new Date(s).getTime()] is a number: the date parser of the
    JavaScript engine. *)
Variable date_is_valid : jsstring -> bool.

(** [extractDate] *)
Definition extractDate (dateString : option jsstring) : option jsstring :=
  match dateString with
  | None => None
  | Some d =>
      if negb (JS.truthy d) then None
      else
        let trimmed := JS.trim d in
        if negb (JS.truthy trimmed) then None
        else if negb (date_is_valid trimmed) then None
        else Some trimmed
  end.

(** [extractSingleBookMetadata]: [None] is the [null] returned when any
    step throws. *)
Definition extractSingleBookMetadata (m : MetadataElement)
  : option BookMetadata :=
  if negb (JS.truthy_opt (ASIN m)) then None
  else
    let a := JS.trim (default [] (ASIN m)) in
    match validateAsin a with
    | Throw _ => None
    | Ok _ =>
        match extractTitle m with
        | Throw _ => None
        | Ok (t, tp) =>
            if negb (JS.truthy t) then None
            else
              let '(au, ap) := extractAuthor m in
              Some {| bm_asin := a;
                      bm_title := t;
                      bm_titlePronunciation := tp;
                      bm_author :=
                        if JS.truthy_opt au then default [] au
                        else UNKNOWN_AUTHOR;
                      bm_authorPronunciation := ap;
                      bm_publisher := extractPublisher m;
                      bm_publicationDate := extractDate (publication_date m);
                      bm_purchaseDate := extractDate (purchase_date m);
                      bm_contentType := cde_contenttype m;
                      bm_mimeType := content_type m;
                      bm_originType := extractOriginType m |}
        end
    end.

(** [processMetadataChunk]: pushes onto the shared [books] array. *)
Definition processMetadataChunk (chunk : list MetadataElement)
  (books : list BookMetadata) : list BookMetadata :=
  fold_left
    (fun acc m =>
       match extractSingleBookMetadata m with
       | Some b => acc ++ [b]
       | None => acc
       end)
    chunk books.

(** [arr.slice(i, j)] for [i <= j]. *)
Definition slice {A} (i j : nat) (l : list A) : list A :=
  take (j - i) (drop i l).

(** The [for (let i = 0; i < n; i += CHUNK_SIZE)] loop of
    [processLargeMetadataList]; [fuel] bounds the number of rounds. *)
Fixpoint chunk_loop (fuel i : nat) (metadataList : list MetadataElement)
  (books : list BookMetadata) : list BookMetadata :=
  match fuel with
  | O => books
  | S f =>
      if i <? length metadataList then
        chunk_loop f (i + CHUNK_SIZE) metadataList
          (processMetadataChunk (slice i (i + CHUNK_SIZE) metadataList) books)
      else books
  end.

(** [processLargeMetadataList]: the loop runs at most [length] rounds. *)
Definition processLargeMetadataList (metadataList : list MetadataElement)
  (books : list BookMetadata) : list BookMetadata :=
  chunk_loop (length metadataList) 0 metadataList books.

(** [extractBookMetadata] *)
Definition extractBookMetadata (parsedXML : KindleXMLStructure)
  : list BookMetadata :=
  match meta_data parsedXML with
  | None => []
  | Some (MetaMany l) => processLargeMetadataList l []
  | Some (MetaOne e) => processLargeMetadataList [e] []
  end.

End WithDate.

End KindleParser.

(** ** services/collectionParser.ts *)
Module KindleCollectionParser.
Import BookModel.

(** The counting loop: [bookCountMap.set(id, (bookCountMap.get(id) || 0) + 1)]. *)
Definition count_step (bookCountMap : gmap jsstring Z)
  (association : BookCollectionAssociation) : gmap jsstring Z :=
  let count := default 0%Z (bookCountMap !! collectionId association) in
  <[collectionId association := (count + 1)%Z]> bookCountMap.

Definition bookCountMap_of (associations : list BookCollectionAssociation)
  : gmap jsstring Z :=
  fold_left count_step associations ∅.

(** [updateBookCounts]: the collections are updated in place; the model
    returns them. *)
Definition updateBookCounts (collections : list Collection)
  (associations : list BookCollectionAssociation) : list Collection :=
  let bookCountMap := bookCountMap_of associations in
  map (fun c =>
         {| coll_id := coll_id c;
            coll_name := coll_name c;
            bookCount := default 0%Z (bookCountMap !! coll_id c);
            lastUpdated := lastUpdated c |})
      collections.

End KindleCollectionParser.

(** ** services/bookDataService.ts *)
Module BookDataService.
Import BookModel.

(** The result of [parseCollectionDB] as far as the merge reads it. *)
Record SqliteResult : Type := mkSqlite {
  sq_collections : list Collection;
  sq_associations : list BookCollectionAssociation
}.

Record IntegrationStatistics : Type := mkStats {
  xmlBookCount : nat;
  sqliteCollectionCount : nat;
  finalBookCount : nat;
  finalCollectionCount : nat;
  duplicateBookCount : nat;
  invalidBookCount : nat
}.

(** An entry of the diagnostics list of the final validation. *)
Inductive Diagnostic : Type :=
| InvalidBookData (asin : jsstring)
| InvalidCollectionData (id : jsstring).

Record BookDataIntegrationResult : Type := mkResult {
  books : list Book;
  res_collections : list Collection;
  statistics : IntegrationStatistics;
  errors : option (list Diagnostic)
}.

(** The first loop of [buildASINCollectionMapping]. *)
Definition collectionIdToName (cs : list Collection) : gmap jsstring jsstring :=
  fold_left (fun m c => <[coll_id c := coll_name c]> m) cs ∅.

(** The body of the second loop: the array stored under the ASIN is
    created on first use and extended in place. *)
Definition add_association (names : gmap jsstring jsstring)
  (asinToCollections : gmap jsstring (list jsstring))
  (association : BookCollectionAssociation)
  : gmap jsstring (list jsstring) :=
  match names !! collectionId association with
  | None => asinToCollections
  | Some collectionName =>
      if negb (JS.truthy collectionName) then asinToCollections
      else
        let a := bookAsin association in
        let m1 :=
          match asinToCollections !! a with
          | None => <[a := []]> asinToCollections
          | Some _ => asinToCollections
          end in
        let cs := default [] (m1 !! a) in
        if JS.arr_includes collectionName cs then m1
        else <[a := cs ++ [collectionName]]> m1
  end.

(** [buildASINCollectionMapping] *)
Definition buildASINCollectionMapping (sqliteResult : SqliteResult)
  : gmap jsstring (list jsstring) :=
  fold_left (add_association (collectionIdToName (sq_collections sqliteResult)))
    (sq_associations sqliteResult) ∅.

(** The local variables of the first loop of [mergeBookData]. *)
Record MergeState : Type := mkMerge {
  m_books : list Book;
  seenASINs : gset jsstring;
  duplicateCount : nat;
  invalidCount : nat
}.

Definition merge_init : MergeState :=
  {| m_books := []; seenASINs := ∅; duplicateCount := 0; invalidCount := 0 |}.

(** One round of the loop over the XML books. *)
Definition merge_step (asinToCollections : gmap jsstring (list jsstring))
  (st : MergeState) (xmlBook : BookMetadata) : MergeState :=
  if bool_decide (bm_asin xmlBook ∈ seenASINs st) then
    {| m_books := m_books st; seenASINs := seenASINs st;
       duplicateCount := S (duplicateCount st);
       invalidCount := invalidCount st |}
  else
    let bookCollections := default [] (asinToCollections !! bm_asin xmlBook) in
    match createSafeBook
            {| p_asin := Some (bm_asin xmlBook);
               p_title := Some (bm_title xmlBook);
               p_author := Some (bm_author xmlBook);
               p_collections := Some bookCollections;
               p_tags := None;
               p_coverUrl := None;
               p_publisher := bm_publisher xmlBook;
               p_publicationDate := bm_publicationDate xmlBook;
               p_purchaseDate := bm_purchaseDate xmlBook |} with
    | Ok book =>
        {| m_books := m_books st ++ [book];
           seenASINs := {[bm_asin xmlBook]} ∪ seenASINs st;
           duplicateCount := duplicateCount st;
           invalidCount := invalidCount st |}
    | Throw _ =>
        {| m_books := m_books st; seenASINs := seenASINs st;
           duplicateCount := duplicateCount st;
           invalidCount := S (invalidCount st) |}
    end.

(** The second loop of [mergeBookData]: a collection that
    [createSafeCollection] rejects is skipped. *)
Definition convert_collections (cs : list Collection) : list Collection :=
  fold_left
    (fun acc c =>
       match createSafeCollection
               {| pc_id := Some (coll_id c);
                  pc_name := Some (coll_name c);
                  pc_bookCount := Some (bookCount c);
                  pc_lastUpdated := lastUpdated c |} with
       | Ok c' => acc ++ [c']
       | Throw _ => acc
       end)
    cs [].

(** [mergeBookData]: books, collections, duplicate and invalid counts. *)
Definition mergeBookData (xmlBooks : list BookMetadata)
  (sqliteResult : SqliteResult)
  : list Book * list Collection * nat * nat :=
  let asinToCollections := buildASINCollectionMapping sqliteResult in
  let st := fold_left (merge_step asinToCollections) xmlBooks merge_init in
  (m_books st, convert_collections (sq_collections sqliteResult),
   duplicateCount st, invalidCount st).

(** [validateIntegratedData]: valid books, valid collections, diagnostics
    (those of the books first). *)
Definition validateIntegratedData (bs : list Book) (cs : list Collection)
  : list Book * list Collection * list Diagnostic :=
  (List.filter isValidBook bs,
   List.filter isValidCollection cs,
   map (fun b => InvalidBookData (asin b))
     (List.filter (fun b => negb (isValidBook b)) bs)
   ++ map (fun c => InvalidCollectionData (coll_id c))
     (List.filter (fun c => negb (isValidCollection c)) cs)).

(** Why a phase that touches the file system or the database failed. *)
Inductive FileError : Type :=
| NotFound | NotAFile | EmptyFile | TooLarge | WrongExtension
| OutsideCacheDir | Malformed | Locked | InvalidFormat.

Inductive Cause : Type :=
| PathDetectionFailed
| XmlFailed (e : FileError)
| SqliteFailed (e : FileError).

(** Every failure leaves [integrateAllBookData] wrapped in an [Error] whose
    message starts with [DATA_MERGE_FAILED]. *)
Inductive IntegrationError : Type :=
| DATA_MERGE_FAILED (c : Cause).

(** What the three phases that perform input/output deliver in one run:
    the result of [detectKindlePaths], the outcome of reading and parsing
    the XML file at a path (up to and including [parseXMLString]), and the
    outcome of [parseCollectionDB] on the database at a path. *)
Record PhaseOutcomes : Type := mkPhases {
  pathResult : PathDetector.PathDetectionResult;
  xmlDocument : jsstring -> Result FileError KindleParser.KindleXMLStructure;
  sqliteResult : jsstring -> Result FileError SqliteResult
}.

(** Phases 3 to 5 of [integrateAllBookData], once both sources are read:
    the count recomputation, the merge, the final validation and the
    statistics.  The timings are left out. *)
Definition assemble (xmlBooks : list BookMetadata) (sq : SqliteResult)
  : BookDataIntegrationResult :=
  let counted :=
    KindleCollectionParser.updateBookCounts
      (sq_collections sq) (sq_associations sq) in
  let sq' := {| sq_collections := counted;
                sq_associations := sq_associations sq |} in
  let '(bs, cs, duplicateCount, invalidCount) := mergeBookData xmlBooks sq' in
  let '(validBooks, validCollections, errs) := validateIntegratedData bs cs in
  {| books := validBooks;
     res_collections := validCollections;
     statistics :=
       {| xmlBookCount := length xmlBooks;
          sqliteCollectionCount := length counted;
          finalBookCount := length validBooks;
          finalCollectionCount := length validCollections;
          duplicateBookCount := duplicateCount;
          invalidBookCount := invalidCount |};
     errors := match errs with
               | [] => None
               | _ => Some errs
               end |}.

Section WithDate.

Variable date_is_valid : jsstring -> bool.

(** [integrateAllBookData] *)
Definition integrateAllBookData (io : PhaseOutcomes)
  : Result IntegrationError BookDataIntegrationResult :=
  match PathDetector.success (pathResult io),
        PathDetector.paths (pathResult io) with
  | true, Some paths =>
      match xmlDocument io (PathDetector.xmlPath paths) with
      | Throw e => Throw (DATA_MERGE_FAILED (XmlFailed e))
      | Ok parsedXML =>
          let xmlBooks :=
            KindleParser.extractBookMetadata date_is_valid parsedXML in
          match sqliteResult io (PathDetector.dbPath paths) with
          | Throw e => Throw (DATA_MERGE_FAILED (SqliteFailed e))
          | Ok sq => Ok (assemble xmlBooks sq)
          end
      end
  | _, _ => Throw (DATA_MERGE_FAILED PathDetectionFailed)
  end.

End WithDate.

End BookDataService.

(** ** services/bookService.ts *)
Module BookService.
Import BookModel.

(** [CACHE_DURATION = 5 * 60 * 1000] milliseconds. *)
Definition CACHE_DURATION : Z := (5 * 60 * 1000)%Z.

(** A books array together with its identity: the number of the pipeline
    run that allocated it. *)
Record BooksRef : Type := mkRef {
  ref_id : nat;
  ref_books : list Book
}.

(** The fields of a [BookService], and the number of runs of
    [integrateAllBookData] so far. *)
Record State : Type := mkState {
  cachedBooks : option BooksRef;
  lastCacheTime : Z;
  runs : nat
}.

Definition initial : State :=
  {| cachedBooks := None; lastCacheTime := 0; runs := 0 |}.

Inductive GetAllError : Type :=
| IntegrationThrew (e : BookDataService.IntegrationError)
| IntegrationErrors (errs : list BookDataService.Diagnostic).

Section WithPipeline.

(** The outcome of the [n]-th run of [integrateAllBookData]. *)
Variable pipeline :
  nat -> Result BookDataService.IntegrationError
           BookDataService.BookDataIntegrationResult.

(** The test [this.cachedBooks && now - this.lastCacheTime <
    this.CACHE_DURATION]; an array, even an empty one, is truthy. *)
Definition cache_hit (now : Z) (st : State) : option BooksRef :=
  match cachedBooks st with
  | Some cached =>
      if (now - lastCacheTime st <? CACHE_DURATION)%Z then Some cached
      else None
  | None => None
  end.

(** [getAllBooks], called when [Date.now()] is [now], as one step: the
    call runs from the cache test to its [return] with no other call on
    the same service in between.  The function has one [await]; its two
    halves, which other calls may separate, are [getAllBooks_enter] and
    [getAllBooks_resume] below. *)
Definition getAllBooks (now : Z) (st : State)
  : Result GetAllError BooksRef * State :=
  match cache_hit now st with
  | Some cached => (Ok cached, st)
  | None =>
      let st1 := {| cachedBooks := cachedBooks st;
                    lastCacheTime := lastCacheTime st;
                    runs := S (runs st) |} in
      match pipeline (runs st) with
      | Throw e => (Throw (IntegrationThrew e), st1)
      | Ok r =>
          match BookDataService.errors r with
          | Some (d :: ds) => (Throw (IntegrationErrors (d :: ds)), st1)
          | _ =>
              let ref := {| ref_id := runs st;
                            ref_books := BookDataService.books r |} in
              (Ok ref, {| cachedBooks := Some ref;
                          lastCacheTime := now;
                          runs := S (runs st) |})
          end
      end
  end.

End WithPipeline.


(** *** The two halves of [getAllBooks]

    [getAllBooks] is an [async] function on a service object that the
    routes share.  It reads [now] and tests the cache, and on a miss it
    starts [integrateAllBookData] and waits; the fields are written only
    when the run has settled.  Nothing records that a run is under way,
    so a call that enters while another waits starts a run of its own. *)



Section Interleaved.

Variable pipeline :
  nat -> Result BookDataService.IntegrationError
           BookDataService.BookDataIntegrationResult.




End Interleaved.

End BookService.

(** ** Vocabulary: the count recomputation *)
Module CollectionSpec.
Import BookModel KindleCollectionParser.

(** The number of associations that reference the collection [id]. *)
Definition references (id : jsstring)
  (associations : list BookCollectionAssociation) : nat :=
  length (List.filter (fun a => bool_decide (collectionId a = id)) associations).

Definition c3_collections : list Collection :=
  [ {| coll_id := JS.lit "c-1"; coll_name := JS.lit "Novels";
       bookCount := 0; lastUpdated := None |};
    {| coll_id := JS.lit "c-2"; coll_name := JS.lit "Empty";
       bookCount := 7; lastUpdated := None |} ].

Definition c3_associations : list BookCollectionAssociation :=
  [ {| bookAsin := JS.lit "B000000001"; collectionId := JS.lit "c-1" |};
    {| bookAsin := JS.lit "B000000002"; collectionId := JS.lit "c-9" |};
    {| bookAsin := JS.lit "B000000003"; collectionId := JS.lit "c-1" |} ].

End CollectionSpec.

(** ** Vocabulary: the merge *)
Module MergeSpec.
Import BookModel BookDataService.

(** The argument [mergeBookData] hands to [createSafeBook]. *)
Definition to_partial (asinToCollections : gmap jsstring (list jsstring))
  (xmlBook : BookMetadata) : PartialBook :=
  {| p_asin := Some (bm_asin xmlBook);
     p_title := Some (bm_title xmlBook);
     p_author := Some (bm_author xmlBook);
     p_collections := Some (default [] (asinToCollections !! bm_asin xmlBook));
     p_tags := None;
     p_coverUrl := None;
     p_publisher := bm_publisher xmlBook;
     p_publicationDate := bm_publicationDate xmlBook;
     p_purchaseDate := bm_purchaseDate xmlBook |}.

Definition book_of (m : gmap jsstring (list jsstring)) (x : BookMetadata)
  : Result BookValidationError Book :=
  createSafeBook (to_partial m x).

(** A record the merge can turn into a book. *)
Definition constructible (m : gmap jsstring (list jsstring))
  (x : BookMetadata) : bool :=
  is_ok (book_of m x).

(** The policy "the first occurrence of an identifier wins, in input
    order", written over the records that precede each record: a record
    yields a book when it is constructible and no constructible record
    before it has its identifier. *)
Fixpoint first_occurrences (m : gmap jsstring (list jsstring))
  (before l : list BookMetadata) : list Book :=
  match l with
  | [] => []
  | x :: r =>
      match book_of m x with
      | Ok b =>
          if existsb (fun y => bool_decide (bm_asin y = bm_asin x)
                               && constructible m y) before
          then first_occurrences m (x :: before) r
          else b :: first_occurrences m (x :: before) r
      | Throw _ => first_occurrences m (x :: before) r
      end
  end.

(** The three projections of the result of [mergeBookData]. *)
Definition merged_books (l : list BookMetadata) (sq : SqliteResult)
  : list Book := fst (fst (fst (mergeBookData l sq))).

Definition merged_duplicates (l : list BookMetadata) (sq : SqliteResult)
  : nat := snd (fst (mergeBookData l sq)).

Definition merged_invalid (l : list BookMetadata) (sq : SqliteResult)
  : nat := snd (mergeBookData l sq).

(** The set of seen identifiers is the set of identifiers of the books. *)
Definition seen_is_books (st : MergeState) : Prop :=
  forall a, a ∈ seenASINs st <-> a ∈ map asin (m_books st).

(** The SQLite result after the count recomputation, as [assemble] hands
    it to the merge. *)
Definition counted_sqlite (sq : SqliteResult) : SqliteResult :=
  {| sq_collections :=
       KindleCollectionParser.updateBookCounts
         (sq_collections sq) (sq_associations sq);
     sq_associations := sq_associations sq |}.

(** The claim about feeding a list twice, as the specification words it:
    the same books, and a duplicate counter equal to the length of the
    list. *)
Definition twice_as_specified (L : list BookMetadata) (sq : SqliteResult)
  : Prop :=
  merged_books (L ++ L) sq = merged_books L sq /\
  merged_duplicates (L ++ L) sq = length L.

Definition c2_book : BookMetadata :=
  {| bm_asin := JS.lit "B000000001";
     bm_title := JS.lit "Dune";
     bm_titlePronunciation := None;
     bm_author := JS.lit "Frank Herbert";
     bm_authorPronunciation := None;
     bm_publisher := None;
     bm_publicationDate := None;
     bm_purchaseDate := None;
     bm_contentType := None;
     bm_mimeType := None;
     bm_originType := None |}.

Definition no_collections : SqliteResult :=
  {| sq_collections := []; sq_associations := [] |}.

End MergeSpec.

(** ** Vocabulary: the invariant of a book *)
Module IntegratorSpec.
Import BookModel BookDataService MergeSpec.

(** The invariant of a [Book] as the specification gives it. *)
Definition book_invariant (b : Book) : Prop :=
  well_formed_asin (asin b) /\
  JS.trim (title b) <> [] /\
  JS.trim (author b) <> [] /\
  ([] ∉ collections b) /\
  NoDup (collections b).

(** Every array of collection names in the mapping is free of repetitions. *)
Definition names_nodup (m : gmap jsstring (list jsstring)) : Prop :=
  forall k l, m !! k = Some l -> NoDup l.

(** Every book of the merge comes out of [createSafeBook], called with a
    repetition-free array of collection names. *)
Definition from_createSafeBook (b : Book) : Prop :=
  exists data, createSafeBook data = Ok b /\
               NoDup (default [] (p_collections data)).

End IntegratorSpec.

(** ** Vocabulary: the extractor *)
Module ParserSpec.
Import BookModel KindleParser.

(** A string whose first code unit is not white space. *)
Definition headed (s : jsstring) : Prop :=
  match s with
  | c :: _ => JS.is_ws c = false
  | [] => False
  end.

End ParserSpec.

(** ** Concrete runs of the pipeline *)
Module PipelineRuns.
Import BookModel KindleParser BookDataService MergeSpec.

(** A date parser that accepts everything; the runs below carry no date. *)
Definition any_date : jsstring -> bool := fun _ => true.

Definition element (a t au : string) : MetadataElement :=
  {| ASIN := Some (JS.lit a);
     e_title := Some (TextStr (JS.lit t));
     e_authors := Some (AuthorOne (TextStr (JS.lit au)));
     e_publisher := None;
     publication_date := None;
     purchase_date := None;
     cde_contenttype := None;
     content_type := None;
     e_origins := None |}.

Definition element_without_asin : MetadataElement :=
  {| ASIN := None;
     e_title := Some (TextStr (JS.lit "Untitled"));
     e_authors := None;
     e_publisher := None;
     publication_date := None;
     purchase_date := None;
     cde_contenttype := None;
     content_type := None;
     e_origins := None |}.

Definition detected : PathDetector.KindleCacheFiles :=
  {| PathDetector.xmlPath := JS.lit "/cache/KindleSyncMetadataCache.xml";
     PathDetector.dbPath := JS.lit "/cache/db/synced_collections.db" |}.

(** A run in which the detection succeeds and both sources are read. *)
Definition run_of (elements : list MetadataElement) (sq : SqliteResult)
  : PhaseOutcomes :=
  {| pathResult :=
       {| PathDetector.success := true;
          PathDetector.paths := Some detected;
          PathDetector.error := None;
          PathDetector.searchedPaths := [JS.lit "/cache"];
          PathDetector.source := PathDetector.SAuto |};
     xmlDocument := fun _ => Ok {| meta_data := Some (MetaMany elements) |};
     sqliteResult := fun _ => Ok sq |}.

Definition dune : MetadataElement :=
  element "B000000001" "Dune" "Frank Herbert".

Definition dune_again : MetadataElement :=
  element "B000000001" "Dune (second copy)" "Frank Herbert".

Definition emma : MetadataElement :=
  element "B000000002" "Emma" "Jane Austen".

(** The scenario as the specification words it: two books, one duplicate,
    one invalid record, three records in total. *)
Definition scenario_as_specified (r : BookDataIntegrationResult) : Prop :=
  length (books r) = 2 /\
  duplicateBookCount (statistics r) = 1 /\
  invalidBookCount (statistics r) = 1 /\
  xmlBookCount (statistics r) = 3.

(** A library with one collection that holds [dune] (associated twice),
    and an association to a collection that does not exist. *)
Definition library : SqliteResult :=
  {| sq_collections :=
       [ {| coll_id := JS.lit "c-1"; coll_name := JS.lit "Novels";
            bookCount := 0; lastUpdated := None |};
         {| coll_id := JS.lit "c-2"; coll_name := JS.lit "Classics";
            bookCount := 0; lastUpdated := None |} ];
     sq_associations :=
       [ {| bookAsin := JS.lit "B000000001"; collectionId := JS.lit "c-1" |};
         {| bookAsin := JS.lit "B000000001"; collectionId := JS.lit "c-2" |};
         {| bookAsin := JS.lit "B000000001"; collectionId := JS.lit "c-1" |};
         {| bookAsin := JS.lit "B000000002"; collectionId := JS.lit "c-9" |} ] |}.

End PipelineRuns.

(** ** Concrete runs of the book service *)
Module CacheRuns.
Import BookModel BookDataService BookService.

(** A pipeline whose every run reads the same two sources. *)
Definition steady (io : PhaseOutcomes)
  : nat -> Result IntegrationError BookDataIntegrationResult :=
  fun _ => integrateAllBookData PipelineRuns.any_date io.

Definition good_run : PhaseOutcomes :=
  PipelineRuns.run_of [PipelineRuns.dune; PipelineRuns.emma]
    PipelineRuns.library.

(** A database with a collection whose identifier is white space only:
    the reader keeps it, [createSafeCollection] trims the identifier to the
    empty string, and the final validation reports it. *)
Definition blank_id_library : SqliteResult :=
  {| sq_collections :=
       [ {| coll_id := JS.lit "  "; coll_name := JS.lit "Novels";
            bookCount := 0; lastUpdated := None |} ];
     sq_associations := [] |}.

Definition flawed_run : PhaseOutcomes :=
  PipelineRuns.run_of [PipelineRuns.dune] blank_id_library.

Definition good_result : BookDataIntegrationResult :=
  assemble
    (KindleParser.extractBookMetadata PipelineRuns.any_date
       {| KindleParser.meta_data :=
            Some (KindleParser.MetaMany
                    [PipelineRuns.dune; PipelineRuns.emma]) |})
    PipelineRuns.library.

Definition good_ref : BooksRef :=
  {| ref_id := 0; ref_books := books good_result |}.

(** The service after its first successful call, made at time 1000. *)
Definition filled : State :=
  {| cachedBooks := Some good_ref; lastCacheTime := 1000; runs := 1 |}.

Definition flawed_result : BookDataIntegrationResult :=
  assemble
    (KindleParser.extractBookMetadata PipelineRuns.any_date
       {| KindleParser.meta_data :=
            Some (KindleParser.MetaMany [PipelineRuns.dune]) |})
    blank_id_library.



End CacheRuns.

(** ** Vocabulary and concrete hosts: path resolution *)
Module PathSpec.
Import PathDetector.

(** An existing regular file. *)
Definition regular_file (w : World) (p : jsstring) : Prop :=
  exists e, fs w p = Some e /\ kind e = KFile.

(** An existing, readable, non-empty regular file. *)
Definition usable_file (w : World) (p : jsstring) : Prop :=
  exists e, fs w p = Some e /\ kind e = KFile /\ readable e = true /\
            size e <> 0%Z.

(** The test at the head of [detectKindlePaths] in words: both overrides
    are supplied and name existing regular files. *)
Definition overrides_regular (P : PathLib) (w : World) : Prop :=
  exists x d,
    KINDLE_XML_PATH (env w) = Some x /\ KINDLE_DB_PATH (env w) = Some d /\
    JS.truthy x = true /\ JS.truthy d = true /\
    regular_file w (resolve P x) /\ regular_file w (resolve P d).

(** The result [loadCachedConfiguration] gives for a usable persisted
    resolution. *)
Definition cached_result (config : PathConfiguration) (ps : KindleCacheFiles)
  : PathDetectionResult :=
  {| success := true; paths := Some ps; error := None;
     searchedPaths := [kindleCachePath config];
     source := cfg_source config |}.

Definition cwd : jsstring := JS.lit "/srv/app".

Definition fs_of (entries : list (jsstring * FsEntry))
  : jsstring -> option FsEntry :=
  fun p => snd <$> List.find (fun e => JS.eqb (fst e) p) entries.

Definition dir_entry : FsEntry :=
  {| kind := KDirectory; size := 4096; readable := true |}.

Definition file_entry (n : Z) : FsEntry :=
  {| kind := KFile; size := n; readable := true |}.

(** A Kindle cache directory at [base] with both target files. *)
Definition kindle_dir (base : string) : list (jsstring * FsEntry) :=
  [ (JS.lit base, dir_entry);
    (JS.lit base ++ JS.lit "/KindleSyncMetadataCache.xml", file_entry 2048);
    (JS.lit base ++ JS.lit "/db/synced_collections.db", file_entry 8192) ].

Definition no_env : Environment :=
  {| KINDLE_XML_PATH := None; KINDLE_DB_PATH := None;
     KINDLE_CACHE_PATH := None; USERPROFILE := None; LOCALAPPDATA := None |}.

Definition stored (p tag : string) (t : Z) : StoredConfig :=
  {| sc_kindleCachePath := JS.lit p;
     sc_lastValidated := Some t;
     sc_source := JS.lit tag |}.

(** A host with a Kindle directory at [/kindle] and nothing persisted. *)
Definition fresh_host : World :=
  {| fs := fs_of (kindle_dir "/kindle");
     env := no_env;
     config_file := None;
     config_writable := true;
     clock := 5000 |}.

(** A host whose persisted resolution, one second old, names [/kindle]. *)
Definition cached_host : World :=
  {| fs := fs_of (kindle_dir "/kindle");
     env := no_env;
     config_file := Some (stored "/kindle" "auto" 1000);
     config_writable := true;
     clock := 2000 |}.

Definition kindle_files : KindleCacheFiles :=
  {| xmlPath := JS.lit "/kindle/KindleSyncMetadataCache.xml";
     dbPath := JS.lit "/kindle/db/synced_collections.db" |}.

Definition kindle_config : PathConfiguration :=
  {| kindleCachePath := JS.lit "/kindle";
     lastValidated := 1000;
     cfg_source := SAuto |}.

(** A host with a persisted manual resolution and a standard directory
    under the user profile. *)
Definition two_dirs_host : World :=
  {| fs := fs_of (kindle_dir "/manual"
                  ++ kindle_dir "/home/u/AppData/Local/Amazon/Kindle/Cache");
     env := {| KINDLE_XML_PATH := None; KINDLE_DB_PATH := None;
               KINDLE_CACHE_PATH := None;
               USERPROFILE := Some (JS.lit "/home/u");
               LOCALAPPDATA := None |};
     config_file := Some (stored "/manual" "manual" 1000);
     config_writable := true;
     clock := 2000 |}.

Definition manual_files : KindleCacheFiles :=
  {| xmlPath := JS.lit "/manual/KindleSyncMetadataCache.xml";
     dbPath := JS.lit "/manual/db/synced_collections.db" |}.

Definition manual_config : PathConfiguration :=
  {| kindleCachePath := JS.lit "/manual";
     lastValidated := 1000;
     cfg_source := SManual |}.

(** A host whose two overrides name existing but empty files, with a
    persisted manual resolution. *)
Definition empty_overrides_host : World :=
  {| fs := fs_of (kindle_dir "/manual"
                  ++ [ (JS.lit "/o/meta.xml", file_entry 0);
                       (JS.lit "/o/coll.db", file_entry 0) ]);
     env := {| KINDLE_XML_PATH := Some (JS.lit "/o/meta.xml");
               KINDLE_DB_PATH := Some (JS.lit "/o/coll.db");
               KINDLE_CACHE_PATH := None;
               USERPROFILE := None;
               LOCALAPPDATA := None |};
     config_file := Some (stored "/manual" "manual" 1000);
     config_writable := true;
     clock := 2000 |}.

(** Both overrides are supplied and name usable files. *)
Definition overrides_usable (P : PathLib) (w : World) : Prop :=
  exists x d,
    KINDLE_XML_PATH (env w) = Some x /\ KINDLE_DB_PATH (env w) = Some d /\
    JS.truthy x = true /\ JS.truthy d = true /\
    usable_file w (resolve P x) /\ usable_file w (resolve P d).

(** The priority as the specification words it, for a call with the given
    flag: usable overrides win; otherwise a valid persisted resolution is
    used. *)
Definition priority_as_specified (P : PathLib) (forceUpdate : bool)
  (w : World) : Prop :=
  (forall x d,
      KINDLE_XML_PATH (env w) = Some x -> KINDLE_DB_PATH (env w) = Some d ->
      JS.truthy x = true -> JS.truthy d = true ->
      usable_file w (resolve P x) -> usable_file w (resolve P d) ->
      paths (fst (detectKindlePaths P forceUpdate w)) =
      Some {| xmlPath := resolve P x; dbPath := resolve P d |})
  /\
  (~ overrides_usable P w ->
   forall config ps,
     getCurrentConfiguration w = Some config ->
     (clock w - lastValidated config <= CACHE_VALIDITY_MS)%Z ->
     validateKindlePath P w (kindleCachePath config) = Ok ps ->
     paths (fst (detectKindlePaths P forceUpdate w)) = Some ps).

(** A host with two usable overrides and a valid persisted resolution. *)
Definition overrides_host : World :=
  {| fs := fs_of (kindle_dir "/manual"
                  ++ [ (JS.lit "/o/meta.xml", file_entry 100);
                       (JS.lit "/o/coll.db", file_entry 200) ]);
     env := {| KINDLE_XML_PATH := Some (JS.lit "/o/meta.xml");
               KINDLE_DB_PATH := Some (JS.lit "/o/coll.db");
               KINDLE_CACHE_PATH := None;
               USERPROFILE := None;
               LOCALAPPDATA := None |};
     config_file := Some (stored "/manual" "manual" 1000);
     config_writable := true;
     clock := 2000 |}.

End PathSpec.


(** ** More JavaScript primitives *)
Module JSMore.

(** [s.endsWith(suffix)] *)
Definition endsWith (suffix s : jsstring) : bool :=
  JS.startsWith (rev suffix) (rev s).

(** The index [slice] starts or ends at, for an integral argument: a
    negative one counts from the end, and both are clamped to the array. *)
Definition slice_index (len : nat) (i : Z) : nat :=
  if (i <? 0)%Z then Z.to_nat (Z.max (Z.of_nat len + i) 0)
  else Z.to_nat (Z.min i (Z.of_nat len)).

(** [arr.slice(start, end)] for integral arguments. *)
Definition array_slice {A} (l : list A) (start end_ : Z) : list A :=
  let k := slice_index (length l) start in
  let final := slice_index (length l) end_ in
  take (final - k) (drop k l).

(** [new Set(...)] filled by [add] in the order of [l], as the array of
    its elements: the first occurrence of each string, in order. *)
Definition set_add (acc : list jsstring) (x : jsstring) : list jsstring :=
  if JS.arr_includes x acc then acc else acc ++ [x].

(** [x || fallback] for a string that may be undefined. *)
Definition or_else (x : option jsstring) (fallback : jsstring) : jsstring :=
  if JS.truthy_opt x then default [] x else fallback.

(** A value that the types declare as a string, when it is there (neither
    [null] nor [undefined]): a string, or something else (a number, an
    array, an object), on which [trim] is not a function. *)
Inductive MaybeString : Type :=
| IsString (s : jsstring)
| NotString.

(** [x?.trim()]; the outer [None] is the [TypeError] of calling [trim] on
    a value that has none. *)
Definition optional_trim (x : option MaybeString)
  : option (option jsstring) :=
  match x with
  | None => Some None
  | Some (IsString s) => Some (Some (JS.trim s))
  | Some NotString => None
  end.

(** A JavaScript number: [NaN], an infinity, or a finite value.  A finite
    double is a rational number; the negative zero is not told apart from
    zero, which the two operations below do not tell apart either. *)
Inductive JsNumber : Type :=
| NaN
| PosInfinity
| NegInfinity
| Finite (q : QArith_base.Q).

Definition of_int (z : Z) : JsNumber := Finite (QArith_base.inject_Z z).

(** [0 <= q] on the finite values. *)
Definition zero_le (q : QArith_base.Q) : bool :=
  QArith_base.Qle_bool (QArith_base.inject_Z 0) q.

(** [Math.max(0, x)]: [NaN] when [x] is [NaN]. *)
Definition math_max_0 (x : JsNumber) : JsNumber :=
  match x with
  | NaN => NaN
  | PosInfinity => PosInfinity
  | NegInfinity => of_int 0
  | Finite q => if zero_le q then Finite q else of_int 0
  end.

(** [x < 0]: false when [x] is [NaN]. *)
Definition less_than_0 (x : JsNumber) : bool :=
  match x with
  | NaN => false
  | PosInfinity => false
  | NegInfinity => true
  | Finite q => negb (zero_le q)
  end.

End JSMore.

(** ** utils/errors.ts *)
Module ErrorsUtil.

(** [InvalidAsinError]: status 400, code [INVALID_ASIN], the offending
    value in the details. *)
Inductive InvalidAsinError : Type :=
| mkInvalidAsinError (asin : jsstring).

(** The class of the local [ASIN_PATTERN = /^[A-Z0-9]{10}$/]. *)
Definition pattern_class (c : N) : bool :=
  ((65 <=? c) && (c <=? 90) || (48 <=? c) && (c <=? 57))%N.

(** [validateAsin] of utils/errors.ts: returns nothing or throws. *)
Definition validateAsin (asin : jsstring) : Result InvalidAsinError unit :=
  if negb (JS.truthy asin) then Throw (mkInvalidAsinError asin)
  else if negb (JS.test_anchored_rep pattern_class 10 asin)
       then Throw (mkInvalidAsinError asin)
       else Ok tt.

End ErrorsUtil.

(** ** services/kindleParser.ts: reading the file *)
Module KindleParserIO.
Import BookModel.

(** [MAX_FILE_SIZE = 10 * 1024 * 1024] *)
Definition MAX_FILE_SIZE : Z := (10 * 1024 * 1024)%Z.

Record ParseStatistics : Type := mkParseStats {
  totalBooks : nat;
  successCount : nat;
  errorCount : nat;
  fileSizeBytes : Z
}.

Section WithPlatform.

Variable P : PathDetector.PathLib.

(** [String.prototype.toLowerCase] *)
Variable toLowerCase : jsstring -> jsstring.

Variable date_is_valid : jsstring -> bool.

(** The outcome of [fs.readFile] followed by [parseXMLString] on the file
    at a path. *)
Variable read_and_parse :
  jsstring -> Result BookDataService.FileError KindleParser.KindleXMLStructure.

(** [EXPECTED_KINDLE_CACHE_DIR] as the constructor computes it from
    [USERPROFILE]. *)
Definition EXPECTED_KINDLE_CACHE_DIR (userProfile : jsstring) : jsstring :=
  PathDetector.resolve P
    (PathDetector.join P
       [userProfile; JS.lit "AppData"; JS.lit "Local"; JS.lit "Amazon";
        JS.lit "Kindle"; JS.lit "Cache"]).

(** [validateFilePath] *)
Definition validateFilePath (userProfile xmlPath : jsstring)
  : Result BookDataService.FileError unit :=
  let normalizedPath := PathDetector.resolve P xmlPath in
  if negb (JS.startsWith (EXPECTED_KINDLE_CACHE_DIR userProfile) normalizedPath)
  then Throw BookDataService.OutsideCacheDir
  else if negb (JSMore.endsWith (JS.lit ".xml") (toLowerCase normalizedPath))
       then Throw BookDataService.WrongExtension
       else Ok tt.

(** [validateFileAccess]: the size limit is tested before emptiness. *)
Definition validateFileAccess (w : PathDetector.World) (xmlPath : jsstring)
  : Result BookDataService.FileError PathDetector.FsEntry :=
  match PathDetector.fs w xmlPath with
  | None => Throw BookDataService.NotFound
  | Some stats =>
      match PathDetector.kind stats with
      | PathDetector.KFile =>
          if (MAX_FILE_SIZE <? PathDetector.size stats)%Z
          then Throw BookDataService.TooLarge
          else if (PathDetector.size stats =? 0)%Z
               then Throw BookDataService.EmptyFile
               else Ok stats
      | _ => Throw BookDataService.NotAFile
      end
  end.

(** The part of [parseXMLFile] up to and including [parseXMLString]. *)
Definition xml_phase (w : PathDetector.World) (userProfile xmlPath : jsstring)
  : Result BookDataService.FileError
      (KindleParser.KindleXMLStructure * PathDetector.FsEntry) :=
  match validateFilePath userProfile xmlPath with
  | Throw e => Throw e
  | Ok _ =>
      match validateFileAccess w xmlPath with
      | Throw e => Throw e
      | Ok stats =>
          match read_and_parse xmlPath with
          | Throw e => Throw e
          | Ok parsedXML => Ok (parsedXML, stats)
          end
      end
  end.

(** [parseXMLFile]; the processing time is left out.  The [catch] block
    throws a new error whose message is [PARSE_ERROR], a colon and the
    message of the error it caught; the error is given here by that
    cause. *)
Definition parseXMLFile (w : PathDetector.World) (userProfile xmlPath : jsstring)
  : Result BookDataService.FileError (list BookMetadata * ParseStatistics) :=
  match xml_phase w userProfile xmlPath with
  | Throw e => Throw e
  | Ok (parsedXML, stats) =>
      let books := KindleParser.extractBookMetadata date_is_valid parsedXML in
      Ok (books,
          {| totalBooks := length books;
             successCount := length books;
             errorCount := 0;
             fileSizeBytes := PathDetector.size stats |})
  end.

End WithPlatform.

End KindleParserIO.

(** ** services/collectionParser.ts: reading the database *)
Module CollectionDb.
Import BookModel.

(** [MAX_FILE_SIZE = 50 * 1024 * 1024] *)
Definition MAX_FILE_SIZE : Z := (50 * 1024 * 1024)%Z.

Definition CHUNK_SIZE : nat := 100.

(** ['名称未設定'] *)
Definition UNNAMED : jsstring :=
  [21517%N; 31216%N; 26410%N; 35373%N; 23450%N].

(** A row of the collections query; a column that is [NULL] is [None]. *)
Record CollectionRow : Type := mkCollectionRow {
  row_id : option jsstring;
  row_name : option jsstring;
  row_lastUpdated : option jsstring
}.

(** A row of the associations query. *)
Record AssociationRow : Type := mkAssociationRow {
  row_collectionId : option jsstring;
  row_bookAsin : option jsstring
}.

(** What [db.all] hands to its callback: the rows or an error message. *)
Inductive Query (R : Type) : Type :=
| Rows (rows : list R)
| QueryError (message : jsstring).
Arguments Rows {R} rows.
Arguments QueryError {R} message.

(** The loop body of [fetchCollections]: a row without identifier gives
    no collection. *)
Definition collection_of_row (row : CollectionRow) : option Collection :=
  let c := {| coll_id := JSMore.or_else (row_id row) [];
              coll_name := JSMore.or_else (row_name row) UNNAMED;
              bookCount := 0;
              lastUpdated := row_lastUpdated row |} in
  if JS.truthy (coll_id c) then Some c else None.

Definition push_collection (acc : list Collection) (row : CollectionRow)
  : list Collection :=
  match collection_of_row row with
  | Some c => acc ++ [c]
  | None => acc
  end.

(** [fetchCollections]: [tables] is the error of the query on
    [sqlite_master] that is made when the table is missing, if it fails. *)
Definition fetchCollections (q : Query CollectionRow) (tables : option jsstring)
  : Result jsstring (list Collection) :=
  match q with
  | QueryError message =>
      if JS.includes (JS.lit "no such table") message then
        match tables with
        | Some altErr => Throw altErr
        | None => Ok []
        end
      else Throw message
  | Rows rows => Ok (fold_left push_collection rows [])
  end.

(** [isValidAsinFormat] *)
Definition isValidAsinFormat (asin : jsstring) : bool :=
  match validateAsin asin with
  | Ok b => b
  | Throw _ => false
  end.

(** The loop body of [fetchAssociations]. *)
Definition push_association (acc : list BookCollectionAssociation)
  (row : AssociationRow) : list BookCollectionAssociation :=
  match row_bookAsin row with
  | Some asin =>
      if JS.truthy asin && isValidAsinFormat asin then
        let association :=
          {| bookAsin := asin;
             collectionId := JSMore.or_else (row_collectionId row) [] |} in
        if JS.truthy (collectionId association) then acc ++ [association]
        else acc
      else acc
  | None => acc
  end.

(** The chunk loop of [fetchAssociations]. *)
Fixpoint association_loop (fuel i : nat) (rowsToProcess : list AssociationRow)
  (associations : list BookCollectionAssociation)
  : list BookCollectionAssociation :=
  match fuel with
  | O => associations
  | S f =>
      if i <? length rowsToProcess then
        association_loop f (i + CHUNK_SIZE) rowsToProcess
          (fold_left push_association
             (KindleParser.slice i (i + CHUNK_SIZE) rowsToProcess)
             associations)
      else associations
  end.

(** [fetchAssociations] *)
Definition fetchAssociations (q : Query AssociationRow)
  : Result jsstring (list BookCollectionAssociation) :=
  match q with
  | QueryError message =>
      if JS.includes (JS.lit "no such table") message then Ok []
      else Throw message
  | Rows rows => Ok (association_loop (length rows) 0 rows [])
  end.

Inductive DbFailure : Type :=
| WrongExtension          (* 'SQLiteデータベースファイルのみ処理可能です' *)
| SecurityError           (* KINDLE_ERRORS.SECURITY_ERROR *)
| FilesNotFound           (* KINDLE_ERRORS.FILES_NOT_FOUND *)
| NotAFile
| TooLarge
| EmptyFile
| DbLocked                (* KINDLE_ERRORS.DB_LOCKED *)
| DbInvalid               (* KINDLE_ERRORS.DB_INVALID *)
| OtherError (message : jsstring).

(** What the database reports during one call of [parseCollectionDB]: the
    error of the open, of each query and of the close, if any. *)
Record DbSession : Type := mkSession {
  connect_error : option jsstring;
  collections_query : Query CollectionRow;
  tables_error : option jsstring;
  associations_query : Query AssociationRow;
  close_error : option jsstring
}.

Record SQLiteParseStatistics : Type := mkDbStats {
  totalCollections : nat;
  totalAssociations : nat;
  db_errorCount : nat;
  db_fileSizeBytes : Z
}.

Record CollectionParseResult : Type := mkParseResult {
  cp_collections : list Collection;
  cp_associations : list BookCollectionAssociation;
  cp_statistics : SQLiteParseStatistics
}.

(** [connectDatabase]: the classification of the open error. *)
Definition connectDatabase (s : DbSession) : Result DbFailure unit :=
  match connect_error s with
  | Some message =>
      if JS.includes (JS.lit "locked") message then Throw DbLocked
      else if JS.includes (JS.lit "not a database") message
           then Throw DbInvalid
           else Throw (OtherError message)
  | None => Ok tt
  end.

(** [validateFileAccess] *)
Definition validateFileAccess (w : PathDetector.World) (dbPath : jsstring)
  : Result DbFailure PathDetector.FsEntry :=
  match PathDetector.fs w dbPath with
  | None => Throw FilesNotFound
  | Some stats =>
      match PathDetector.kind stats with
      | PathDetector.KFile =>
          if (MAX_FILE_SIZE <? PathDetector.size stats)%Z then Throw TooLarge
          else if (PathDetector.size stats =? 0)%Z then Throw EmptyFile
          else Ok stats
      | _ => Throw NotAFile
      end
  end.

Section WithPlatform.

Variable P : PathDetector.PathLib.

(** [path.normalize] *)
Variable normalize : jsstring -> jsstring.

(** [String.prototype.toLowerCase] *)
Variable toLowerCase : jsstring -> jsstring.

(** [EXPECTED_KINDLE_CACHE_DIR] as the constructor computes it. *)
Definition EXPECTED_KINDLE_CACHE_DIR (userProfile : jsstring) : jsstring :=
  PathDetector.join P
    [userProfile; JS.lit "AppData"; JS.lit "Local"; JS.lit "Amazon";
     JS.lit "Kindle"; JS.lit "Cache"].

(** [validateFilePath]: the extension first, then the directory. *)
Definition validateFilePath (userProfile dbPath : jsstring)
  : Result DbFailure unit :=
  if negb (JSMore.endsWith (JS.lit ".db") (toLowerCase dbPath))
  then Throw WrongExtension
  else
    let normalizedPath := toLowerCase (normalize dbPath) in
    let expectedDir := toLowerCase (EXPECTED_KINDLE_CACHE_DIR userProfile) in
    if negb (JS.startsWith expectedDir normalizedPath) then Throw SecurityError
    else Ok tt.

(** The body of the inner [try]: the two reads and the statistics. *)
Definition read_all (s : DbSession) (stats : PathDetector.FsEntry)
  : Result DbFailure CollectionParseResult :=
  match fetchCollections (collections_query s) (tables_error s) with
  | Throw message => Throw (OtherError message)
  | Ok collections =>
      match fetchAssociations (associations_query s) with
      | Throw message => Throw (OtherError message)
      | Ok associations =>
          Ok {| cp_collections := collections;
                cp_associations := associations;
                cp_statistics :=
                  {| totalCollections := length collections;
                     totalAssociations := length associations;
                     db_errorCount := 0;
                     db_fileSizeBytes := PathDetector.size stats |} |}
      end
  end.

(** [parseCollectionDB]: once the database is open, the [finally] block
    closes it, and a failing close replaces the outcome.  The outer
    [catch] throws a new error whose message is [PARSE_ERROR], a colon
    and the message of the error it caught; the error is given here by
    that cause. *)
Definition parseCollectionDB (w : PathDetector.World) (s : DbSession)
  (userProfile dbPath : jsstring) : Result DbFailure CollectionParseResult :=
  match validateFilePath userProfile dbPath with
  | Throw e => Throw e
  | Ok _ =>
      match validateFileAccess w dbPath with
      | Throw e => Throw e
      | Ok stats =>
          match connectDatabase s with
          | Throw e => Throw e
          | Ok _ =>
              match close_error s with
              | Some message => Throw (OtherError message)
              | None => read_all s stats
              end
          end
      end
  end.

End WithPlatform.

End CollectionDb.

(** ** services/bookDataService.ts: the query by identifier *)
Module BookDataQueries.
Import BookModel BookDataService.

Section WithDate.

Variable date_is_valid : jsstring -> bool.

(** [getBookByASIN]: the first book with the identifier, [null] when
    there is none or when the integration throws. *)
Definition getBookByASIN (io : PhaseOutcomes) (a : jsstring) : option Book :=
  match integrateAllBookData date_is_valid io with
  | Ok result => List.find (fun b => JS.eqb (asin b) a) (books result)
  | Throw _ => None
  end.

End WithDate.

End BookDataQueries.

(** ** services/bookService.ts: search, sort and pages *)
Module BookQueries.
Import BookModel BookService.

Record BookSearchParams : Type := mkParams {
  search : option jsstring;
  collection : option jsstring;
  sort : option jsstring;
  limit : option Z;
  offset : option Z
}.

Record BookSearchResult : Type := mkSearchResult {
  sr_books : list Book;
  totalCount : nat;
  hasMore : bool
}.

(** The error [getBooks] throws: the message of the cause behind a fixed
    prefix. *)
Inductive GetBooksError : Type :=
| SearchFailed (cause : GetAllError).

(** The replacement callback of [hiraganaToKatakana] on the matches of
    [/[ぁ-ゖ]/g]. *)
Definition hira_to_kata (c : N) : N :=
  if ((12353 <=? c) && (c <=? 12438))%N then (c + 96)%N else c.

(** The replacement callback of [katakanaToHiragana] on the matches of
    [/[ァ-ヶ]/g]. *)
Definition kata_to_hira (c : N) : N :=
  if ((12449 <=? c) && (c <=? 12534))%N then (c - 96)%N else c.

(** [hiraganaToKatakana] *)
Definition hiraganaToKatakana (str : jsstring) : jsstring :=
  map hira_to_kata str.

(** [katakanaToHiragana] *)
Definition katakanaToHiragana (str : jsstring) : jsstring :=
  map kata_to_hira str.

(** [params.limit || 1000] and [params.offset || 0]: zero and a missing
    number give the default. *)
Definition number_or (x : option Z) (fallback : Z) : Z :=
  match x with
  | Some v => if (v =? 0)%Z then fallback else v
  | None => fallback
  end.

(** The page of [getBooks] and its [hasMore]. *)
Definition paginate (filteredBooks : list Book) (params : BookSearchParams)
  : list Book * bool :=
  let totalCount := length filteredBooks in
  let offset := number_or (offset params) 0 in
  let limit := number_or (limit params) 1000 in
  (JSMore.array_slice filteredBooks offset (offset + limit),
   (offset + limit <? Z.of_nat totalCount)%Z).

Section WithPlatform.

(** [String.prototype.toLowerCase] *)
Variable toLowerCase : jsstring -> jsstring.

(** The array after [books.sort((a, b) => a.title.localeCompare(b.title,
    'ja'))], or after the sort with the arguments exchanged when
    [descending] is set. *)
Variable sort_by_title : bool -> list Book -> list Book.

(** The array after [names.sort((a, b) => a.localeCompare(b, 'ja'))]. *)
Variable sort_names : list jsstring -> list jsstring.

Variable pipeline :
  nat -> Result BookDataService.IntegrationError
           BookDataService.BookDataIntegrationResult.

(** The callback of the title filter. *)
Definition title_matches (searchTerm : jsstring) (book : Book) : bool :=
  let searchLower := toLowerCase searchTerm in
  let searchKatakana := hiraganaToKatakana searchLower in
  let searchHiragana := katakanaToHiragana searchLower in
  let titleLower := toLowerCase (title book) in
  JS.includes searchLower titleLower
  || JS.includes searchKatakana titleLower
  || JS.includes searchHiragana titleLower.

(** The two filters of [getBooks]; an empty parameter filters nothing. *)
Definition apply_filters (params : BookSearchParams) (allBooks : list Book)
  : list Book :=
  let filtered1 :=
    match search params with
    | Some term =>
        if JS.truthy term then List.filter (title_matches term) allBooks
        else allBooks
    | None => allBooks
    end in
  match collection params with
  | Some name =>
      if JS.truthy name
      then List.filter (fun book => JS.arr_includes name (collections book))
             filtered1
      else filtered1
  | None => filtered1
  end.

(** [sortBooks]: every sort type but [title_desc] sorts ascending. *)
Definition sortBooks (books : list Book) (sortType : jsstring) : list Book :=
  if JS.eqb sortType (JS.lit "title_asc") then sort_by_title false books
  else if JS.eqb sortType (JS.lit "title_desc") then sort_by_title true books
  else sort_by_title false books.

(** [getBooks], called when [Date.now()] is [now]. *)
Definition getBooks (params : BookSearchParams) (now : Z) (st : State)
  : Result GetBooksError BookSearchResult * State :=
  match getAllBooks pipeline now st with
  | (Throw e, st') => (Throw (SearchFailed e), st')
  | (Ok allBooks, st') =>
      let filteredBooks :=
        sortBooks (apply_filters params (ref_books allBooks))
          (JSMore.or_else (sort params) (JS.lit "title_asc")) in
      let '(page, more) := paginate filteredBooks params in
      (Ok {| sr_books := page;
             totalCount := length filteredBooks;
             hasMore := more |}, st')
  end.

(** [getCollections] *)
Definition getCollections (now : Z) (st : State)
  : Result GetAllError (list jsstring) * State :=
  match getAllBooks pipeline now st with
  | (Throw e, st') => (Throw e, st')
  | (Ok books, st') =>
      let collectionSet :=
        fold_left
          (fun acc book => fold_left JSMore.set_add (collections book) acc)
          (ref_books books) [] in
      (Ok (sort_names collectionSet), st')
  end.

End WithPlatform.

End BookQueries.

(** ** routes/books.ts *)
Module BooksRoute.
Import BookModel BookService BookQueries.

(** What [parseInt(value, 10)] gave for a query parameter: the parameter
    may be absent, and the parse may give [NaN] ([None]). *)
Inductive QueryNumber : Type :=
| Absent
| Parsed (value : option Z).

Record Query : Type := mkQuery {
  q_search : option jsstring;
  q_collection : option jsstring;
  q_sort : option jsstring;
  q_limit : QueryNumber;
  q_offset : QueryNumber
}.

(** The number [parseInt] returns, the default string standing in for an
    absent parameter. *)
Definition parsed_or (q : QueryNumber) (default_value : Z) : option Z :=
  match q with
  | Absent => Some default_value
  | Parsed v => v
  end.

(** [Math.min(Math.max(1, parseInt(limit, 10)), 1000)]; [NaN] stays
    [NaN]. *)
Definition parsedLimit (q : Query) : option Z :=
  option_map (fun v => Z.min (Z.max 1 v) 1000) (parsed_or (q_limit q) 1000).

(** [Math.max(0, parseInt(offset, 10))] *)
Definition parsedOffset (q : Query) : option Z :=
  option_map (Z.max 0) (parsed_or (q_offset q) 0).

(** The parameters the handler passes to [getBooks]. *)
Definition params_of (q : Query) : BookSearchParams :=
  {| search := q_search q;
     collection := q_collection q;
     sort := Some (default (JS.lit "title_asc") (q_sort q));
     limit := parsedLimit q;
     offset := parsedOffset q |}.

Inductive Response : Type :=
| Json200 (books : list Book) (totalCount : nat) (hasMore : bool)
| Json500 (cause : GetBooksError).

Section WithPlatform.

Variable toLowerCase : jsstring -> jsstring.
Variable sort_by_title : bool -> list Book -> list Book.
Variable pipeline :
  nat -> Result BookDataService.IntegrationError
           BookDataService.BookDataIntegrationResult.

(** The handler of [GET /api/books]. *)
Definition get_books (q : Query) (now : Z) (st : State) : Response * State :=
  match getBooks toLowerCase sort_by_title pipeline (params_of q) now st with
  | (Ok result, st') =>
      (Json200 (sr_books result) (totalCount result) (hasMore result), st')
  | (Throw e, st') => (Json500 e, st')
  end.

End WithPlatform.

End BooksRoute.

(** ** models/book.ts and the collection path, on values as they arrive

    The TypeScript types of a collection say [bookCount: number] and
    [lastUpdated?: string].  At run time the count can be any number,
    [NaN] included, and the timestamp is whatever the [last_modified]
    column of a row holds: the rows of [db.all] are [any[]], and an
    INTEGER column gives a number.  This module gives
    [createSafeCollection], [isValidCollection] and the way of the
    collections from the rows to the result on such values; on values of
    the declared types they are the functions of [BookModel],
    [CollectionDb] and [BookDataService]. *)
Module RawCollections.
Import BookModel.
Import JSMore.

(** [Partial<Collection>] as it reaches [createSafeCollection]:
    [rp_bookCount] is [None] when [typeof data.bookCount] is not
    ['number'], [rp_lastUpdated] is [None] when it is [null] or
    [undefined]. *)
Record RawPartialCollection : Type := mkRawPartial {
  rp_id : option jsstring;
  rp_name : option jsstring;
  rp_bookCount : option JsNumber;
  rp_lastUpdated : option MaybeString
}.

(** The object [createSafeCollection] returns. *)
Record SafeCollection : Type := mkSafe {
  safe_id : jsstring;
  safe_name : jsstring;
  safe_bookCount : JsNumber;
  safe_lastUpdated : option jsstring
}.

(** What [createSafeCollection] throws: its own [BookValidationError], or
    the [TypeError] of [trim]. *)
Inductive SafeError : Type :=
| Rejected (e : BookValidationError)
| TrimIsNotAFunction.

(** [createSafeCollection] *)
Definition createSafeCollection (data : RawPartialCollection)
  : Result SafeError SafeCollection :=
  if negb (JS.truthy_opt (rp_id data))
  then Throw (Rejected (RequiredField FId))
  else if negb (JS.truthy_opt (rp_name data))
  then Throw (Rejected (RequiredField FName))
  else
    let bookCount := default (of_int 0) (rp_bookCount data) in
    match optional_trim (rp_lastUpdated data) with
    | None => Throw TrimIsNotAFunction
    | Some lastUpdated =>
        Ok {| safe_id := JS.trim (default [] (rp_id data));
              safe_name := JS.trim (default [] (rp_name data));
              safe_bookCount := math_max_0 bookCount;
              safe_lastUpdated := lastUpdated |}
    end.

(** [isValidCollection] on an object [createSafeCollection] returned. *)
Definition isValidCollection (c : SafeCollection) : bool :=
  if negb (JS.truthy (safe_id c)) then false
  else if negb (JS.truthy (safe_name c)) then false
  else if less_than_0 (safe_bookCount c) then false
  else true.

(** A row of the collections query.  [collection_uuid] and
    [collection_name] are text or [NULL]; [last_modified] is whatever the
    column holds, and it is passed on as it is. *)
Record RawCollectionRow : Type := mkRawRow {
  raw_row_id : option jsstring;
  raw_row_name : option jsstring;
  raw_row_lastUpdated : option MaybeString
}.

(** The [KindleCollection] that [fetchCollections] builds from a row. *)
Record ReadCollection : Type := mkRead {
  read_id : jsstring;
  read_name : jsstring;
  read_bookCount : Z;
  read_lastUpdated : option MaybeString
}.

(** The loop body of [fetchCollections]. *)
Definition collection_of_row (row : RawCollectionRow)
  : option ReadCollection :=
  let c := {| read_id := or_else (raw_row_id row) [];
              read_name := or_else (raw_row_name row) CollectionDb.UNNAMED;
              read_bookCount := 0;
              read_lastUpdated := raw_row_lastUpdated row |} in
  if JS.truthy (read_id c) then Some c else None.

Definition push_collection (acc : list ReadCollection)
  (row : RawCollectionRow) : list ReadCollection :=
  match collection_of_row row with
  | Some c => acc ++ [c]
  | None => acc
  end.

(** The rows case of [fetchCollections]. *)
Definition collections_of_rows (rows : list RawCollectionRow)
  : list ReadCollection :=
  fold_left push_collection rows [].

(** [updateBookCounts] *)
Definition updateBookCounts (collections : list ReadCollection)
  (associations : list BookCollectionAssociation) : list ReadCollection :=
  let bookCountMap := KindleCollectionParser.bookCountMap_of associations in
  map (fun c =>
         {| read_id := read_id c;
            read_name := read_name c;
            read_bookCount := default 0%Z (bookCountMap !! read_id c);
            read_lastUpdated := read_lastUpdated c |})
      collections.

(** The second loop of [mergeBookData]: whatever [createSafeCollection]
    throws is caught and logged, and the collection is skipped. *)
Definition convert_collections (cs : list ReadCollection)
  : list SafeCollection :=
  fold_left
    (fun acc c =>
       match createSafeCollection
               {| rp_id := Some (read_id c);
                  rp_name := Some (read_name c);
                  rp_bookCount := Some (of_int (read_bookCount c));
                  rp_lastUpdated := read_lastUpdated c |} with
       | Ok c' => acc ++ [c']
       | Throw _ => acc
       end)
    cs [].

(** The collection part of [validateIntegratedData]. *)
Definition validate_collections (cs : list SafeCollection)
  : list SafeCollection * list BookDataService.Diagnostic :=
  (List.filter isValidCollection cs,
   map (fun c => BookDataService.InvalidCollectionData (safe_id c))
     (List.filter (fun c => negb (isValidCollection c)) cs)).

(** The way of the collections through [integrateAllBookData]: the
    counts, the conversion and the final validation. *)
Definition collections_phase (cs : list ReadCollection)
  (associations : list BookCollectionAssociation)
  : list SafeCollection * list BookDataService.Diagnostic :=
  validate_collections (convert_collections (updateBookCounts cs associations)).

(** Values of the declared types, as values that arrive. *)
Definition raw_partial (data : PartialCollection) : RawPartialCollection :=
  {| rp_id := pc_id data;
     rp_name := pc_name data;
     rp_bookCount := option_map of_int (pc_bookCount data);
     rp_lastUpdated := option_map IsString (pc_lastUpdated data) |}.

Definition safe_of (c : Collection) : SafeCollection :=
  {| safe_id := coll_id c;
     safe_name := coll_name c;
     safe_bookCount := of_int (bookCount c);
     safe_lastUpdated := lastUpdated c |}.

Definition read_of (c : Collection) : ReadCollection :=
  {| read_id := coll_id c;
     read_name := coll_name c;
     read_bookCount := bookCount c;
     read_lastUpdated := option_map IsString (lastUpdated c) |}.

Definition raw_row_of (row : CollectionDb.CollectionRow) : RawCollectionRow :=
  {| raw_row_id := CollectionDb.row_id row;
     raw_row_name := CollectionDb.row_name row;
     raw_row_lastUpdated :=
       option_map IsString (CollectionDb.row_lastUpdated row) |}.

End RawCollections.

(** ** services/kindleParser.ts, on elements as the XML parser delivers them

    The interface [MetadataElement] declares [ASIN], [publisher],
    [publication_date] and [purchase_date] as strings.  The parser is
    configured with [explicitArray: false] and [mergeAttrs: true]: a child
    that is repeated arrives as an array, and a child with attributes or
    children of its own as an object.  On such a value [trim] is not a
    function, the call throws inside the [try] of
    [extractSingleBookMetadata], and the element is skipped. *)
Module KindleParserRaw.
Import BookModel KindleParser.
Import JSMore.

(** The [title] child: a string or an object, as [TextNode] has them, or an
    array (a repeated [title]), which has no inline text and whose
    [toString] joins its elements with commas. *)
Inductive RawTitle : Type :=
| TitleNode (node : TextNode)
| TitleArray (joined : jsstring).

(** One [meta_data] element; a missing child is [None].  The authors and
    the origins have the shapes the extractor tells apart; the two content
    types are passed on as they are. *)
Record RawElement : Type := mkRawElement {
  raw_ASIN : option MaybeString;
  raw_title : option RawTitle;
  raw_authors : option AuthorsNode;
  raw_publisher : option MaybeString;
  raw_publication_date : option MaybeString;
  raw_purchase_date : option MaybeString;
  raw_cde_contenttype : option MaybeString;
  raw_content_type : option MaybeString;
  raw_origins : option OriginsNode
}.

(** The record the extractor returns for an element. *)
Record RawBookMetadata : Type := mkRawBookMetadata {
  rb_asin : jsstring;
  rb_title : jsstring;
  rb_titlePronunciation : option jsstring;
  rb_author : jsstring;
  rb_authorPronunciation : option jsstring;
  rb_publisher : option jsstring;
  rb_publicationDate : option jsstring;
  rb_purchaseDate : option jsstring;
  rb_contentType : option MaybeString;
  rb_mimeType : option MaybeString;
  rb_originType : option BookOriginType
}.

(** The string a child holds, if it holds one. *)
Definition string_of (x : option MaybeString) : option jsstring :=
  match x with
  | Some (IsString s) => Some s
  | _ => None
  end.

(** The children that the extractors of authors and origins read. *)
Definition shaped_part (m : RawElement) : MetadataElement :=
  {| ASIN := string_of (raw_ASIN m);
     e_title := match raw_title m with
                | Some (TitleNode node) => Some node
                | _ => None
                end;
     e_authors := raw_authors m;
     e_publisher := string_of (raw_publisher m);
     publication_date := string_of (raw_publication_date m);
     purchase_date := string_of (raw_purchase_date m);
     cde_contenttype := string_of (raw_cde_contenttype m);
     content_type := string_of (raw_content_type m);
     e_origins := raw_origins m |}.

(** [extractTitle] *)
Definition extractTitle (m : RawElement)
  : Result ExtractError (jsstring * option jsstring) :=
  match raw_title m with
  | Some (TitleNode (TextStr s)) => Ok (JS.trim s, None)
  | Some (TitleNode (TextObj text pron)) =>
      Ok (JS.trim (node_text text), option_map JS.trim pron)
  | Some (TitleArray joined) => Ok (JS.trim joined, None)
  | None => Throw BadTitle
  end.

Section WithDate.

Variable date_is_valid : jsstring -> bool.

(** [extractDate]; the outer [None] is the [TypeError] of [trim]. *)
Definition extractDate (dateString : option MaybeString)
  : option (option jsstring) :=
  match dateString with
  | None => Some None
  | Some (IsString d) => Some (KindleParser.extractDate date_is_valid (Some d))
  | Some NotString => None
  end.

(** [extractSingleBookMetadata]: [None] is the [null] returned when any
    step throws. *)
Definition extractSingleBookMetadata (m : RawElement)
  : option RawBookMetadata :=
  match raw_ASIN m with
  | None => None
  | Some NotString => None
  | Some (IsString asin_text) =>
      if negb (JS.truthy asin_text) then None
      else
        let a := JS.trim asin_text in
        match validateAsin a with
        | Throw _ => None
        | Ok _ =>
            match extractTitle m with
            | Throw _ => None
            | Ok (t, tp) =>
                if negb (JS.truthy t) then None
                else
                  let '(au, ap) := extractAuthor (shaped_part m) in
                  match optional_trim (raw_publisher m),
                        extractDate (raw_publication_date m),
                        extractDate (raw_purchase_date m) with
                  | Some publisher, Some publicationDate, Some purchaseDate =>
                      Some {| rb_asin := a;
                              rb_title := t;
                              rb_titlePronunciation := tp;
                              rb_author :=
                                if JS.truthy_opt au then default [] au
                                else UNKNOWN_AUTHOR;
                              rb_authorPronunciation := ap;
                              rb_publisher := publisher;
                              rb_publicationDate := publicationDate;
                              rb_purchaseDate := purchaseDate;
                              rb_contentType := raw_cde_contenttype m;
                              rb_mimeType := raw_content_type m;
                              rb_originType :=
                                extractOriginType (shaped_part m) |}
                  | _, _, _ => None
                  end
            end
        end
  end.

End WithDate.



End KindleParserRaw.

(** ** Vocabulary and concrete data for the further properties *)
Module ExtraSpec.
Import BookModel.

(** A book handed back to [createSafeBook]: every field it has, defined. *)
Definition as_partial (b : Book) : PartialBook :=
  {| p_asin := Some (asin b);
     p_title := Some (title b);
     p_author := Some (author b);
     p_collections := Some (collections b);
     p_tags := tags b;
     p_coverUrl := coverUrl b;
     p_publisher := publisher b;
     p_publicationDate := publicationDate b;
     p_purchaseDate := purchaseDate b |}.

(** Input for [createSafeBook] with padding around every field. *)
Definition padded_book : PartialBook :=
  {| p_asin := Some (JS.lit "B000000001");
     p_title := Some (JS.lit "  Dune ");
     p_author := Some (JS.lit " Frank Herbert");
     p_collections := Some [JS.lit "Novels"; JS.lit "  "; JS.lit "Classics"];
     p_tags := Some [JS.lit "sf"; []];
     p_coverUrl := Some (JS.lit " http://covers/dune.png ");
     p_publisher := Some (JS.lit "Ace ");
     p_publicationDate := None;
     p_purchaseDate := Some (JS.lit "2020-01-02") |}.

(** The text of a title or author node: the string itself, or the inline
    text of the object, or what [toString] gives when it has none. *)
Definition node_string (node : KindleParser.TextNode) : jsstring :=
  match node with
  | KindleParser.TextStr s => s
  | KindleParser.TextObj text _ => KindleParser.node_text text
  end.

(** A date the extractor may pass on: trimmed, not empty, and accepted by
    the date parser. *)
Definition clean_date (date_is_valid : jsstring -> bool)
  (d : option jsstring) : Prop :=
  forall dt, d = Some dt ->
    dt <> [] /\ JS.trim dt = dt /\ date_is_valid dt = true.

(** A date parser for the examples: four digits, a dash, and so on are not
    checked; it accepts the strings that start with a digit. *)
Definition starts_with_digit (s : jsstring) : bool :=
  match s with
  | c :: _ => ((48 <=? c) && (c <=? 57))%N
  | [] => false
  end.

(** An element with every optional child, a padded ASIN, an unparsable
    purchase date and an object title. *)
Definition rich_element : KindleParser.MetadataElement :=
  {| KindleParser.ASIN := Some (JS.lit " B00ABCDEF1 ");
     KindleParser.e_title :=
       Some (KindleParser.TextObj (Some (JS.lit " Kokoro "))
               (Some (JS.lit "kokoro")));
     KindleParser.e_authors :=
       Some (KindleParser.AuthorMany
               [KindleParser.TextStr (JS.lit " Natsume Soseki ");
                KindleParser.TextStr (JS.lit "   ");
                KindleParser.TextObj (Some (JS.lit "Edwin McClellan")) None]);
     KindleParser.e_publisher := Some (JS.lit " Regnery ");
     KindleParser.publication_date := Some (JS.lit " 1957-01-01 ");
     KindleParser.purchase_date := Some (JS.lit "yesterday");
     KindleParser.cde_contenttype := Some (JS.lit "EBOK");
     KindleParser.content_type := None;
     KindleParser.e_origins :=
       Some (KindleParser.OriginMany
               [Some (JS.lit "KindleUnlimited"); Some (JS.lit "Purchase")]) |}.

(** The lower case of the ASCII letters; the other code units are kept. *)
Definition ascii_lower (s : jsstring) : jsstring :=
  map (fun c => if ((65 <=? c) && (c <=? 90))%N then (c + 32)%N else c) s.

(** The phases of a run on a host: the XML file goes through the checks of
    [parseXMLFile] and is then read; the outcome of the database phase is
    given. *)
Definition host_phases (P : PathDetector.PathLib)
  (toLowerCase : jsstring -> jsstring)
  (read_and_parse :
     jsstring -> Result BookDataService.FileError
                   KindleParser.KindleXMLStructure)
  (w : PathDetector.World) (userProfile : jsstring)
  (detection : PathDetector.PathDetectionResult)
  (db : jsstring -> Result BookDataService.FileError
                      BookDataService.SqliteResult)
  : BookDataService.PhaseOutcomes :=
  {| BookDataService.pathResult := detection;
     BookDataService.xmlDocument :=
       fun xmlPath =>
         match KindleParserIO.xml_phase P toLowerCase read_and_parse
                 w userProfile xmlPath with
         | Ok (parsedXML, _) => Ok parsedXML
         | Throw e => Throw e
         end;
     BookDataService.sqliteResult := db |}.

Definition profile_cache : string :=
  "/home/u/AppData/Local/Amazon/Kindle/Cache".

Definition profile_files : PathDetector.KindleCacheFiles :=
  {| PathDetector.xmlPath :=
       JS.lit "/home/u/AppData/Local/Amazon/Kindle/Cache/KindleSyncMetadataCache.xml";
     PathDetector.dbPath :=
       JS.lit "/home/u/AppData/Local/Amazon/Kindle/Cache/db/synced_collections.db" |}.

Definition profile_detection : PathDetector.PathDetectionResult :=
  {| PathDetector.success := true;
     PathDetector.paths := Some profile_files;
     PathDetector.error := None;
     PathDetector.searchedPaths := [JS.lit profile_cache];
     PathDetector.source := PathDetector.SAuto |}.

(** A host whose metadata file has no bytes. *)
Definition empty_xml_host : PathDetector.World :=
  {| PathDetector.fs :=
       PathSpec.fs_of
         [ (JS.lit profile_cache, PathSpec.dir_entry);
           (PathDetector.xmlPath profile_files, PathSpec.file_entry 0);
           (PathDetector.dbPath profile_files, PathSpec.file_entry 8192) ];
     PathDetector.env := PathSpec.no_env;
     PathDetector.config_file := None;
     PathDetector.config_writable := true;
     PathDetector.clock := 5000 |}.

(** A document of two elements, one of them without ASIN. *)
Definition two_element_reader
  : jsstring -> Result BookDataService.FileError
                  KindleParser.KindleXMLStructure :=
  fun _ =>
    Ok {| KindleParser.meta_data :=
            Some (KindleParser.MetaMany
                    [PipelineRuns.dune; PipelineRuns.element_without_asin]) |}.

Definition any_database
  : jsstring -> Result BookDataService.FileError
                  BookDataService.SqliteResult :=
  fun _ => Ok MergeSpec.no_collections.

(** The sum of the book counts of a list of collections. *)
Definition sum_counts (cs : list BookModel.Collection) : Z :=
  fold_right Z.add 0%Z (map BookModel.bookCount cs).

(** The associations whose collection is one of [cs]. *)
Definition known_associations (cs : list BookModel.Collection)
  (associations : list BookModel.BookCollectionAssociation)
  : list BookModel.BookCollectionAssociation :=
  List.filter
    (fun a => bool_decide (BookModel.collectionId a ∈ map BookModel.coll_id cs))
    associations.

Definition profile_dir_host (dbSize : Z) : PathDetector.World :=
  {| PathDetector.fs :=
       PathSpec.fs_of
         [ (JS.lit profile_cache, PathSpec.dir_entry);
           (PathDetector.xmlPath profile_files, PathSpec.file_entry 2048);
           (PathDetector.dbPath profile_files, PathSpec.file_entry dbSize) ];
     PathDetector.env := PathSpec.no_env;
     PathDetector.config_file := None;
     PathDetector.config_writable := true;
     PathDetector.clock := 5000 |}.

(** A database in a directory beside the cache directory, whose name
    begins with [Cache]. *)
Definition sibling_db : string :=
  "/home/u/AppData/Local/Amazon/Kindle/CacheOfSomeoneElse/x.db".

Definition sibling_host : PathDetector.World :=
  {| PathDetector.fs :=
       PathSpec.fs_of
         [ (JS.lit profile_cache, PathSpec.dir_entry);
           (JS.lit sibling_db, PathSpec.file_entry 8192) ];
     PathDetector.env := PathSpec.no_env;
     PathDetector.config_file := None;
     PathDetector.config_writable := true;
     PathDetector.clock := 5000 |}.

(** A session on a database that has neither table. *)
Definition no_tables_session : CollectionDb.DbSession :=
  {| CollectionDb.connect_error := None;
     CollectionDb.collections_query :=
       CollectionDb.QueryError (JS.lit "SQLITE_ERROR: no such table: Collections");
     CollectionDb.tables_error := None;
     CollectionDb.associations_query :=
       CollectionDb.QueryError
         (JS.lit "SQLITE_ERROR: no such table: Collection_Item_Association");
     CollectionDb.close_error := None |}.

(** A session with two collection rows, one of them without name, and
    three association rows, one of them with a malformed identifier. *)
Definition small_session : CollectionDb.DbSession :=
  {| CollectionDb.connect_error := None;
     CollectionDb.collections_query :=
       CollectionDb.Rows
         [ CollectionDb.mkCollectionRow (Some (JS.lit "c-1"))
             (Some (JS.lit "Novels")) None;
           CollectionDb.mkCollectionRow None (Some (JS.lit "Lost")) None;
           CollectionDb.mkCollectionRow (Some (JS.lit "c-2")) None None ];
     CollectionDb.tables_error := None;
     CollectionDb.associations_query :=
       CollectionDb.Rows
         [ CollectionDb.mkAssociationRow (Some (JS.lit "c-1"))
             (Some (JS.lit "B000000001"));
           CollectionDb.mkAssociationRow (Some (JS.lit "c-1"))
             (Some (JS.lit "b000000002"));
           CollectionDb.mkAssociationRow (Some (JS.lit "c-2"))
             (Some (JS.lit "B000000003")) ];
     CollectionDb.close_error := None |}.

(** The same session when the close fails. *)
Definition failing_close_session : CollectionDb.DbSession :=
  {| CollectionDb.connect_error := None;
     CollectionDb.collections_query :=
       CollectionDb.collections_query small_session;
     CollectionDb.tables_error := None;
     CollectionDb.associations_query :=
       CollectionDb.associations_query small_session;
     CollectionDb.close_error := Some (JS.lit "SQLITE_BUSY") |}.

(** A collection of the database as the result shows it: identifier,
    name and timestamp trimmed, and the number of associations that name
    its identifier as the database has it. *)
Definition shown_collection
  (associations : list BookModel.BookCollectionAssociation)
  (c : BookModel.Collection) : BookModel.Collection :=
  {| BookModel.coll_id := JS.trim (BookModel.coll_id c);
     BookModel.coll_name := JS.trim (BookModel.coll_name c);
     BookModel.bookCount :=
       Z.of_nat (CollectionSpec.references (BookModel.coll_id c) associations);
     BookModel.lastUpdated := option_map JS.trim (BookModel.lastUpdated c) |}.

(** A collection whose identifier and name have a visible character. *)
Definition shows (c : BookModel.Collection) : bool :=
  JS.truthy (JS.trim (BookModel.coll_id c))
  && JS.truthy (JS.trim (BookModel.coll_name c)).

(** A collection that is neither shown nor skipped in silence: identifier
    and name are not empty, but one of them is white space only. *)
Definition blank_but_present (c : BookModel.Collection) : bool :=
  JS.truthy (BookModel.coll_id c) && JS.truthy (BookModel.coll_name c)
  && negb (shows c).

(** The collection that gives its name to an identifier: the last one
    that has it. *)
Definition naming_collection (cs : list BookModel.Collection) (i : jsstring)
  : option BookModel.Collection :=
  last (List.filter (fun c => bool_decide (BookModel.coll_id c = i)) cs).

(** A library in which one collection has no name and one has a blank
    name. *)
Definition odd_library : BookDataService.SqliteResult :=
  {| BookDataService.sq_collections :=
       [ {| BookModel.coll_id := JS.lit " c-1 ";
            BookModel.coll_name := JS.lit "Novels ";
            BookModel.bookCount := 9; BookModel.lastUpdated := None |};
         {| BookModel.coll_id := JS.lit "c-2"; BookModel.coll_name := [];
            BookModel.bookCount := 0; BookModel.lastUpdated := None |};
         {| BookModel.coll_id := JS.lit "c-3";
            BookModel.coll_name := JS.lit "  ";
            BookModel.bookCount := 0; BookModel.lastUpdated := None |} ];
     BookDataService.sq_associations :=
       [ {| BookModel.bookAsin := JS.lit "B000000001";
            BookModel.collectionId := JS.lit " c-1 " |};
         {| BookModel.bookAsin := JS.lit "B000000002";
            BookModel.collectionId := JS.lit "c-1" |} ] |}.

(** The host [dt] milliseconds later, with nothing else changed. *)
Definition later (dt : Z) (w : PathDetector.World) : PathDetector.World :=
  {| PathDetector.fs := PathDetector.fs w;
     PathDetector.env := PathDetector.env w;
     PathDetector.config_file := PathDetector.config_file w;
     PathDetector.config_writable := PathDetector.config_writable w;
     PathDetector.clock := (PathDetector.clock w + dt)%Z |}.

(** What every outcome of the detector looks like on the host [w]: apart
    from the configuration file the host is as before; a success carries
    two existing regular files and no error; a failure carries an error
    and no paths, and has written nothing. *)
Definition well_formed_outcome (w : PathDetector.World)
  (out : PathDetector.PathDetectionResult * PathDetector.World) : Prop :=
  PathDetector.fs (snd out) = PathDetector.fs w /\
  PathDetector.env (snd out) = PathDetector.env w /\
  PathDetector.clock (snd out) = PathDetector.clock w /\
  PathDetector.config_writable (snd out) = PathDetector.config_writable w /\
  (PathDetector.success (fst out) = true ->
   PathDetector.error (fst out) = None /\
   exists ps, PathDetector.paths (fst out) = Some ps /\
              PathSpec.regular_file w (PathDetector.xmlPath ps) /\
              PathSpec.regular_file w (PathDetector.dbPath ps)) /\
  (PathDetector.success (fst out) = false ->
   snd out = w /\ PathDetector.paths (fst out) = None /\
   is_Some (PathDetector.error (fst out))).

(** A host where the cache path of the environment is also the standard
    location, and where no directory exists. *)
Definition same_dir_host : PathDetector.World :=
  {| PathDetector.fs := PathSpec.fs_of [];
     PathDetector.env :=
       {| PathDetector.KINDLE_XML_PATH := None;
          PathDetector.KINDLE_DB_PATH := None;
          PathDetector.KINDLE_CACHE_PATH := Some (JS.lit profile_cache);
          PathDetector.USERPROFILE := Some (JS.lit "/home/u");
          PathDetector.LOCALAPPDATA := Some (JS.lit "/home/u/AppData/Local") |};
     PathDetector.config_file := None;
     PathDetector.config_writable := true;
     PathDetector.clock := 5000 |}.

(** A host whose persisted resolution is a little more than a day old. *)
Definition expired_host : PathDetector.World :=
  {| PathDetector.fs :=
       PathSpec.fs_of
         (PathSpec.kindle_dir "/manual"
          ++ PathSpec.kindle_dir "/home/u/AppData/Local/Amazon/Kindle/Cache");
     PathDetector.env :=
       {| PathDetector.KINDLE_XML_PATH := None;
          PathDetector.KINDLE_DB_PATH := None;
          PathDetector.KINDLE_CACHE_PATH := None;
          PathDetector.USERPROFILE := Some (JS.lit "/home/u");
          PathDetector.LOCALAPPDATA := None |};
     PathDetector.config_file := Some (PathSpec.stored "/manual" "manual" 1000);
     PathDetector.config_writable := true;
     PathDetector.clock := 86401001 |}.

(** A code unit outside the block of the katakana letters that
    [katakanaToHiragana] replaces. *)
Definition not_katakana (c : N) : Prop := ~ (12449 <= c <= 12534)%N.

(** A code unit outside the block of the hiragana letters that
    [hiraganaToKatakana] replaces. *)
Definition not_hiragana (c : N) : Prop := ~ (12353 <= c <= 12438)%N.

(** The limit and the offset [getBooks] works with. *)
Definition effective_limit (params : BookQueries.BookSearchParams) : Z :=
  BookQueries.number_or (BookQueries.limit params) 1000.

Definition effective_offset (params : BookQueries.BookSearchParams) : Z :=
  BookQueries.number_or (BookQueries.offset params) 0.

(** A sort that keeps the order it is given, for the examples. *)
Definition unsorted (descending : bool) (books : list BookModel.Book)
  : list BookModel.Book := books.

Definition unsorted_names (names : list jsstring) : list jsstring := names.

(** A request for the second page of one book, with a limit that is not a
    number in a second request. *)
Definition page_two : BooksRoute.Query :=
  {| BooksRoute.q_search := None;
     BooksRoute.q_collection := None;
     BooksRoute.q_sort := None;
     BooksRoute.q_limit := BooksRoute.Parsed (Some 1%Z);
     BooksRoute.q_offset := BooksRoute.Parsed (Some 1%Z) |}.

Definition novels_only : BookQueries.BookSearchParams :=
  {| BookQueries.search := None;
     BookQueries.collection := Some (JS.lit "Novels");
     BookQueries.sort := None;
     BookQueries.limit := None;
     BookQueries.offset := None |}.




(** A number that is non-negative, the positive infinity included. *)
Definition non_negative (x : JSMore.JsNumber) : Prop :=
  match x with
  | JSMore.NaN => False
  | JSMore.PosInfinity => True
  | JSMore.NegInfinity => False
  | JSMore.Finite q => QArith_base.Qle (QArith_base.inject_Z 0) q
  end.

(** A collection as it arrives, with a count that is not a number. *)
Definition nan_count : RawCollections.RawPartialCollection :=
  {| RawCollections.rp_id := Some (JS.lit " c-1 ");
     RawCollections.rp_name := Some (JS.lit "Novels");
     RawCollections.rp_bookCount := Some JSMore.NaN;
     RawCollections.rp_lastUpdated := None |}.

(** A collection as the reader builds it is shown in the result when
    its identifier and name have a visible character and its timestamp,
    if it has one, is a string. *)
Definition shows_raw (c : RawCollections.ReadCollection) : bool :=
  JS.truthy (JS.trim (RawCollections.read_id c))
  && JS.truthy (JS.trim (RawCollections.read_name c))
  && match RawCollections.read_lastUpdated c with
     | Some JSMore.NotString => false
     | _ => true
     end.

(** The collection as the result shows it. *)
Definition shown_raw
  (associations : list BookModel.BookCollectionAssociation)
  (c : RawCollections.ReadCollection) : RawCollections.SafeCollection :=
  {| RawCollections.safe_id := JS.trim (RawCollections.read_id c);
     RawCollections.safe_name := JS.trim (RawCollections.read_name c);
     RawCollections.safe_bookCount :=
       JSMore.of_int
         (Z.of_nat (CollectionSpec.references (RawCollections.read_id c)
                      associations));
     RawCollections.safe_lastUpdated :=
       match RawCollections.read_lastUpdated c with
       | Some (JSMore.IsString s) => Some (JS.trim s)
       | _ => None
       end |}.

(** A collection that the result reports: identifier and name are not
    empty and the timestamp is a string or absent, but identifier or name
    is white space only. *)
Definition reported_raw (c : RawCollections.ReadCollection) : bool :=
  JS.truthy (RawCollections.read_id c)
  && JS.truthy (RawCollections.read_name c)
  && match RawCollections.read_lastUpdated c with
     | Some JSMore.NotString => false
     | _ => true
     end
  && negb (JS.truthy (JS.trim (RawCollections.read_id c))
           && JS.truthy (JS.trim (RawCollections.read_name c))).

(** Three collections as the reader builds them: one with a text
    timestamp, one whose [last_modified] column is an INTEGER, and one
    with a blank name. *)
Definition stamped_collections : list RawCollections.ReadCollection :=
  [ {| RawCollections.read_id := JS.lit "c-1";
       RawCollections.read_name := JS.lit "Novels";
       RawCollections.read_bookCount := 0;
       RawCollections.read_lastUpdated :=
         Some (JSMore.IsString (JS.lit " 2024-01-01 ")) |};
    {| RawCollections.read_id := JS.lit "c-2";
       RawCollections.read_name := JS.lit "Classics";
       RawCollections.read_bookCount := 0;
       RawCollections.read_lastUpdated := Some JSMore.NotString |};
    {| RawCollections.read_id := JS.lit "c-3";
       RawCollections.read_name := JS.lit "  ";
       RawCollections.read_bookCount := 0;
       RawCollections.read_lastUpdated := None |} ].

(** A collection with padded identifier and a negative count. *)
Definition negative_count : BookModel.PartialCollection :=
  {| BookModel.pc_id := Some (JS.lit " c-1 ");
     BookModel.pc_name := Some (JS.lit "Novels");
     BookModel.pc_bookCount := Some (-3)%Z;
     BookModel.pc_lastUpdated := None |}.

End ExtraSpec.

(** ** Properties of the string primitives *)
Module JSFacts.
Import JS.

Lemma trimStart_idem s : trimStart (trimStart s) = trimStart s.
Proof.
  induction s as [|c r IH]; simpl; [done|].
  destruct (is_ws c) eqn:E; [done|]. simpl. by rewrite E.
Qed.

Lemma trimStart_snoc_keep l c :
  is_ws c = false -> trimStart (l ++ [c]) = trimStart l ++ [c].
Proof.
  intros Hc. induction l as [|d r IH]; simpl.
  - by rewrite Hc.
  - destruct (is_ws d); [exact IH | done].
Qed.

Lemma trimEnd_cons_keep c r :
  is_ws c = false -> trimEnd (c :: r) = c :: trimEnd r.
Proof.
  intros Hc. unfold trimEnd. simpl.
  rewrite trimStart_snoc_keep by exact Hc.
  by rewrite rev_app_distr.
Qed.

Lemma trimEnd_nil : trimEnd [] = [].
Proof. reflexivity. Qed.

Lemma trimEnd_idem s : trimEnd (trimEnd s) = trimEnd s.
Proof.
  unfold trimEnd. rewrite rev_involutive. by rewrite trimStart_idem.
Qed.

(** A string without leading white space keeps that property when its
    end is trimmed. *)
Lemma trimStart_trimEnd_fixed u :
  trimStart u = u -> trimStart (trimEnd u) = trimEnd u.
Proof.
  destruct u as [|c r]; [done|].
  simpl. destruct (is_ws c) eqn:E.
  - intros H. exfalso.
    assert (Hlen : length (trimStart r) <= length r).
    { clear. induction r as [|d r IH]; simpl; [lia|].
      destruct (is_ws d); simpl; lia. }
    rewrite H in Hlen. simpl in Hlen. lia.
  - intros _. rewrite trimEnd_cons_keep by exact E. simpl. by rewrite E.
Qed.

Lemma trim_idem s : trim (trim s) = trim s.
Proof.
  unfold trim.
  rewrite (trimStart_trimEnd_fixed (trimStart s)) by apply trimStart_idem.
  apply trimEnd_idem.
Qed.

Lemma trimStart_truthy s : truthy (trimStart s) = true -> truthy s = true.
Proof. by destruct s. Qed.

Lemma trim_truthy s : truthy (trim s) = true -> truthy s = true.
Proof.
  unfold trim, trimEnd. intros H. apply trimStart_truthy.
  destruct (trimStart s) as [|c r]; [done|done].
Qed.

Lemma truthy_nonempty s : truthy s = true <-> s <> [].
Proof. destruct s; simpl; split; intros; congruence. Qed.

Lemma arr_includes_spec x arr : arr_includes x arr = true <-> x ∈ arr.
Proof. unfold arr_includes. apply bool_decide_eq_true. Qed.

Lemma match_rep_length cls n s rest :
  match_rep cls n s = Some rest ->
  length s = n + length rest /\ Forall (fun c => cls c = true) (take n s).
Proof.
  revert s. induction n as [|k IH]; intros s; simpl.
  - intros [= ->]. split; [done | constructor].
  - destruct s as [|c r]; [done|].
    destruct (cls c) eqn:E; [|done].
    intros H. destruct (IH _ H) as [Hl Hf]. simpl. split; [lia|].
    by constructor.
Qed.

Lemma match_rep_complete cls n s :
  n <= length s -> Forall (fun c => cls c = true) (take n s) ->
  match_rep cls n s = Some (drop n s).
Proof.
  revert s. induction n as [|k IH]; intros s; simpl.
  - intros _ _. by rewrite drop_0.
  - destruct s as [|c r]; simpl; [lia|].
    intros Hl Hf. inversion Hf as [|? ? Hc Hr]; subst.
    rewrite Hc. apply IH; [lia | done].
Qed.

Lemma test_anchored_rep_ext cls1 cls2 :
  (forall c, cls1 c = cls2 c) ->
  forall n s, test_anchored_rep cls1 n s = test_anchored_rep cls2 n s.
Proof.
  intros Hext n s. unfold test_anchored_rep.
  assert (H : match_rep cls1 n s = match_rep cls2 n s).
  { revert s. induction n as [|k IH]; intros s; simpl; [done|].
    destruct s as [|c r]; [done|]. rewrite Hext.
    destruct (cls2 c); [apply IH | done]. }
  by rewrite H.
Qed.

(** The anchored repetition accepts exactly the strings of length [n]
    made of class members. *)
Lemma test_anchored_rep_spec cls n s :
  test_anchored_rep cls n s = true <->
  length s = n /\ Forall (fun c => cls c = true) s.
Proof.
  unfold test_anchored_rep. split.
  - destruct (match_rep cls n s) as [rest|] eqn:E; [|done].
    destruct rest; [|done]. intros _.
    destruct (match_rep_length _ _ _ _ E) as [Hl Hf]. simpl in Hl.
    split; [lia|]. rewrite take_ge in Hf by lia. exact Hf.
  - intros [Hl Hf].
    rewrite match_rep_complete; [| lia | by rewrite take_ge by lia].
    by rewrite drop_ge by lia.
Qed.

End JSFacts.

(** ** ASIN validation *)
Module AsinFacts.
Import JS BookModel.

Lemma in_AZ09_spec c : in_AZ09 c = true <-> upper_or_digit c.
Proof.
  unfold in_AZ09, upper_or_digit.
  rewrite orb_true_iff, !andb_true_iff, !N.leb_le. tauto.
Qed.

Lemma ASIN_PATTERN_test_spec s :
  ASIN_PATTERN_test s = true <-> well_formed_asin s.
Proof.
  unfold ASIN_PATTERN_test, well_formed_asin.
  rewrite JSFacts.test_anchored_rep_spec.
  split; intros [Hl Hf]; (split; [done|]);
    eapply Forall_impl; try exact Hf; intros c; apply in_AZ09_spec.
Qed.

Lemma validateAsin_ok_well_formed s b :
  validateAsin s = Ok b -> well_formed_asin s.
Proof.
  unfold validateAsin.
  destruct (negb (truthy s)); [done|].
  destruct (ASIN_PATTERN_test s) eqn:Hp; [|done].
  intros _. by apply ASIN_PATTERN_test_spec.
Qed.

(** C4. For every input string, [validateAsin] succeeds (returns [true])
    if and only if the string is exactly 10 characters long, each from
    [[A-Z0-9]]; every other string (another length, a lower-case letter,
    a symbol) makes it throw. *)
Theorem validateAsin_iff (s : jsstring) :
  (validateAsin s = Ok true <-> well_formed_asin s) /\
  ((exists e, validateAsin s = Throw e) <-> ~ well_formed_asin s).
Proof.
  unfold validateAsin.
  destruct (truthy s) eqn:Ht; simpl.
  - destruct (ASIN_PATTERN_test s) eqn:Hp; simpl.
    + apply ASIN_PATTERN_test_spec in Hp.
      split; [by split|]. split; [by intros [e He] | intros Hn; by destruct Hn].
    + assert (Hn : ~ well_formed_asin s).
      { intros Hw. apply ASIN_PATTERN_test_spec in Hw. congruence. }
      split; [by split|]. split; [done | intros _; by eexists].
  - destruct s; [|done].
    assert (Hn : ~ well_formed_asin []) by (intros [Hl _]; done).
    split; [by split|]. split; [done | intros _; by eexists].
Qed.

Example validateAsin_accepts :
  validateAsin (lit "B00ABC1234") = Ok true.
Proof. reflexivity. Qed.

Example validateAsin_rejects_lowercase :
  validateAsin (lit "b00ABC1234") = Throw (AsinBadFormat (lit "b00ABC1234")).
Proof. reflexivity. Qed.

Example validateAsin_rejects_short :
  validateAsin (lit "B00ABC123") = Throw (AsinBadFormat (lit "B00ABC123")).
Proof. reflexivity. Qed.

Example validateAsin_rejects_trailing_newline :
  is_ok (validateAsin (lit "B00ABC1234" ++ [10%N])) = false.
Proof. reflexivity. Qed.

End AsinFacts.

(** ** The count recomputation of the collection parser *)
Module CollectionFacts.
Import BookModel KindleCollectionParser.
Import CollectionSpec.

Lemma count_step_lookup m a id :
  default 0%Z (count_step m a !! id) =
  (default 0%Z (m !! id) + if bool_decide (collectionId a = id) then 1 else 0)%Z.
Proof.
  unfold count_step. case_bool_decide as Heq.
  - subst id. rewrite lookup_insert_eq. simpl. lia.
  - rewrite lookup_insert_ne by done. lia.
Qed.

Lemma fold_count_lookup associations m id :
  default 0%Z (fold_left count_step associations m !! id) =
  (default 0%Z (m !! id) + Z.of_nat (references id associations))%Z.
Proof.
  revert m. induction associations as [|a l IH]; intros m; simpl.
  - unfold references. simpl. lia.
  - rewrite IH, count_step_lookup. unfold references. simpl.
    case_bool_decide; simpl; lia.
Qed.

Lemma bookCountMap_lookup associations id :
  default 0%Z (bookCountMap_of associations !! id) =
  Z.of_nat (references id associations).
Proof.
  unfold bookCountMap_of. rewrite fold_count_lookup, lookup_empty. simpl. lia.
Qed.

Lemma references_app id l1 l2 :
  references id (l1 ++ l2) = references id l1 + references id l2.
Proof. unfold references. by rewrite List.filter_app, length_app. Qed.

Lemma references_other id a :
  collectionId a <> id -> references id [a] = 0.
Proof. intros H. unfold references. simpl. by rewrite bool_decide_false. Qed.

Lemma updateBookCounts_map cs associations :
  updateBookCounts cs associations =
  map (fun c => {| coll_id := coll_id c; coll_name := coll_name c;
                   bookCount := Z.of_nat (references (coll_id c) associations);
                   lastUpdated := lastUpdated c |}) cs.
Proof.
  unfold updateBookCounts. apply map_ext. intros c.
  by rewrite bookCountMap_lookup.
Qed.

(** The case of the repository's own test: three collections, four
    associations. *)
Example updateBookCounts_repo_test :
  map bookCount
    (updateBookCounts
       [ {| coll_id := JS.lit "col1"; coll_name := JS.lit "one";
            bookCount := 0; lastUpdated := None |};
         {| coll_id := JS.lit "col2"; coll_name := JS.lit "two";
            bookCount := 0; lastUpdated := None |};
         {| coll_id := JS.lit "col3"; coll_name := JS.lit "three";
            bookCount := 0; lastUpdated := None |} ]
       [ {| bookAsin := JS.lit "B001234567"; collectionId := JS.lit "col1" |};
         {| bookAsin := JS.lit "B001234568"; collectionId := JS.lit "col1" |};
         {| bookAsin := JS.lit "B001234569"; collectionId := JS.lit "col2" |};
         {| bookAsin := JS.lit "B001234570"; collectionId := JS.lit "col1" |} ])
  = [3%Z; 1%Z; 0%Z].
Proof. vm_compute. reflexivity. Qed.

(** C3. After [updateBookCounts], every collection keeps its identifier,
    name and timestamp, and its book count is the number of associations
    whose collection identifier is its own, zero included; an association
    whose collection identifier is the identifier of no collection changes
    no count. *)
Theorem updateBookCounts_counts (cs : list Collection)
  (associations : list BookCollectionAssociation) :
  Forall2
    (fun c c' =>
       coll_id c' = coll_id c /\ coll_name c' = coll_name c /\
       lastUpdated c' = lastUpdated c /\
       bookCount c' = Z.of_nat (references (coll_id c) associations))
    cs (updateBookCounts cs associations)
  /\
  (forall a pre post,
      associations = pre ++ a :: post ->
      collectionId a ∉ map coll_id cs ->
      updateBookCounts cs associations = updateBookCounts cs (pre ++ post)).
Proof.
  split.
  - rewrite updateBookCounts_map.
    induction cs as [|c r IH]; simpl; constructor; [by simpl | exact IH].
  - intros a pre post -> Hnot.
    rewrite !updateBookCounts_map. apply map_ext_in. intros c Hc.
    assert (Hne : collectionId a <> coll_id c).
    { intros Heq. apply Hnot. rewrite Heq.
      apply list_elem_of_In, in_map. exact Hc. }
    replace (pre ++ a :: post) with (pre ++ [a] ++ post) by done.
    rewrite !references_app, (references_other _ _ Hne).
    do 2 f_equal.
Qed.

(** Two collections and three associations, one to an unknown
    collection. *)
Lemma updateBookCounts_counts_witness :
  map bookCount (updateBookCounts c3_collections c3_associations) = [2%Z; 0%Z]
  /\ updateBookCounts c3_collections c3_associations =
     updateBookCounts c3_collections
       [ {| bookAsin := JS.lit "B000000001"; collectionId := JS.lit "c-1" |};
         {| bookAsin := JS.lit "B000000003"; collectionId := JS.lit "c-1" |} ].
Proof.
  split.
  - vm_compute. reflexivity.
  - apply (proj2 (updateBookCounts_counts c3_collections c3_associations)
             {| bookAsin := JS.lit "B000000002"; collectionId := JS.lit "c-9" |}
             [ {| bookAsin := JS.lit "B000000001"; collectionId := JS.lit "c-1" |} ]
             [ {| bookAsin := JS.lit "B000000003"; collectionId := JS.lit "c-1" |} ]).
    + reflexivity.
    + vm_compute. intros H.
      repeat (apply elem_of_cons in H; destruct H as [H|H]; [discriminate H|]).
      by apply elem_of_nil in H.
Defined.

End CollectionFacts.

(** ** The merge of the integrator *)
Module MergeFacts.
Import BookModel BookDataService.
Import MergeSpec.

Lemma createSafeBook_asin data b :
  createSafeBook data = Ok b -> p_asin data = Some (asin b).
Proof.
  unfold createSafeBook.
  destruct (p_asin data) as [a|]; simpl; [|done].
  destruct (JS.truthy a); simpl; [|done].
  destruct (JS.truthy_opt (p_title data)); simpl; [|done].
  destruct (JS.truthy_opt (p_author data)); simpl; [|done].
  destruct (validateAsin a); [|done].
  by intros [= <-].
Qed.

Lemma book_of_asin m x b : book_of m x = Ok b -> asin b = bm_asin x.
Proof.
  intros H. apply createSafeBook_asin in H. simpl in H. congruence.
Qed.

Section Fold.

Variable m : gmap jsstring (list jsstring).

Lemma merge_step_seen st x :
  bm_asin x ∈ seenASINs st ->
  merge_step m st x =
  {| m_books := m_books st; seenASINs := seenASINs st;
     duplicateCount := S (duplicateCount st);
     invalidCount := invalidCount st |}.
Proof. intros H. unfold merge_step. by rewrite bool_decide_true. Qed.

Lemma merge_step_new st x b :
  bm_asin x ∉ seenASINs st -> book_of m x = Ok b ->
  merge_step m st x =
  {| m_books := m_books st ++ [b];
     seenASINs := {[bm_asin x]} ∪ seenASINs st;
     duplicateCount := duplicateCount st;
     invalidCount := invalidCount st |}.
Proof.
  intros H Hb. unfold merge_step. rewrite bool_decide_false by done.
  unfold book_of, to_partial in Hb. by rewrite Hb.
Qed.

Lemma merge_step_invalid st x e :
  bm_asin x ∉ seenASINs st -> book_of m x = Throw e ->
  merge_step m st x =
  {| m_books := m_books st; seenASINs := seenASINs st;
     duplicateCount := duplicateCount st;
     invalidCount := S (invalidCount st) |}.
Proof.
  intros H Hb. unfold merge_step. rewrite bool_decide_false by done.
  unfold book_of, to_partial in Hb. by rewrite Hb.
Qed.

(** The three cases of a round, as a case analysis. *)
Lemma merge_step_cases st x :
  (bm_asin x ∈ seenASINs st /\
   merge_step m st x =
   {| m_books := m_books st; seenASINs := seenASINs st;
      duplicateCount := S (duplicateCount st);
      invalidCount := invalidCount st |})
  \/ (exists b, (bm_asin x ∉ seenASINs st) /\ book_of m x = Ok b /\
        merge_step m st x =
        {| m_books := m_books st ++ [b];
           seenASINs := {[bm_asin x]} ∪ seenASINs st;
           duplicateCount := duplicateCount st;
           invalidCount := invalidCount st |})
  \/ (exists e, (bm_asin x ∉ seenASINs st) /\ book_of m x = Throw e /\
        merge_step m st x =
        {| m_books := m_books st; seenASINs := seenASINs st;
           duplicateCount := duplicateCount st;
           invalidCount := S (invalidCount st) |}).
Proof.
  destruct (decide (bm_asin x ∈ seenASINs st)) as [Hin|Hout].
  - left. split; [done|]. by apply merge_step_seen.
  - right. destruct (book_of m x) as [b|e] eqn:Hb.
    + left. exists b. repeat split; try done. by apply merge_step_new.
    + right. exists e. repeat split; try done. by eapply merge_step_invalid.
Qed.

Lemma seen_is_books_init : seen_is_books merge_init.
Proof.
  intros a. simpl. split; intros H; [set_solver | by apply elem_of_nil in H].
Qed.

Lemma seen_is_books_step st x :
  seen_is_books st -> seen_is_books (merge_step m st x).
Proof.
  intros Hinv.
  destruct (merge_step_cases st x)
    as [[_ ->] | [(b & _ & Hb & ->) | (e & _ & _ & ->)]]; try exact Hinv.
  intros a. simpl. rewrite map_app. simpl.
  rewrite elem_of_union, elem_of_singleton, elem_of_app, list_elem_of_singleton.
  rewrite (book_of_asin _ _ _ Hb). specialize (Hinv a). tauto.
Qed.

Lemma seen_is_books_fold l st :
  seen_is_books st -> seen_is_books (fold_left (merge_step m) l st).
Proof.
  revert st. induction l as [|x r IH]; intros st H; simpl; [done|].
  apply IH. by apply seen_is_books_step.
Qed.

Lemma seen_mono_step st x a :
  a ∈ seenASINs st -> a ∈ seenASINs (merge_step m st x).
Proof.
  intros H.
  destruct (merge_step_cases st x)
    as [[_ ->] | [(b & _ & _ & ->) | (e & _ & _ & ->)]]; simpl; set_solver.
Qed.

Lemma seen_mono_fold l st a :
  a ∈ seenASINs st -> a ∈ seenASINs (fold_left (merge_step m) l st).
Proof.
  revert st. induction l as [|x r IH]; intros st H; simpl; [done|].
  apply IH. by apply seen_mono_step.
Qed.

Lemma invalid_mono_fold l st :
  invalidCount st <= invalidCount (fold_left (merge_step m) l st).
Proof.
  revert st. induction l as [|x r IH]; intros st; simpl; [lia|].
  etransitivity; [|apply IH].
  destruct (merge_step_cases st x)
    as [[_ ->] | [(b & _ & _ & ->) | (e & _ & _ & ->)]]; simpl; lia.
Qed.

(** After a pass, every record of the list is either seen or cannot be
    constructed. *)
Lemma fold_covers l st x :
  x ∈ l ->
  bm_asin x ∈ seenASINs (fold_left (merge_step m) l st)
  \/ constructible m x = false.
Proof.
  revert st. induction l as [|y r IH]; intros st Hx; [by apply elem_of_nil in Hx|].
  apply elem_of_cons in Hx. destruct Hx as [->|Hx]; simpl; [|by apply IH].
  destruct (merge_step_cases st y)
    as [[Hin ->] | [(b & _ & _ & ->) | (e & _ & He & ->)]].
  - left. by apply seen_mono_fold.
  - left. apply seen_mono_fold. simpl. set_solver.
  - right. unfold constructible. by rewrite He.
Qed.

(** With no invalid record counted, every record of the list is seen. *)
Lemma fold_all_seen l st x :
  invalidCount (fold_left (merge_step m) l st) = invalidCount st ->
  x ∈ l -> bm_asin x ∈ seenASINs (fold_left (merge_step m) l st).
Proof.
  revert st. induction l as [|y r IH]; intros st Hc Hx;
    [by apply elem_of_nil in Hx|].
  simpl in *.
  pose proof (invalid_mono_fold r (merge_step m st y)) as Hmono.
  destruct (merge_step_cases st y)
    as [[Hin Hs] | [(b & _ & _ & Hs) | (e & _ & He & Hs)]];
    rewrite Hs in *; simpl in *.
  - apply elem_of_cons in Hx. destruct Hx as [->|Hx].
    + by apply seen_mono_fold.
    + by apply IH.
  - apply elem_of_cons in Hx. destruct Hx as [->|Hx].
    + apply seen_mono_fold. simpl. set_solver.
    + by apply IH.
  - lia.
Qed.

(** A second pass over records that are all seen or not constructible
    changes the counters only. *)
Lemma fold_second_pass l st :
  (forall x, x ∈ l -> bm_asin x ∈ seenASINs st \/ constructible m x = false) ->
  m_books (fold_left (merge_step m) l st) = m_books st /\
  seenASINs (fold_left (merge_step m) l st) = seenASINs st /\
  duplicateCount (fold_left (merge_step m) l st) = duplicateCount st +
    length (List.filter (fun x => bool_decide (bm_asin x ∈ seenASINs st)) l) /\
  invalidCount (fold_left (merge_step m) l st) = invalidCount st +
    length (List.filter (fun x => negb (bool_decide (bm_asin x ∈ seenASINs st))) l).
Proof.
  revert st. induction l as [|y r IH]; intros st Hall; simpl.
  - repeat split; lia.
  - assert (Hr : forall st1, seenASINs st1 = seenASINs st ->
                 forall x, x ∈ r ->
                 bm_asin x ∈ seenASINs st1 \/ constructible m x = false).
    { intros st1 Heq x Hx. rewrite Heq. apply Hall. by right. }
    destruct (merge_step_cases st y)
      as [[Hin Hs] | [(b & Hout & Hb & Hs) | (e & Hout & He & Hs)]].
    + rewrite Hs.
      match goal with
      | |- context [fold_left _ r ?s] =>
          destruct (IH s (Hr s eq_refl)) as (H1 & H2 & H3 & H4)
      end.
      rewrite H1, H2, H3, H4. simpl.
      rewrite (bool_decide_true _ Hin). simpl. repeat split; lia.
    + exfalso. destruct (Hall y) as [H|H]; [by left | done |].
      unfold constructible in H. by rewrite Hb in H.
    + rewrite Hs.
      match goal with
      | |- context [fold_left _ r ?s] =>
          destruct (IH s (Hr s eq_refl)) as (H1 & H2 & H3 & H4)
      end.
      rewrite H1, H2, H3, H4. simpl.
      rewrite (bool_decide_false _ Hout). simpl. repeat split; lia.
Qed.

(** The seen identifiers are those of the constructible records read so
    far; the books after the pass are the first occurrences. *)
Lemma fold_first_occurrences l st before :
  (forall a, a ∈ seenASINs st <->
             exists y, y ∈ before /\ bm_asin y = a /\ constructible m y = true) ->
  m_books (fold_left (merge_step m) l st) =
  m_books st ++ first_occurrences m before l.
Proof.
  revert st before. induction l as [|x r IH]; intros st before Hinv; simpl.
  - by rewrite app_nil_r.
  - assert (Hex : existsb (fun y => bool_decide (bm_asin y = bm_asin x)
                                    && constructible m y) before = true
                  <-> bm_asin x ∈ seenASINs st).
    { rewrite Hinv, existsb_exists. split.
      - intros (y & Hy & Hc). apply andb_true_iff in Hc as [H1 H2].
        apply bool_decide_eq_true in H1. exists y.
        by rewrite <- list_elem_of_In in Hy.
      - intros (y & Hy & H1 & H2). exists y.
        rewrite <- list_elem_of_In. split; [done|].
        by rewrite bool_decide_true, H2 by done. }
    assert (Hnext : forall st1,
               (seenASINs st1 = seenASINs st /\
                (bm_asin x ∈ seenASINs st \/ constructible m x = false))
               \/ (seenASINs st1 = {[bm_asin x]} ∪ seenASINs st /\
                   constructible m x = true) ->
               forall a, a ∈ seenASINs st1 <->
                 exists y, y ∈ x :: before /\ bm_asin y = a /\
                           constructible m y = true).
    { intros st1 Hst a. split.
      - intros Ha. destruct Hst as [[Heq _] | [Heq Hc]]; rewrite Heq in Ha.
        + apply Hinv in Ha as (y & Hy & H1 & H2). exists y.
          split; [by right | done].
        + apply elem_of_union in Ha as [Ha|Ha].
          * apply elem_of_singleton in Ha as ->. exists x.
            split; [by left | done].
          * apply Hinv in Ha as (y & Hy & H1 & H2). exists y.
            split; [by right | done].
      - intros (y & Hy & H1 & H2). apply elem_of_cons in Hy as [->|Hy].
        + destruct Hst as [[Heq [Hs|Hc]] | [Heq _]]; rewrite Heq.
          * by subst a.
          * congruence.
          * subst a. apply elem_of_union. left. by apply elem_of_singleton.
        + assert (a ∈ seenASINs st) by (apply Hinv; by exists y).
          destruct Hst as [[Heq _] | [Heq _]]; rewrite Heq; [done|].
          apply elem_of_union. by right. }
    destruct (merge_step_cases st x)
      as [[Hin Hs] | [(b & Hout & Hb & Hs) | (e & Hout & He & Hs)]].
    + rewrite (IH _ (x :: before)).
      * rewrite Hs. simpl. destruct (book_of m x); [|done].
        apply Hex in Hin. by rewrite Hin.
      * apply Hnext. left. rewrite Hs. simpl. split; [done | by left].
    + rewrite (IH _ (x :: before)).
      * rewrite Hs, Hb. simpl.
        destruct (existsb _ before) eqn:E.
        -- exfalso. apply Hout, Hex. done.
        -- by rewrite <- app_assoc.
      * apply Hnext. right. rewrite Hs. simpl. split; [done|].
        unfold constructible. by rewrite Hb.
    + rewrite (IH _ (x :: before)).
      * rewrite Hs, He. done.
      * apply Hnext. left. rewrite Hs. simpl. split; [done|]. right.
        unfold constructible. by rewrite He.
Qed.

End Fold.

Lemma assemble_books l sq :
  books (assemble l sq) =
  List.filter isValidBook (merged_books l (counted_sqlite sq)).
Proof.
  unfold assemble, merged_books. fold (counted_sqlite sq).
  by destruct (mergeBookData l (counted_sqlite sq)) as [[[bs cs] d] i].
Qed.

Lemma assemble_statistics l sq :
  xmlBookCount (statistics (assemble l sq)) = length l /\
  duplicateBookCount (statistics (assemble l sq)) =
    merged_duplicates l (counted_sqlite sq) /\
  invalidBookCount (statistics (assemble l sq)) =
    merged_invalid l (counted_sqlite sq) /\
  finalBookCount (statistics (assemble l sq)) = length (books (assemble l sq)).
Proof.
  unfold assemble, merged_duplicates, merged_invalid.
  fold (counted_sqlite sq).
  by destruct (mergeBookData l (counted_sqlite sq)) as [[[bs cs] d] i].
Qed.

Lemma nodup_step (m : gmap jsstring (list jsstring)) st x :
  seen_is_books st -> NoDup (map asin (m_books st)) ->
  NoDup (map asin (m_books (merge_step m st x))).
Proof.
  intros Hinv Hnd.
  destruct (merge_step_cases m st x)
    as [[_ ->] | [(b & Hout & Hb & ->) | (e & _ & _ & ->)]]; try exact Hnd.
  simpl. rewrite map_app. simpl. apply NoDup_app. split; [done|]. split.
  - intros a Ha Hb'. apply list_elem_of_singleton in Hb'. subst a.
    apply Hout, Hinv. by rewrite <- (book_of_asin _ _ _ Hb).
  - apply NoDup_singleton.
Qed.

Lemma nodup_fold (m : gmap jsstring (list jsstring)) l st :
  seen_is_books st -> NoDup (map asin (m_books st)) ->
  NoDup (map asin (m_books (fold_left (merge_step m) l st))).
Proof.
  revert st. induction l as [|x r IH]; intros st Hinv Hnd; simpl; [done|].
  apply IH; [by apply seen_is_books_step | by apply nodup_step].
Qed.

Lemma filter_length_split {A} (f : A -> bool) (l : list A) :
  length (List.filter f l) + length (List.filter (fun x => negb (f x)) l)
  = length l.
Proof.
  induction l as [|x r IH]; simpl; [done|].
  destruct (f x); simpl; lia.
Qed.

(** A list that already holds one identifier twice: fed twice, the
    duplicate counter is 3, not the length 2 of the list. *)
Lemma twice_as_specified_fails :
  merged_duplicates ([c2_book; c2_book] ++ [c2_book; c2_book]) no_collections = 3
  /\ length [c2_book; c2_book] = 2
  /\ ~ twice_as_specified [c2_book; c2_book] no_collections.
Proof.
  assert (H : merged_duplicates ([c2_book; c2_book] ++ [c2_book; c2_book])
                no_collections = 3) by (vm_compute; reflexivity).
  split; [exact H|]. split; [reflexivity|].
  intros [_ H']. rewrite H in H'. discriminate H'.
Qed.

(** C2 (amended). Merging a list concatenated with itself yields the same
    books as merging it once.  The duplicate counter of the doubled list is
    the duplicate counter of the list plus the number of its records whose
    identifier is the identifier of a book of the result; it is the length
    of the list when the list itself has no duplicate and no invalid
    record.  The books are the first constructible occurrence of each
    identifier, in input order, and no identifier occurs twice. *)
Theorem merge_twice (L : list BookMetadata) (sq : SqliteResult) :
  merged_books (L ++ L) sq = merged_books L sq
  /\ merged_duplicates (L ++ L) sq =
     merged_duplicates L sq +
     length (List.filter
               (fun x => bool_decide (bm_asin x ∈ map asin (merged_books L sq)))
               L)
  /\ (merged_duplicates L sq = 0 -> merged_invalid L sq = 0 ->
      merged_duplicates (L ++ L) sq = length L)
  /\ merged_books L sq =
     first_occurrences (buildASINCollectionMapping sq) [] L
  /\ NoDup (map asin (merged_books L sq)).
Proof.
  unfold merged_books, merged_duplicates, merged_invalid, mergeBookData.
  simpl. set (m := buildASINCollectionMapping sq).
  rewrite fold_left_app.
  set (st1 := fold_left (merge_step m) L merge_init).
  assert (Hinv : seen_is_books st1)
    by apply seen_is_books_fold, seen_is_books_init.
  destruct (fold_second_pass m L st1) as (H1 & H2 & H3 & H4).
  { intros x Hx. by apply fold_covers. }
  assert (Hfilter :
    List.filter (fun x => bool_decide (bm_asin x ∈ seenASINs st1)) L =
    List.filter (fun x => bool_decide (bm_asin x ∈ map asin (m_books st1))) L).
  { apply List.filter_ext. intros x. apply bool_decide_ext, Hinv. }
  split; [exact H1|]. split; [by rewrite H3, Hfilter|]. split.
  - intros Hd Hi. rewrite H3, Hd. simpl.
    assert (Hall : List.filter
              (fun x => bool_decide (bm_asin x ∈ seenASINs st1)) L = L).
    { apply forallb_filter_id, forallb_forall. intros x Hx.
      apply bool_decide_eq_true. apply fold_all_seen; [exact Hi|].
      by apply list_elem_of_In. }
    by rewrite Hall.
  - split.
    + unfold st1. rewrite (fold_first_occurrences m L merge_init []); [done|].
      intros a. simpl. split.
      * intros Ha. by apply elem_of_empty in Ha.
      * intros (y & Hy & _). by apply elem_of_nil in Hy.
    + apply nodup_fold; [apply seen_is_books_init | constructor].
Qed.

(** A list of one valid record, fed twice. *)
Lemma merge_twice_witness :
  merged_duplicates [c2_book] no_collections = 0
  /\ merged_invalid [c2_book] no_collections = 0
  /\ merged_duplicates ([c2_book] ++ [c2_book]) no_collections = length [c2_book].
Proof.
  assert (Hd : merged_duplicates [c2_book] no_collections = 0)
    by (vm_compute; reflexivity).
  assert (Hi : merged_invalid [c2_book] no_collections = 0)
    by (vm_compute; reflexivity).
  split; [exact Hd|]. split; [exact Hi|].
  exact (proj1 (proj2 (proj2 (merge_twice [c2_book] no_collections))) Hd Hi).
Defined.

End MergeFacts.

(** ** The invariant of the books the integrator returns *)
Module IntegratorFacts.
Import BookModel BookDataService MergeSpec MergeFacts.
Import IntegratorSpec.

Lemma add_association_nodup names m a :
  names_nodup m -> names_nodup (add_association names m a).
Proof.
  intros Hm. unfold add_association.
  destruct (names !! collectionId a) as [name|]; [|done].
  destruct (JS.truthy name); simpl; [|done].
  set (k := bookAsin a).
  set (m1 := match m !! k with
             | Some _ => m
             | None => <[k:=[]]> m
             end).
  assert (Hm1 : names_nodup m1).
  { unfold m1. destruct (m !! k) eqn:E; [done|].
    intros k' l. destruct (decide (k = k')) as [<-|Hne].
    - rewrite lookup_insert_eq. intros [= <-]. constructor.
    - rewrite lookup_insert_ne by done. apply Hm. }
  destruct (JS.arr_includes name (default [] (m1 !! k))) eqn:Hinc; [done|].
  intros k' l. destruct (decide (k = k')) as [<-|Hne].
  - rewrite lookup_insert_eq. intros [= <-].
    apply NoDup_app. split; [|split].
    + destruct (m1 !! k) as [l0|] eqn:E; simpl; [by eapply Hm1 | constructor].
    + intros x Hx Hx'. apply list_elem_of_singleton in Hx'. subst x.
      apply JSFacts.arr_includes_spec in Hx. congruence.
    + apply NoDup_singleton.
  - rewrite lookup_insert_ne by done. apply Hm1.
Qed.

Lemma buildASINCollectionMapping_nodup sq :
  names_nodup (buildASINCollectionMapping sq).
Proof.
  unfold buildASINCollectionMapping.
  generalize (collectionIdToName (sq_collections sq)). intros names.
  assert (H0 : names_nodup (∅ : gmap jsstring (list jsstring))).
  { intros k l. by rewrite lookup_empty. }
  revert H0. generalize (∅ : gmap jsstring (list jsstring)).
  induction (sq_associations sq) as [|a r IH]; intros m Hm; simpl; [done|].
  apply IH. by apply add_association_nodup.
Qed.

Lemma keeps_nonempty c : keeps c = true -> c <> [].
Proof.
  unfold keeps. intros H. apply JSFacts.truthy_nonempty.
  by apply JSFacts.trim_truthy.
Qed.

(** What [createSafeBook] guarantees of the book it returns. *)
Lemma createSafeBook_ok data b :
  createSafeBook data = Ok b ->
  NoDup (default [] (p_collections data)) ->
  well_formed_asin (asin b) /\
  JS.trim (title b) = title b /\
  JS.trim (author b) = author b /\
  ([] ∉ collections b) /\
  NoDup (collections b).
Proof.
  unfold createSafeBook. intros H Hnd.
  destruct (JS.truthy_opt (p_asin data)); simpl in H; [|done].
  destruct (JS.truthy_opt (p_title data)); simpl in H; [|done].
  destruct (JS.truthy_opt (p_author data)); simpl in H; [|done].
  destruct (validateAsin (default [] (p_asin data))) as [ok|] eqn:Hv; [|done].
  injection H as <-. simpl.
  split; [by eapply AsinFacts.validateAsin_ok_well_formed|].
  split; [apply JSFacts.trim_idem|]. split; [apply JSFacts.trim_idem|].
  split.
  - intros Hin. apply list_elem_of_In, filter_In in Hin as [_ Hk].
    by apply keeps_nonempty in Hk.
  - apply NoDup_ListNoDup, List.NoDup_filter, NoDup_ListNoDup. exact Hnd.
Qed.

Lemma isValidBook_truthy b :
  isValidBook b = true ->
  JS.truthy (title b) = true /\ JS.truthy (author b) = true.
Proof.
  unfold isValidBook.
  destruct (JS.truthy (asin b)); simpl; [|done].
  destruct (JS.truthy (title b)); simpl; [|done].
  by destruct (JS.truthy (author b)).
Qed.

Lemma merge_fold_created m l st :
  names_nodup m ->
  Forall from_createSafeBook (m_books st) ->
  Forall from_createSafeBook (m_books (fold_left (merge_step m) l st)).
Proof.
  intros Hm. revert st. induction l as [|x r IH]; intros st Hst; simpl; [done|].
  apply IH.
  destruct (merge_step_cases m st x)
    as [[_ ->] | [(b & _ & Hb & ->) | (e & _ & _ & ->)]]; try exact Hst.
  simpl. apply Forall_app. split; [done|]. constructor; [|constructor].
  exists (to_partial m x). split; [exact Hb|]. simpl.
  destruct (m !! bm_asin x) as [l0|] eqn:E; simpl; [by eapply Hm | constructor].
Qed.

Lemma merged_books_created l sq :
  Forall from_createSafeBook (merged_books l sq).
Proof.
  unfold merged_books, mergeBookData. simpl.
  apply merge_fold_created; [apply buildASINCollectionMapping_nodup|].
  constructor.
Qed.

Lemma valid_created_invariant b :
  from_createSafeBook b -> isValidBook b = true -> book_invariant b.
Proof.
  intros (data & Hc & Hnd) Hv.
  destruct (createSafeBook_ok _ _ Hc Hnd) as (H1 & H2 & H3 & H4 & H5).
  destruct (isValidBook_truthy _ Hv) as [Ht Ha].
  unfold book_invariant. rewrite H2, H3.
  split; [exact H1|].
  split; [by apply JSFacts.truthy_nonempty|].
  split; [by apply JSFacts.truthy_nonempty|].
  by split.
Qed.

(** C8. Every book in the result of [integrateAllBookData] has an
    identifier that matches the ASIN pattern, a title and an author that
    are not empty after trimming, and a list of collection names without
    the empty string and without repetitions. *)
Theorem integrate_invariant (date_is_valid : jsstring -> bool)
  (io : PhaseOutcomes) (r : BookDataIntegrationResult) :
  integrateAllBookData date_is_valid io = Ok r ->
  Forall book_invariant (books r).
Proof.
  unfold integrateAllBookData. intros H.
  destruct (PathDetector.success (pathResult io)); [|done].
  destruct (PathDetector.paths (pathResult io)) as [ps|]; [|done].
  destruct (xmlDocument io _) as [doc|]; [|done].
  destruct (sqliteResult io _) as [sq|]; [|done].
  injection H as <-. rewrite assemble_books.
  apply Forall_forall. intros b Hb.
  apply list_elem_of_In, filter_In in Hb as [Hin Hv].
  apply valid_created_invariant; [|exact Hv].
  pose proof (merged_books_created
                (KindleParser.extractBookMetadata date_is_valid doc)
                (counted_sqlite sq)) as Hcreated.
  rewrite Forall_forall in Hcreated. apply Hcreated.
  by apply list_elem_of_In.
Qed.

End IntegratorFacts.

(** ** The XML extractor *)
Module ParserFacts.
Import BookModel KindleParser.
Import ParserSpec.

Lemma trimStart_headed s :
  JS.truthy (JS.trimStart s) = true -> headed (JS.trimStart s).
Proof.
  induction s as [|c r IH]; simpl; [done|].
  destruct (JS.is_ws c) eqn:E; [exact IH | by intros _].
Qed.

Lemma trimEnd_headed s : headed s -> headed (JS.trimEnd s).
Proof.
  destruct s as [|c r]; simpl; [done|]. intros Hc.
  by rewrite JSFacts.trimEnd_cons_keep.
Qed.

Lemma trim_headed s : JS.truthy (JS.trim s) = true -> headed (JS.trim s).
Proof.
  unfold JS.trim. intros H. apply trimEnd_headed, trimStart_headed.
  destruct (JS.trimStart s); [done|done].
Qed.

Lemma headed_trim s : headed s -> JS.truthy (JS.trim s) = true.
Proof.
  destruct s as [|c r]; simpl; [done|]. intros Hc.
  unfold JS.trim. simpl. rewrite Hc.
  by rewrite JSFacts.trimEnd_cons_keep.
Qed.

Lemma headed_truthy s : headed s -> JS.truthy s = true.
Proof. by destruct s. Qed.

Lemma join_headed sep n ns : headed n -> headed (JS.join sep (n :: ns)).
Proof. destruct n as [|c r]; [done|]. by destruct ns. Qed.

Lemma UNKNOWN_AUTHOR_headed : headed UNKNOWN_AUTHOR.
Proof. reflexivity. Qed.

Lemma extractSingleAuthor_headed a name :
  fst (extractSingleAuthor a) = Some name -> JS.truthy name = true ->
  headed name.
Proof.
  destruct a as [s|text pron]; simpl; intros [= <-]; apply trim_headed.
Qed.

Lemma push_author_headed acc a :
  Forall headed (fst acc) -> Forall headed (fst (push_author acc a)).
Proof.
  destruct acc as [authors prons]. unfold push_author. simpl.
  destruct (extractSingleAuthor a) as [name pron] eqn:E.
  destruct name as [n|]; simpl; [|done].
  destruct (JS.truthy n) eqn:Hn; simpl; [|done].
  intros H. apply Forall_app. split; [done|]. constructor; [|constructor].
  apply (extractSingleAuthor_headed a); [by rewrite E | done].
Qed.

Lemma fold_push_author_headed l acc :
  Forall headed (fst acc) ->
  Forall headed (fst (fold_left push_author l acc)).
Proof.
  revert acc. induction l as [|a r IH]; intros acc H; simpl; [done|].
  apply IH. by apply push_author_headed.
Qed.

(** The author string the extractor passes on, when there is one that is
    not empty, starts with a visible character. *)
Lemma extractAuthor_headed m au :
  fst (extractAuthor m) = Some au -> JS.truthy au = true -> headed au.
Proof.
  unfold extractAuthor.
  destruct (e_authors m) as [[a|l]|]; simpl; [| |done].
  - destruct (truthy_node a); simpl; [|done].
    destruct a as [s|text pron]; simpl; intros [= <-]; apply trim_headed.
  - pose proof (fold_push_author_headed l ([], []) (List.Forall_nil _)) as H.
    destruct (fold_left push_author l ([], [])) as [authors prons].
    destruct authors as [|n ns]; [done|].
    cbn [fst]. intros [= <-] _. apply (join_headed (JS.lit ", ") n ns).
    cbn [fst] in H. by inversion H.
Qed.

Section WithDate.

Variable date_is_valid : jsstring -> bool.

(** What the extractor guarantees of a record it returns. *)
Lemma extractSingleBookMetadata_some m x :
  extractSingleBookMetadata date_is_valid m = Some x ->
  validateAsin (bm_asin x) = Ok true /\
  headed (bm_title x) /\ headed (bm_author x).
Proof.
  unfold extractSingleBookMetadata.
  destruct (JS.truthy_opt (ASIN m)); simpl; [|done].
  destruct (validateAsin (JS.trim (default [] (ASIN m)))) as [ok|] eqn:Hv;
    [|done].
  destruct (extractTitle m) as [[t tp]|] eqn:Ht; [|done].
  destruct (JS.truthy t) eqn:Htt; simpl; [|done].
  destruct (extractAuthor m) as [au ap] eqn:Ha.
  intros [= <-]. simpl. split; [|split].
  - unfold validateAsin in *.
    destruct (negb (JS.truthy _)); [done|].
    by destruct (negb (ASIN_PATTERN_test _)).
  - unfold extractTitle in Ht.
    destruct (e_title m) as [[s|text pron]|]; [| |done];
      injection Ht as <- _; by apply trim_headed.
  - destruct au as [a|]; simpl; [|apply UNKNOWN_AUTHOR_headed].
    destruct (JS.truthy a) eqn:Hta; [|apply UNKNOWN_AUTHOR_headed].
    apply (extractAuthor_headed m); [by rewrite Ha | done].
Qed.

Lemma extractSingleBookMetadata_no_asin m :
  JS.truthy_opt (ASIN m) = false ->
  extractSingleBookMetadata date_is_valid m = None.
Proof. intros H. unfold extractSingleBookMetadata. by rewrite H. Qed.

Lemma processMetadataChunk_omap chunk books :
  processMetadataChunk date_is_valid chunk books =
  books ++ omap (extractSingleBookMetadata date_is_valid) chunk.
Proof.
  unfold processMetadataChunk. revert books.
  induction chunk as [|m r IH]; intros books; simpl.
  - by rewrite app_nil_r.
  - rewrite IH.
    destruct (extractSingleBookMetadata date_is_valid m); [|done].
    by rewrite <- app_assoc.
Qed.

(** The chunks change nothing: with enough rounds the loop extracts the
    elements from [i] on, in order. *)
Lemma chunk_loop_omap fuel i l books :
  length l <= i + fuel ->
  chunk_loop date_is_valid fuel i l books =
  books ++ omap (extractSingleBookMetadata date_is_valid) (drop i l).
Proof.
  revert i books. induction fuel as [|f IH]; intros i books Hlen; simpl.
  - rewrite drop_ge by lia. by rewrite app_nil_r.
  - destruct (i <? length l) eqn:E.
    + apply Nat.ltb_lt in E. rewrite IH by (unfold CHUNK_SIZE; lia).
      rewrite processMetadataChunk_omap. unfold slice.
      replace (i + CHUNK_SIZE - i) with CHUNK_SIZE by lia.
      rewrite <- app_assoc. f_equal.
      rewrite <- omap_app. f_equal.
      rewrite <- (take_drop CHUNK_SIZE (drop i l)) at 2.
      f_equal. rewrite drop_drop. f_equal; lia.
    + apply Nat.ltb_ge in E. rewrite drop_ge by lia. by rewrite app_nil_r.
Qed.

Lemma processLargeMetadataList_omap l :
  processLargeMetadataList date_is_valid l [] =
  omap (extractSingleBookMetadata date_is_valid) l.
Proof.
  unfold processLargeMetadataList. rewrite chunk_loop_omap by lia.
  by rewrite drop_0.
Qed.

End WithDate.

End ParserFacts.

(** ** The pipeline from the parsed document to the result *)
Module PipelineFacts.
Import BookModel KindleParser BookDataService MergeSpec MergeFacts.
Import PipelineRuns.

(** A record with a valid identifier and with a title and an author that
    start with a visible character becomes a valid book. *)
Lemma headed_constructible m x :
  validateAsin (bm_asin x) = Ok true ->
  ParserSpec.headed (bm_title x) -> ParserSpec.headed (bm_author x) ->
  exists b, book_of m x = Ok b /\ isValidBook b = true /\
            asin b = bm_asin x /\ title b = JS.trim (bm_title x) /\
            author b = JS.trim (bm_author x).
Proof.
  intros Hv Ht Ha.
  assert (Hta : JS.truthy (bm_asin x) = true).
  { unfold validateAsin in Hv. by destruct (JS.truthy (bm_asin x)). }
  unfold book_of, createSafeBook, to_partial. cbn [p_asin p_title p_author].
  cbn [JS.truthy_opt default from_option id]. rewrite Hta.
  rewrite (ParserFacts.headed_truthy _ Ht), (ParserFacts.headed_truthy _ Ha).
  cbn [negb]. rewrite Hv. eexists. split; [reflexivity|].
  split; [|by cbn].
  unfold isValidBook. cbn [asin title author]. rewrite Hta.
  rewrite (ParserFacts.headed_trim _ Ht), (ParserFacts.headed_trim _ Ha).
  cbn [negb]. by rewrite Hv.
Qed.

Section WithDate.

Variable date_is_valid : jsstring -> bool.

Lemma extractBookMetadata_many l :
  extractBookMetadata date_is_valid {| meta_data := Some (MetaMany l) |} =
  omap (extractSingleBookMetadata date_is_valid) l.
Proof.
  unfold extractBookMetadata. simpl.
  apply ParserFacts.processLargeMetadataList_omap.
Qed.

(** Two good elements with one identifier and an element without ASIN,
    placed anywhere among them, leave the extractor as the two records. *)
Lemma extract_three first second bad k x1 x2 :
  JS.truthy_opt (ASIN bad) = false ->
  extractSingleBookMetadata date_is_valid first = Some x1 ->
  extractSingleBookMetadata date_is_valid second = Some x2 ->
  omap (extractSingleBookMetadata date_is_valid)
    (take k [first; second] ++ bad :: drop k [first; second]) = [x1; x2].
Proof.
  intros Hbad H1 H2.
  rewrite omap_app. simpl.
  rewrite (ParserFacts.extractSingleBookMetadata_no_asin _ _ Hbad).
  rewrite <- omap_app, take_drop. simpl. by rewrite H1, H2.
Qed.

(** C1 (amended). A metadata file with exactly three elements, one without
    an ASIN (at any position) and two fully valid elements that share one
    identifier: the extractor drops the element without ASIN, so the
    integrator reads two records; the result holds exactly one book, built
    from the first of the two valid elements; the statistics report one
    duplicate, no invalid record and two books read. *)
Theorem three_elements_scenario (io : PhaseOutcomes) (sq : SqliteResult)
  (ps : PathDetector.KindleCacheFiles)
  (first second bad : MetadataElement) (k : nat) (x1 x2 : BookMetadata) :
  PathDetector.success (pathResult io) = true ->
  PathDetector.paths (pathResult io) = Some ps ->
  xmlDocument io (PathDetector.xmlPath ps) =
    Ok {| meta_data :=
            Some (MetaMany (take k [first; second]
                            ++ bad :: drop k [first; second])) |} ->
  sqliteResult io (PathDetector.dbPath ps) = Ok sq ->
  JS.truthy_opt (ASIN bad) = false ->
  extractSingleBookMetadata date_is_valid first = Some x1 ->
  extractSingleBookMetadata date_is_valid second = Some x2 ->
  bm_asin x1 = bm_asin x2 ->
  exists r b,
    integrateAllBookData date_is_valid io = Ok r /\
    books r = [b] /\
    asin b = bm_asin x1 /\ title b = JS.trim (bm_title x1) /\
    author b = JS.trim (bm_author x1) /\
    duplicateBookCount (statistics r) = 1 /\
    invalidBookCount (statistics r) = 0 /\
    xmlBookCount (statistics r) = 2 /\
    finalBookCount (statistics r) = 1.
Proof.
  intros Hp Hpaths Hx Hs Hbad H1 H2 Heq.
  unfold integrateAllBookData.
  rewrite Hp, Hpaths, Hx, Hs.
  rewrite extractBookMetadata_many, (extract_three _ _ _ _ _ _ Hbad H1 H2).
  destruct (ParserFacts.extractSingleBookMetadata_some _ _ _ H1)
    as (Hv & Ht & Ha).
  set (m := buildASINCollectionMapping (counted_sqlite sq)).
  destruct (headed_constructible m x1 Hv Ht Ha)
    as (b & Hb & Hvalid & Hasin & Htitle & Hauthor).
  assert (Hfold : fold_left (merge_step m) [x1; x2] merge_init =
                  {| m_books := [b];
                     seenASINs := {[bm_asin x1]} ∪ ∅;
                     duplicateCount := 1; invalidCount := 0 |}).
  { simpl. rewrite (merge_step_new m merge_init x1 b); [|set_solver|done].
    rewrite merge_step_seen; [done|]. simpl. rewrite <- Heq. set_solver. }
  assert (Hbooks : merged_books [x1; x2] (counted_sqlite sq) = [b]).
  { unfold merged_books, mergeBookData. cbn [fst]. fold m. by rewrite Hfold. }
  assert (Hdup : merged_duplicates [x1; x2] (counted_sqlite sq) = 1).
  { unfold merged_duplicates, mergeBookData. cbn [fst snd]. fold m.
    by rewrite Hfold. }
  assert (Hinv : merged_invalid [x1; x2] (counted_sqlite sq) = 0).
  { unfold merged_invalid, mergeBookData. cbn [snd]. fold m.
    by rewrite Hfold. }
  assert (Hres : books (assemble [x1; x2] sq) = [b]).
  { rewrite assemble_books, Hbooks. simpl. by rewrite Hvalid. }
  destruct (assemble_statistics [x1; x2] sq) as (S1 & S2 & S3 & S4).
  exists (assemble [x1; x2] sq), b.
  split; [done|]. split; [exact Hres|].
  split; [exact Hasin|]. split; [exact Htitle|]. split; [exact Hauthor|].
  split; [by rewrite S2|]. split; [by rewrite S3|]. split; [exact S1|].
  by rewrite S4, Hres.
Qed.

End WithDate.

(** *** Concrete runs *)

(** The run on an element without ASIN, a valid element and a duplicate of
    it gives one book, one duplicate, no invalid record and two records
    read; with two distinct valid elements instead it gives two books and
    no duplicate.  Neither is the outcome of the scenario as specified. *)
Lemma scenario_as_specified_fails :
  (exists r,
     integrateAllBookData any_date
       (run_of [element_without_asin; dune; dune_again] no_collections) = Ok r /\
     length (books r) = 1 /\
     duplicateBookCount (statistics r) = 1 /\
     invalidBookCount (statistics r) = 0 /\
     xmlBookCount (statistics r) = 2 /\
     ~ scenario_as_specified r)
  /\
  (exists r,
     integrateAllBookData any_date
       (run_of [element_without_asin; dune; emma] no_collections) = Ok r /\
     length (books r) = 2 /\
     duplicateBookCount (statistics r) = 0 /\
     invalidBookCount (statistics r) = 0 /\
     xmlBookCount (statistics r) = 2 /\
     ~ scenario_as_specified r).
Proof.
  split.
  - eexists. split; [vm_compute; reflexivity|].
    repeat (split; [vm_compute; reflexivity|]).
    intros (H & _). vm_compute in H. discriminate H.
  - eexists. split; [vm_compute; reflexivity|].
    repeat (split; [vm_compute; reflexivity|]).
    intros (_ & H & _). vm_compute in H. discriminate H.
Qed.

(** The element without ASIN between the two copies of one book. *)
Lemma three_elements_scenario_witness :
  exists r b,
    integrateAllBookData any_date
      (run_of [dune; element_without_asin; dune_again] no_collections) = Ok r /\
    books r = [b] /\
    title b = JS.lit "Dune" /\
    duplicateBookCount (statistics r) = 1 /\
    invalidBookCount (statistics r) = 0 /\
    xmlBookCount (statistics r) = 2.
Proof.
  destruct (three_elements_scenario any_date
              (run_of [dune; element_without_asin; dune_again] no_collections)
              no_collections detected dune dune_again element_without_asin 1
              (default c2_book (extractSingleBookMetadata any_date dune))
              (default c2_book (extractSingleBookMetadata any_date dune_again)))
    as (r & b & Hr & Hb & _ & Ht & _ & Hd & Hi & Hx & _).
  - reflexivity.
  - reflexivity.
  - reflexivity.
  - reflexivity.
  - reflexivity.
  - vm_compute. reflexivity.
  - vm_compute. reflexivity.
  - vm_compute. reflexivity.
  - exists r, b. split; [exact Hr|]. split; [exact Hb|].
    split; [|by repeat split].
    rewrite Ht. vm_compute. reflexivity.
Defined.

Example library_run_collections :
  match integrateAllBookData any_date (run_of [dune; emma] library) with
  | Ok r => map collections (books r)
  | Throw _ => []
  end = [[JS.lit "Novels"; JS.lit "Classics"]; []].
Proof. vm_compute. reflexivity. Qed.

(** A record whose title is white space only passes [createSafeBook],
    which trims the title to the empty string; the final validation then
    drops the book and reports it, and the invalid counter stays at zero. *)
Example blank_title_dropped :
  let blank :=
    {| bm_asin := JS.lit "B000000009"; bm_title := JS.lit "   ";
       bm_titlePronunciation := None; bm_author := JS.lit "Nobody";
       bm_authorPronunciation := None; bm_publisher := None;
       bm_publicationDate := None; bm_purchaseDate := None;
       bm_contentType := None; bm_mimeType := None;
       bm_originType := None |} in
  map title (merged_books [blank] no_collections) = [[]] /\
  books (assemble [blank] no_collections) = [] /\
  errors (assemble [blank] no_collections)
    = Some [InvalidBookData (JS.lit "B000000009")] /\
  invalidBookCount (statistics (assemble [blank] no_collections)) = 0.
Proof. repeat split; vm_compute; reflexivity. Qed.

(** A run with two books, one of them in two collections. *)
Lemma integrate_invariant_witness :
  exists r,
    integrateAllBookData any_date (run_of [dune; emma] library) = Ok r /\
    length (books r) = 2 /\
    Forall IntegratorSpec.book_invariant (books r).
Proof.
  eexists. split; [vm_compute; reflexivity|]. split; [reflexivity|].
  apply (IntegratorFacts.integrate_invariant any_date
           (run_of [dune; emma] library)).
  vm_compute. reflexivity.
Defined.

End PipelineFacts.

(** ** The cache of the book service *)
Module CacheFacts.
Import BookModel BookDataService BookService.
Import CacheRuns.

Section WithPipeline.

Variable pipeline :
  nat -> Result IntegrationError BookDataIntegrationResult.








(** C10. When the run of the pipeline returns a result whose [errors] list
    is not empty, [getAllBooks] throws instead of returning the books of
    that result, and the cache fields are left as they were: an empty
    cache stays empty. *)
Theorem errors_make_getAllBooks_throw (now : Z) (st : State)
  (r : BookDataIntegrationResult) (d : Diagnostic) (ds : list Diagnostic) :
  cache_hit now st = None ->
  pipeline (runs st) = Ok r ->
  errors r = Some (d :: ds) ->
  fst (getAllBooks pipeline now st) = Throw (IntegrationErrors (d :: ds)) /\
  cachedBooks (snd (getAllBooks pipeline now st)) = cachedBooks st /\
  lastCacheTime (snd (getAllBooks pipeline now st)) = lastCacheTime st /\
  (cachedBooks st = None ->
   cachedBooks (snd (getAllBooks pipeline now st)) = None).
Proof.
  intros Hh Hr He. unfold getAllBooks. rewrite Hh, Hr, He. simpl.
  by repeat split.
Qed.

End WithPipeline.

(** *** Concrete runs *)



Example flawed_result_errors :
  errors flawed_result = Some [InvalidCollectionData []] /\
  length (books flawed_result) = 1.
Proof. split; vm_compute; reflexivity. Qed.

(** A run whose database holds a collection with a blank identifier:
    one book is integrated, one diagnostic is returned, and the call
    throws with an empty cache. *)
Lemma errors_make_getAllBooks_throw_witness :
  steady flawed_run 0 = Ok flawed_result /\
  fst (getAllBooks (steady flawed_run) 1000 initial)
    = Throw (IntegrationErrors [InvalidCollectionData []]) /\
  cachedBooks (snd (getAllBooks (steady flawed_run) 1000 initial)) = None.
Proof.
  split; [reflexivity|].
  destruct (errors_make_getAllBooks_throw (steady flawed_run) 1000 initial
              flawed_result (InvalidCollectionData []) [])
    as (H1 & _ & _ & H4).
  - reflexivity.
  - reflexivity.
  - vm_compute. reflexivity.
  - split; [exact H1 | by apply H4].
Defined.

End CacheFacts.

(** ** Path resolution *)
Module PathFacts.
Import PathDetector.
Import PathSpec.

Lemma usable_regular w p : usable_file w p -> regular_file w p.
Proof. intros (e & H1 & H2 & _). by exists e. Qed.

Lemma validateFile_ok w p : validateFile w p = Ok tt <-> usable_file w p.
Proof.
  unfold validateFile, usable_file. split.
  - destruct (fs w p) as [e|]; [|done].
    destruct (readable e) eqn:Hr; simpl; [|done].
    destruct (kind e) eqn:Hk; try done.
    destruct (size e =? 0)%Z eqn:Hs; [done|]. intros _.
    exists e. apply Z.eqb_neq in Hs. by rewrite Hr.
  - intros (e & -> & -> & -> & Hs). simpl.
    apply Z.eqb_neq in Hs. by rewrite Hs.
Qed.

(** No source tag is the string [cached]. *)
Lemma source_tag_not_cached s : source_tag s <> JS.lit "cached".
Proof. destruct s; vm_compute; discriminate. Qed.

Section WithPath.

Variable P : PathLib.

(** The re-validation of a directory succeeds exactly when it is a
    directory that holds the two usable target files. *)
Lemma validateKindlePath_ok w base ps :
  validateKindlePath P w base = Ok ps <->
  (exists e, fs w base = Some e /\ kind e = KDirectory) /\
  usable_file w (join P [base; TARGET_XML]) /\
  usable_file w (join P [base; JS.lit "db"; TARGET_DB]) /\
  ps = {| xmlPath := join P [base; TARGET_XML];
          dbPath := join P [base; JS.lit "db"; TARGET_DB] |}.
Proof.
  unfold validateKindlePath. rewrite <- !validateFile_ok. split.
  - destruct (fs w base) as [e|]; [|done].
    destruct (kind e) eqn:Hk; try done.
    destruct (validateFile w (join P [base; TARGET_XML])) as [[]|]; [|done].
    destruct (validateFile w (join P [base; JS.lit "db"; TARGET_DB]))
      as [[]|]; [|done].
    intros [= <-]. split; [by exists e | done].
  - intros ((e & -> & ->) & -> & -> & ->). done.
Qed.

Lemma env_override_regular w x d :
  KINDLE_XML_PATH (env w) = Some x -> KINDLE_DB_PATH (env w) = Some d ->
  JS.truthy x = true -> JS.truthy d = true ->
  regular_file w (resolve P x) -> regular_file w (resolve P d) ->
  env_override P w =
  Some {| xmlPath := resolve P x; dbPath := resolve P d |}.
Proof.
  intros Hx Hd Htx Htd (e1 & H1 & K1) (e2 & H2 & K2).
  unfold env_override. by rewrite Hx, Hd, Htx, Htd, H1, H2, K1, K2.
Qed.

Lemma env_override_some w ps :
  env_override P w = Some ps -> overrides_regular P w.
Proof.
  unfold env_override, overrides_regular.
  destruct (KINDLE_XML_PATH (env w)) as [x|]; [|done].
  destruct (KINDLE_DB_PATH (env w)) as [d|]; [|done].
  destruct (JS.truthy x) eqn:Htx; [|done].
  destruct (JS.truthy d) eqn:Htd; [|done]. simpl.
  destruct (fs w (resolve P x)) as [e1|] eqn:H1; [|done].
  destruct (fs w (resolve P d)) as [e2|] eqn:H2; [|done].
  destruct (kind e1) eqn:K1; try done.
  destruct (kind e2) eqn:K2; try done.
  intros _. exists x, d. repeat split; try done.
  - by exists e1.
  - by exists e2.
Qed.

(** The override test fails exactly when the overrides are not both
    supplied or do not both name existing regular files. *)
Lemma env_override_none_iff w :
  env_override P w = None <-> ~ overrides_regular P w.
Proof.
  split.
  - intros Hn (x & d & Hx & Hd & Htx & Htd & Hrx & Hrd).
    rewrite (env_override_regular w x d Hx Hd Htx Htd Hrx Hrd) in Hn.
    discriminate Hn.
  - intros Hno. destruct (env_override P w) as [ps|] eqn:E; [|done].
    exfalso. apply Hno. by eapply env_override_some.
Qed.

Lemma loadCachedConfiguration_valid w config ps :
  getCurrentConfiguration w = Some config ->
  (clock w - lastValidated config <= CACHE_VALIDITY_MS)%Z ->
  validateKindlePath P w (kindleCachePath config) = Ok ps ->
  loadCachedConfiguration P w = cached_result config ps.
Proof.
  intros Hc Ht Hv. unfold loadCachedConfiguration. rewrite Hc.
  apply Z.ltb_ge in Ht. by rewrite Ht, Hv.
Qed.

(** C5 (amended). On every call, two per-file overrides that are both set
    and both resolve to existing regular files are returned at once, with
    no look at the persisted resolution or at the candidates, whatever the
    flag; readability and size are not examined.  When the overrides are
    not both set or do not both name existing regular files, and
    [forceUpdate] is not set, a persisted resolution within its twenty-four
    hours that validates again is returned before any candidate is tried.
    When [forceUpdate] is set, the persisted resolution is skipped and the
    candidates are tried. *)
Theorem resolution_priority (w : World) :
  (forall forceUpdate x d,
      KINDLE_XML_PATH (env w) = Some x -> KINDLE_DB_PATH (env w) = Some d ->
      JS.truthy x = true -> JS.truthy d = true ->
      regular_file w (resolve P x) -> regular_file w (resolve P d) ->
      detectKindlePaths P forceUpdate w =
      ({| success := true;
          paths := Some {| xmlPath := resolve P x; dbPath := resolve P d |};
          error := None;
          searchedPaths := [resolve P x; resolve P d];
          source := SEnv |}, w))
  /\
  (forall config ps,
      ~ overrides_regular P w ->
      getCurrentConfiguration w = Some config ->
      (clock w - lastValidated config <= CACHE_VALIDITY_MS)%Z ->
      validateKindlePath P w (kindleCachePath config) = Ok ps ->
      detectKindlePaths P false w = (cached_result config ps, w))
  /\
  (~ overrides_regular P w ->
   detectKindlePaths P true w = detect_candidates P w).
Proof.
  split; [|split].
  - intros forceUpdate x d Hx Hd Htx Htd Hrx Hrd.
    unfold detectKindlePaths.
    by rewrite (env_override_regular w x d Hx Hd Htx Htd Hrx Hrd).
  - intros config ps Hnone Hc Ht Hv. apply env_override_none_iff in Hnone.
    unfold detectKindlePaths. rewrite Hnone. simpl.
    by rewrite (loadCachedConfiguration_valid w config ps Hc Ht Hv).
  - intros Hnone. apply env_override_none_iff in Hnone.
    unfold detectKindlePaths. by rewrite Hnone.
Qed.

(** C6 (amended). A persisted resolution that exists, is at most
    twenty-four hours old and validates again is what
    [loadCachedConfiguration] returns, and what [detectKindlePaths] returns
    when the override test fails and [forceUpdate] is not set; its source
    tag is the one stored with it, one of [auto], [manual] and [env], never
    [cached]. *)
Theorem cached_resolution_returned (w : World) (config : PathConfiguration)
  (ps : KindleCacheFiles) :
  getCurrentConfiguration w = Some config ->
  (clock w - lastValidated config <= CACHE_VALIDITY_MS)%Z ->
  validateKindlePath P w (kindleCachePath config) = Ok ps ->
  loadCachedConfiguration P w = cached_result config ps /\
  source (loadCachedConfiguration P w) = cfg_source config /\
  source_tag (source (loadCachedConfiguration P w)) <> JS.lit "cached" /\
  (~ overrides_regular P w ->
   detectKindlePaths P false w = (cached_result config ps, w)).
Proof.
  intros Hc Ht Hv.
  pose proof (loadCachedConfiguration_valid w config ps Hc Ht Hv) as Hl.
  split; [exact Hl|]. split; [by rewrite Hl|].
  split; [apply source_tag_not_cached|].
  intros Hnone. apply env_override_none_iff in Hnone.
  unfold detectKindlePaths. rewrite Hnone. simpl. by rewrite Hl.
Qed.

(** What [setManualPath] does reject: a path whose resolved form still
    contains two consecutive dots or one of the seven characters.  Nothing
    is written then. *)
Lemma setManualPath_rejects_resolved w manualPath :
  JS.truthy manualPath = true ->
  JS.includes (JS.lit "..") (resolve P (JS.trim manualPath)) = true \/
  JS.test_class invalidChars (resolve P (JS.trim manualPath)) = true ->
  exists e,
    (e = SecurityViolation \/ e = InvalidCharacters) /\
    setManualPath P manualPath w = (failure e [manualPath] SManual, w).
Proof.
  intros Ht H. unfold setManualPath, validateAndNormalizePath. rewrite Ht.
  simpl.
  destruct (JS.includes (JS.lit "..") (resolve P (JS.trim manualPath))) eqn:E.
  - exists SecurityViolation. split; [by left | done].
  - destruct H as [H|H]; [done|]. rewrite H.
    exists InvalidCharacters. split; [by right | done].
Qed.

End WithPath.

(** *** Concrete hosts *)

Example posix_resolve_traversal :
  posix_resolve cwd (JS.lit "/home/user/../../kindle") = JS.lit "/kindle"
  /\ posix_resolve cwd (JS.lit "a<b/../../../kindle") = JS.lit "/kindle"
  /\ posix_resolve cwd (JS.lit "cache/./x") = JS.lit "/srv/app/cache/x"
  /\ posix_join [JS.lit "/kindle"; JS.lit "db"; TARGET_DB]
     = JS.lit "/kindle/db/synced_collections.db".
Proof. repeat split; vm_compute; reflexivity. Qed.

(** The path of the repository's own test is rejected on POSIX, where a
    backslash is no separator and the two dots survive [path.resolve]; so
    are a name with a disallowed character and the empty path. *)
Example setManualPath_rejections :
  setManualPath (posix cwd) (JS.lit "C:\..\Windows\System32") fresh_host
    = (failure SecurityViolation
         [JS.lit "C:\..\Windows\System32"] SManual, fresh_host)
  /\ setManualPath (posix cwd) (JS.lit "/kindle?") fresh_host
    = (failure InvalidCharacters [JS.lit "/kindle?"] SManual,
       fresh_host)
  /\ setManualPath (posix cwd) [] fresh_host
    = (failure PathNotSpecified [[]] SManual, fresh_host).
Proof. repeat split; vm_compute; reflexivity. Qed.

(** C7 (the code at the failing inputs). A manual path with parent-directory
    segments, and one with a disallowed character in a segment that the
    traversal removes, are both accepted: [path.resolve] has removed the
    segments before the two tests look at the path, and the configuration
    is persisted. *)
Theorem setManualPath_accepts_traversal :
  JS.includes (JS.lit "..") (JS.lit "/home/user/../../kindle") = true
  /\ setManualPath (posix cwd) (JS.lit "/home/user/../../kindle") fresh_host =
     ({| success := true;
         paths := Some {| xmlPath := JS.lit "/kindle/KindleSyncMetadataCache.xml";
                          dbPath := JS.lit "/kindle/db/synced_collections.db" |};
         error := None;
         searchedPaths := [JS.lit "/kindle"];
         source := SManual |},
      {| fs := fs fresh_host; env := no_env;
         config_file := Some (stored "/kindle" "manual" 5000);
         config_writable := true; clock := 5000 |})
  /\ JS.test_class invalidChars (JS.lit "a<b/../../../kindle") = true
  /\ success (fst (setManualPath (posix cwd) (JS.lit "a<b/../../../kindle")
                     fresh_host)) = true
  /\ config_file (snd (setManualPath (posix cwd) (JS.lit "a<b/../../../kindle")
                         fresh_host))
     = Some (stored "/kindle" "manual" 5000).
Proof. repeat split; vm_compute; reflexivity. Qed.

(** The persisted resolution of [cached_host] is returned, and its tag is
    [auto], not [cached]. *)
Lemma cached_tag_as_specified_fails :
  success (loadCachedConfiguration (posix cwd) cached_host) = true /\
  paths (loadCachedConfiguration (posix cwd) cached_host) = Some kindle_files /\
  source_tag (source (loadCachedConfiguration (posix cwd) cached_host))
    = JS.lit "auto" /\
  source_tag (source (loadCachedConfiguration (posix cwd) cached_host))
    <> JS.lit "cached".
Proof.
  split; [vm_compute; reflexivity|]. split; [vm_compute; reflexivity|].
  split; [vm_compute; reflexivity|]. vm_compute. discriminate.
Qed.

(** The persisted resolution of [cached_host]. *)
Lemma cached_resolution_returned_witness :
  loadCachedConfiguration (posix cwd) cached_host
    = cached_result kindle_config kindle_files /\
  source (loadCachedConfiguration (posix cwd) cached_host) = SAuto /\
  detectKindlePaths (posix cwd) false cached_host
    = (cached_result kindle_config kindle_files, cached_host).
Proof.
  destruct (cached_resolution_returned (posix cwd) cached_host
              kindle_config kindle_files) as (H1 & H2 & _ & H4).
  - vm_compute. reflexivity.
  - vm_compute. discriminate.
  - vm_compute. reflexivity.
  - split; [exact H1|]. split; [exact H2|]. apply H4.
    apply (env_override_none_iff (posix cwd)). vm_compute. reflexivity.
Defined.

(** With [forceUpdate] set, the valid persisted resolution [/manual] is
    passed over for the directory under the user profile; and two
    overrides that name empty files are returned although a valid
    persisted resolution exists. *)
Lemma priority_as_specified_fails :
  ~ priority_as_specified (posix cwd) true two_dirs_host /\
  ~ priority_as_specified (posix cwd) false empty_overrides_host.
Proof.
  split.
  - intros [_ H].
    assert (Hno : ~ overrides_usable (posix cwd) two_dirs_host).
    { intros (x & d & Hx & _). vm_compute in Hx. discriminate Hx. }
    specialize (H Hno manual_config manual_files).
    assert (Hp : paths (fst (detectKindlePaths (posix cwd) true two_dirs_host))
                 = Some manual_files).
    { apply H; [vm_compute; reflexivity | vm_compute; discriminate
               | vm_compute; reflexivity]. }
    vm_compute in Hp. discriminate Hp.
  - intros [_ H].
    assert (Hno : ~ overrides_usable (posix cwd) empty_overrides_host).
    { intros (x & d & Hx & _ & _ & _ & (e & He & _ & _ & Hs) & _).
      vm_compute in Hx. injection Hx as <-.
      vm_compute in He. injection He as <-.
      by apply Hs. }
    specialize (H Hno manual_config manual_files).
    assert (Hp : paths (fst (detectKindlePaths (posix cwd) false
                               empty_overrides_host))
                 = Some manual_files).
    { apply H; [vm_compute; reflexivity | vm_compute; discriminate
               | vm_compute; reflexivity]. }
    vm_compute in Hp. discriminate Hp.
Qed.

Example forced_refresh_skips_cache :
  paths (fst (detectKindlePaths (posix cwd) true two_dirs_host)) =
  Some {| xmlPath :=
            JS.lit "/home/u/AppData/Local/Amazon/Kindle/Cache/KindleSyncMetadataCache.xml";
          dbPath :=
            JS.lit "/home/u/AppData/Local/Amazon/Kindle/Cache/db/synced_collections.db" |}
  /\ paths (fst (detectKindlePaths (posix cwd) false two_dirs_host)) =
     Some manual_files.
Proof. split; vm_compute; reflexivity. Qed.

(** Usable overrides win with and without the flag; without overrides
    the persisted resolution wins unless the flag is set. *)
Lemma resolution_priority_witness :
  paths (fst (detectKindlePaths (posix cwd) false overrides_host)) =
    Some {| xmlPath := JS.lit "/o/meta.xml"; dbPath := JS.lit "/o/coll.db" |}
  /\ source (fst (detectKindlePaths (posix cwd) true overrides_host)) = SEnv
  /\ detectKindlePaths (posix cwd) false two_dirs_host
     = (cached_result manual_config manual_files, two_dirs_host)
  /\ detectKindlePaths (posix cwd) true two_dirs_host
     = detect_candidates (posix cwd) two_dirs_host.
Proof.
  destruct (resolution_priority (posix cwd) overrides_host) as (Ha & _ & _).
  destruct (resolution_priority (posix cwd) two_dirs_host) as (_ & Hb & Hc).
  assert (Hreg1 : regular_file overrides_host
                    (resolve (posix cwd) (JS.lit "/o/meta.xml"))).
  { exists (file_entry 100). split; vm_compute; reflexivity. }
  assert (Hreg2 : regular_file overrides_host
                    (resolve (posix cwd) (JS.lit "/o/coll.db"))).
  { exists (file_entry 200). split; vm_compute; reflexivity. }
  split; [|split; [|split]].
  - rewrite (Ha false (JS.lit "/o/meta.xml") (JS.lit "/o/coll.db")
               eq_refl eq_refl eq_refl eq_refl Hreg1 Hreg2).
    vm_compute. reflexivity.
  - by rewrite (Ha true (JS.lit "/o/meta.xml") (JS.lit "/o/coll.db")
                  eq_refl eq_refl eq_refl eq_refl Hreg1 Hreg2).
  - apply Hb; [apply (env_override_none_iff (posix cwd)); vm_compute; reflexivity
              | vm_compute; reflexivity
              | vm_compute; discriminate | vm_compute; reflexivity].
  - apply Hc. apply (env_override_none_iff (posix cwd)).
    vm_compute. reflexivity.
Defined.

End PathFacts.


(** ** Further properties: the data model *)
Module ModelFacts.
Import BookModel ExtraSpec.

Lemma validateAsin_truthy s b : validateAsin s = Ok b -> JS.truthy s = true.
Proof. unfold validateAsin. by destruct (JS.truthy s). Qed.

Lemma validateAsin_is_ok s :
  is_ok (validateAsin s) = JS.truthy s && ASIN_PATTERN_test s.
Proof.
  unfold validateAsin. destruct (JS.truthy s); simpl; [|done].
  by destruct (ASIN_PATTERN_test s).
Qed.

Lemma zero_le_of_int z :
  JSMore.zero_le (QArith_base.inject_Z z) = (0 <=? z)%Z.
Proof.
  unfold JSMore.zero_le, QArith_base.Qle_bool, QArith_base.inject_Z.
  cbn [QArith_base.Qnum QArith_base.Qden]. f_equal. lia.
Qed.

Lemma math_max_0_of_int z :
  JSMore.math_max_0 (JSMore.of_int z) = JSMore.of_int (Z.max 0 z).
Proof.
  unfold JSMore.math_max_0, JSMore.of_int. rewrite zero_le_of_int.
  destruct (Z.leb_spec 0 z).
  - by rewrite Z.max_r.
  - by rewrite Z.max_l by lia.
Qed.

Lemma less_than_0_max x :
  JSMore.less_than_0 (JSMore.math_max_0 x) = false.
Proof.
  destruct x as [| | |q]; try done.
  unfold JSMore.math_max_0. destruct (JSMore.zero_le q) eqn:E.
  - unfold JSMore.less_than_0. by rewrite E.
  - done.
Qed.

Lemma math_max_0_nan x :
  JSMore.math_max_0 x = JSMore.NaN <-> x = JSMore.NaN.
Proof.
  destruct x as [| | |q]; try done.
  unfold JSMore.math_max_0. by destruct (JSMore.zero_le q).
Qed.

Lemma math_max_0_non_negative x :
  x <> JSMore.NaN -> non_negative (JSMore.math_max_0 x).
Proof.
  destruct x as [| | |q]; intros Hx; try done.
  unfold JSMore.math_max_0. destruct (JSMore.zero_le q) eqn:E.
  - simpl. by apply QArith_base.Qle_bool_imp_le.
  - simpl. apply QArith_base.Qle_refl.
Qed.

Lemma createSafeCollection_typed (typed : PartialCollection) :
  RawCollections.createSafeCollection (RawCollections.raw_partial typed)
  = match createSafeCollection typed with
    | Ok c => Ok (RawCollections.safe_of c)
    | Throw e => Throw (RawCollections.Rejected e)
    end.
Proof.
  unfold RawCollections.createSafeCollection, createSafeCollection,
    RawCollections.raw_partial.
  cbn [RawCollections.rp_id RawCollections.rp_name RawCollections.rp_bookCount
       RawCollections.rp_lastUpdated].
  destruct (JS.truthy_opt (pc_id typed)); cbn [negb]; [|done].
  destruct (JS.truthy_opt (pc_name typed)); cbn [negb]; [|done].
  unfold RawCollections.safe_of. cbn [coll_id coll_name bookCount lastUpdated].
  destruct (pc_lastUpdated typed) as [t|]; cbn [option_map JSMore.optional_trim];
    (f_equal; f_equal;
     destruct (pc_bookCount typed) as [n|]; cbn [option_map default from_option id];
     apply math_max_0_of_int).
Qed.

(** X1. [createSafeCollection] fails exactly when the identifier or the
    name is missing or empty, or when [lastUpdated] is there and is not a
    string (the [TypeError] of [trim]); never because of the count.  A
    count that is missing or not a number becomes zero, a negative one is
    raised to zero, and [NaN] stays [NaN]: the count of the collection it
    returns is [NaN] exactly when the count it was given is [NaN], and is
    not negative otherwise.  The collection it returns passes
    [isValidCollection] exactly when identifier and name are not white
    space only, also with a count of [NaN].  On values of the declared
    types it is the [createSafeCollection] of the integer counts. *)
Theorem createSafeCollection_clamps
  (data : RawCollections.RawPartialCollection) (typed : PartialCollection) :
  is_ok (RawCollections.createSafeCollection data)
    = JS.truthy_opt (RawCollections.rp_id data)
      && JS.truthy_opt (RawCollections.rp_name data)
      && match RawCollections.rp_lastUpdated data with
         | Some JSMore.NotString => false
         | _ => true
         end
  /\
  (forall c,
      RawCollections.createSafeCollection data = Ok c ->
      RawCollections.safe_bookCount c
        = JSMore.math_max_0
            (default (JSMore.of_int 0) (RawCollections.rp_bookCount data)) /\
      (RawCollections.safe_bookCount c = JSMore.NaN <->
       RawCollections.rp_bookCount data = Some JSMore.NaN) /\
      (RawCollections.rp_bookCount data <> Some JSMore.NaN ->
       non_negative (RawCollections.safe_bookCount c)) /\
      (RawCollections.isValidCollection c = true <->
       JS.trim (default [] (RawCollections.rp_id data)) <> [] /\
       JS.trim (default [] (RawCollections.rp_name data)) <> []))
  /\
  RawCollections.createSafeCollection (RawCollections.raw_partial typed)
  = match createSafeCollection typed with
    | Ok c => Ok (RawCollections.safe_of c)
    | Throw e => Throw (RawCollections.Rejected e)
    end.
Proof.
  split; [|split; [|apply createSafeCollection_typed]].
  - unfold RawCollections.createSafeCollection.
    destruct (JS.truthy_opt (RawCollections.rp_id data)); simpl; [|done].
    destruct (JS.truthy_opt (RawCollections.rp_name data)); simpl; [|done].
    by destruct (RawCollections.rp_lastUpdated data) as [[t|]|].
  - intros c Hc. unfold RawCollections.createSafeCollection in Hc.
    destruct (JS.truthy_opt (RawCollections.rp_id data)); simpl in Hc; [|done].
    destruct (JS.truthy_opt (RawCollections.rp_name data)); simpl in Hc;
      [|done].
    destruct (JSMore.optional_trim (RawCollections.rp_lastUpdated data))
      as [stamp|]; [|done].
    injection Hc as <-. cbn [RawCollections.safe_bookCount].
    split; [done|]. split.
    { rewrite math_max_0_nan.
      destruct (RawCollections.rp_bookCount data) as [x|]; simpl.
      - split; [by intros -> | by intros [= ->]].
      - split; [done|done]. }
    split.
    { intros Hn. apply math_max_0_non_negative.
      destruct (RawCollections.rp_bookCount data) as [x|]; simpl; [|done].
      intros ->. done. }
    unfold RawCollections.isValidCollection.
    cbn [RawCollections.safe_id RawCollections.safe_name
         RawCollections.safe_bookCount].
    rewrite less_than_0_max. rewrite <- !JSFacts.truthy_nonempty.
    destruct (JS.truthy (JS.trim (default [] (RawCollections.rp_id data))));
      simpl; [|split; [done | by intros [? _]]].
    destruct (JS.truthy (JS.trim (default [] (RawCollections.rp_name data))));
      simpl; [|split; [done | by intros [_ ?]]].
    done.
Qed.

(** X2. [createSafeBook] succeeds exactly when identifier, title and author
    are present and not empty and the identifier matches the ASIN pattern;
    the book it returns passes [isValidBook] exactly when title and author
    are not white space only. *)
Theorem createSafeBook_valid_iff (data : PartialBook) :
  is_ok (createSafeBook data)
    = JS.truthy_opt (p_asin data) && JS.truthy_opt (p_title data)
      && JS.truthy_opt (p_author data)
      && ASIN_PATTERN_test (default [] (p_asin data))
  /\
  (forall b,
      createSafeBook data = Ok b ->
      (isValidBook b = true <->
       JS.trim (default [] (p_title data)) <> [] /\
       JS.trim (default [] (p_author data)) <> [])).
Proof.
  unfold createSafeBook.
  destruct (JS.truthy_opt (p_asin data)) eqn:Ha; simpl; [|by split].
  destruct (JS.truthy_opt (p_title data)); simpl; [|by split].
  destruct (JS.truthy_opt (p_author data)); simpl; [|by split].
  assert (Hta : JS.truthy (default [] (p_asin data)) = true).
  { by destruct (p_asin data). }
  pose proof (validateAsin_is_ok (default [] (p_asin data))) as Hok.
  rewrite Hta in Hok. simpl in Hok.
  destruct (validateAsin (default [] (p_asin data))) as [ok|e] eqn:Hv;
    simpl in Hok; rewrite <- Hok; (split; [done|]); [|done].
  intros b [= <-]. unfold isValidBook. simpl. rewrite Hta, Hv. simpl.
  rewrite <- !JSFacts.truthy_nonempty.
  destruct (JS.truthy (JS.trim (default [] (p_title data)))); simpl;
    [|split; [done | by intros [? _]]].
  destruct (JS.truthy (JS.trim (default [] (p_author data)))); simpl;
    [by split | split; [done | by intros [_ ?]]].
Qed.

Lemma filter_keeps_idem l :
  List.filter keeps (List.filter keeps l) = List.filter keeps l.
Proof.
  induction l as [|x r IH]; simpl; [done|].
  destruct (keeps x) eqn:E; simpl; [|done]. by rewrite E, IH.
Qed.

Lemma option_map_trim_idem o :
  option_map JS.trim (option_map JS.trim o) = option_map JS.trim o.
Proof. destruct o; simpl; [|done]. by rewrite JSFacts.trim_idem. Qed.

(** X3. A book that [createSafeBook] returned and that passes
    [isValidBook] is a fixed point: handed back to [createSafeBook] it
    comes out unchanged, unless its cover URL was trimmed to the empty
    string (which the second pass would drop). *)
Theorem createSafeBook_fixed (data : PartialBook) (b : Book) :
  createSafeBook data = Ok b ->
  isValidBook b = true ->
  coverUrl b <> Some [] ->
  createSafeBook (as_partial b) = Ok b.
Proof.
  intros Hc Hv Hcover.
  assert (Hvalid : exists ok, validateAsin (asin b) = Ok ok).
  { unfold isValidBook in Hv.
    destruct (JS.truthy (asin b)); simpl in Hv; [|done].
    destruct (JS.truthy (title b)); simpl in Hv; [|done].
    destruct (JS.truthy (author b)); simpl in Hv; [|done].
    destruct (validateAsin (asin b)) as [ok|]; [by exists ok | done]. }
  destruct Hvalid as [ok Hok].
  destruct (IntegratorFacts.isValidBook_truthy _ Hv) as [Ht Hau].
  unfold createSafeBook in Hc.
  destruct (JS.truthy_opt (p_asin data)); simpl in Hc; [|done].
  destruct (JS.truthy_opt (p_title data)); simpl in Hc; [|done].
  destruct (JS.truthy_opt (p_author data)); simpl in Hc; [|done].
  destruct (validateAsin (default [] (p_asin data))) as [ok'|]; [|done].
  injection Hc as Hb. subst b. simpl in *.
  unfold createSafeBook, as_partial. simpl.
  rewrite (validateAsin_truthy _ _ Hok), Ht, Hau. simpl. rewrite Hok.
  rewrite !JSFacts.trim_idem, filter_keeps_idem, !option_map_trim_idem.
  f_equal. f_equal.
  - destruct (p_tags data) as [l|]; simpl; [|done].
    by rewrite filter_keeps_idem.
  - destruct (JS.truthy_opt (p_coverUrl data)) eqn:E; simpl; [|done].
    destruct (p_coverUrl data) as [u|]; simpl in *; [|done].
    destruct (JS.trim u) as [|c r] eqn:Hu; [done|].
    simpl. by rewrite <- Hu, JSFacts.trim_idem.
Qed.

(** A padded record: the result is a fixed point. *)
Lemma createSafeBook_fixed_witness :
  exists b,
    createSafeBook padded_book = Ok b /\
    title b = JS.lit "Dune" /\
    collections b = [JS.lit "Novels"; JS.lit "Classics"] /\
    createSafeBook (as_partial b) = Ok b.
Proof.
  eexists. split; [vm_compute; reflexivity|].
  split; [reflexivity|]. split; [reflexivity|].
  apply (createSafeBook_fixed padded_book).
  - vm_compute. reflexivity.
  - vm_compute. reflexivity.
  - vm_compute. discriminate.
Defined.

Lemma pattern_class_same c : ErrorsUtil.pattern_class c = in_AZ09 c.
Proof. reflexivity. Qed.

(** X4. The [validateAsin] of utils/errors.ts returns normally exactly on
    the strings of ten characters from [A-Z0-9], so it accepts and rejects
    the same strings as the [validateAsin] of models/book.ts. *)
Theorem validateAsin_variants_agree (s : jsstring) :
  (ErrorsUtil.validateAsin s = Ok tt <-> well_formed_asin s) /\
  is_ok (ErrorsUtil.validateAsin s) = is_ok (validateAsin s).
Proof.
  assert (Hsame : is_ok (ErrorsUtil.validateAsin s) = is_ok (validateAsin s)).
  { unfold ErrorsUtil.validateAsin, validateAsin, ASIN_PATTERN_test.
    destruct (JS.truthy s); simpl; [|done].
    rewrite (JSFacts.test_anchored_rep_ext _ _ pattern_class_same).
    by destruct (JS.test_anchored_rep in_AZ09 10 s). }
  split; [|exact Hsame].
  split.
  - intros H. rewrite H in Hsame. simpl in Hsame.
    destruct (validateAsin s) as [b|] eqn:E; [|done].
    by eapply AsinFacts.validateAsin_ok_well_formed.
  - intros Hw. apply AsinFacts.ASIN_PATTERN_test_spec in Hw.
    unfold ErrorsUtil.validateAsin.
    assert (Ht : JS.truthy s = true).
    { apply JSFacts.test_anchored_rep_spec in Hw as [Hl _]. by destruct s. }
    rewrite Ht. simpl.
    rewrite (JSFacts.test_anchored_rep_ext _ _ pattern_class_same).
    unfold ASIN_PATTERN_test in Hw. by rewrite Hw.
Qed.

(** A count of [NaN] stays [NaN], and the collection is valid. *)
Lemma createSafeCollection_clamps_witness :
  exists c,
    RawCollections.createSafeCollection nan_count = Ok c /\
    RawCollections.safe_bookCount c = JSMore.NaN /\
    RawCollections.isValidCollection c = true.
Proof.
  destruct (RawCollections.createSafeCollection nan_count) as [c|e] eqn:Hc;
    [|vm_compute in Hc; discriminate].
  exists c. split; [done|].
  destruct (proj1 (proj2 (createSafeCollection_clamps nan_count
                            negative_count)) c Hc)
    as (_ & Hnan & _ & Hvalid).
  split; [by apply Hnan|].
  apply Hvalid. split; vm_compute; discriminate.
Defined.

(** The padded book is built and is valid. *)
Lemma createSafeBook_valid_iff_witness :
  exists b, createSafeBook padded_book = Ok b /\ isValidBook b = true.
Proof.
  destruct (createSafeBook padded_book) as [b|e] eqn:Hb;
    [|vm_compute in Hb; discriminate].
  exists b. split; [done|].
  apply (proj2 (createSafeBook_valid_iff padded_book) b Hb).
  split; vm_compute; discriminate.
Defined.

End ModelFacts.


(** ** Further properties: the extractor *)
Module ExtractorFacts.
Import BookModel KindleParser ExtraSpec.

Lemma trim_nonempty_truthy s : JS.trim s <> [] -> JS.truthy s = true.
Proof.
  intros H. apply JSFacts.trim_truthy. by apply JSFacts.truthy_nonempty.
Qed.

Section WithDate.

Variable date_is_valid : jsstring -> bool.

Lemma extractTitle_node m :
  extractTitle m =
  match e_title m with
  | Some node =>
      Ok (JS.trim (node_string node),
          match node with
          | TextStr _ => None
          | TextObj _ pron => option_map JS.trim pron
          end)
  | None => Throw BadTitle
  end.
Proof. unfold extractTitle. by destruct (e_title m) as [[s|text pron]|]. Qed.

(** X5. The batches of one hundred change nothing: the extractor returns
    the records of the elements it keeps, in the order of the document, so
    the records of two lists joined are the records of the first followed
    by those of the second; a lone element is handled as a list of one; and
    there are never more records than elements. *)
Theorem extractBookMetadata_in_order (l1 l2 : list MetadataElement)
  (e : MetadataElement) :
  extractBookMetadata date_is_valid {| meta_data := Some (MetaMany l1) |}
    = omap (extractSingleBookMetadata date_is_valid) l1
  /\ extractBookMetadata date_is_valid
       {| meta_data := Some (MetaMany (l1 ++ l2)) |}
     = extractBookMetadata date_is_valid {| meta_data := Some (MetaMany l1) |}
       ++ extractBookMetadata date_is_valid
            {| meta_data := Some (MetaMany l2) |}
  /\ extractBookMetadata date_is_valid {| meta_data := Some (MetaOne e) |}
     = extractBookMetadata date_is_valid {| meta_data := Some (MetaMany [e]) |}
  /\ length (extractBookMetadata date_is_valid
               {| meta_data := Some (MetaMany l1) |}) <= length l1
  /\ extractBookMetadata date_is_valid {| meta_data := None |} = [].
Proof.
  unfold extractBookMetadata. simpl.
  rewrite !ParserFacts.processLargeMetadataList_omap.
  split; [done|]. split; [apply omap_app|]. split; [done|].
  split; [|done].
  clear. induction l1 as [|m r IH]; [done|].
  cbn [omap list_omap]. destruct (extractSingleBookMetadata date_is_valid m);
    simpl in *; lia.
Qed.






Lemma extractDate_clean d : clean_date date_is_valid (extractDate date_is_valid d).
Proof.
  unfold extractDate, clean_date. intros dt.
  destruct d as [x|]; [|done].
  destruct (JS.truthy x); simpl; [|done].
  destruct (JS.truthy (JS.trim x)) eqn:Ht; simpl; [|done].
  destruct (date_is_valid (JS.trim x)) eqn:Hd; simpl; [|done].
  intros [= <-]. split; [by apply JSFacts.truthy_nonempty|].
  split; [apply JSFacts.trim_idem | done].
Qed.

(** X7. Every record of the extractor has a well-formed ASIN, a title that
    is trimmed and not empty, and an author that is not empty and does not
    start with white space (the placeholder stands in when no author
    survives); a date it carries is trimmed, not empty and accepted by the
    date parser. *)
Theorem extracted_records_clean (doc : KindleXMLStructure) :
  Forall
    (fun x =>
       well_formed_asin (bm_asin x) /\
       bm_title x <> [] /\ JS.trim (bm_title x) = bm_title x /\
       bm_author x <> [] /\ JS.trim (bm_author x) <> [] /\
       clean_date date_is_valid (bm_publicationDate x) /\
       clean_date date_is_valid (bm_purchaseDate x))
    (extractBookMetadata date_is_valid doc).
Proof.
  assert (Hone : forall m x, extractSingleBookMetadata date_is_valid m = Some x ->
            well_formed_asin (bm_asin x) /\
            bm_title x <> [] /\ JS.trim (bm_title x) = bm_title x /\
            bm_author x <> [] /\ JS.trim (bm_author x) <> [] /\
            clean_date date_is_valid (bm_publicationDate x) /\
            clean_date date_is_valid (bm_purchaseDate x)).
  { intros m x Hx.
    destruct (ParserFacts.extractSingleBookMetadata_some _ _ _ Hx)
      as (Hv & Ht & Ha).
    split; [by eapply AsinFacts.validateAsin_ok_well_formed|].
    split; [apply JSFacts.truthy_nonempty; by apply ParserFacts.headed_truthy|].
    split.
    { unfold extractSingleBookMetadata in Hx. rewrite extractTitle_node in Hx.
      destruct (JS.truthy_opt (ASIN m)); simpl in Hx; [|done].
      destruct (validateAsin _); [|done].
      destruct (e_title m) as [node|]; [|done].
      destruct (JS.truthy (JS.trim (node_string node))); simpl in Hx; [|done].
      destruct (extractAuthor m). injection Hx as <-. simpl.
      apply JSFacts.trim_idem. }
    split; [apply JSFacts.truthy_nonempty; by apply ParserFacts.headed_truthy|].
    split; [apply JSFacts.truthy_nonempty; by apply ParserFacts.headed_trim|].
    unfold extractSingleBookMetadata in Hx.
    destruct (JS.truthy_opt (ASIN m)); simpl in Hx; [|done].
    destruct (validateAsin _); [|done].
    destruct (extractTitle m) as [[t tp]|]; [|done].
    destruct (JS.truthy t); simpl in Hx; [|done].
    destruct (extractAuthor m). injection Hx as <-. simpl.
    split; apply extractDate_clean. }
  assert (Hall : forall l, Forall
            (fun x =>
               well_formed_asin (bm_asin x) /\
               bm_title x <> [] /\ JS.trim (bm_title x) = bm_title x /\
               bm_author x <> [] /\ JS.trim (bm_author x) <> [] /\
               clean_date date_is_valid (bm_publicationDate x) /\
               clean_date date_is_valid (bm_purchaseDate x))
            (omap (extractSingleBookMetadata date_is_valid) l)).
  { intros l. apply Forall_forall. intros x Hx.
    apply list_elem_of_omap in Hx as (m & _ & Hm). by eapply Hone. }
  unfold extractBookMetadata.
  destruct (meta_data doc) as [[e|l]|]; [| |constructor];
    rewrite ParserFacts.processLargeMetadataList_omap; apply Hall.
Qed.

End WithDate.

(** The element of the examples is kept; its ASIN and title are trimmed,
    the blank author is passed over, the unparsable date is dropped and
    the first origin decides. *)
Example rich_element_extracted :
  extractSingleBookMetadata starts_with_digit rich_element =
  Some {| bm_asin := JS.lit "B00ABCDEF1";
          bm_title := JS.lit "Kokoro";
          bm_titlePronunciation := Some (JS.lit "kokoro");
          bm_author := JS.lit "Natsume Soseki, Edwin McClellan";
          bm_authorPronunciation := None;
          bm_publisher := Some (JS.lit "Regnery");
          bm_publicationDate := Some (JS.lit "1957-01-01");
          bm_purchaseDate := None;
          bm_contentType := Some (JS.lit "EBOK");
          bm_mimeType := None;
          bm_originType := Some KindleUnlimited |}.
Proof. vm_compute. reflexivity. Qed.


End ExtractorFacts.


(** ** Further properties: the checks on the XML file *)
Module XmlFileFacts.
Import BookModel ExtraSpec.
Import BookDataService.

Section WithPlatform.

Variable P : PathDetector.PathLib.
Variable toLowerCase : jsstring -> jsstring.
Variable date_is_valid : jsstring -> bool.
Variable read_and_parse :
  jsstring -> Result FileError KindleParser.KindleXMLStructure.

Lemma validateFileAccess_ok w p stats :
  KindleParserIO.validateFileAccess w p = Ok stats <->
  PathDetector.fs w p = Some stats /\
  PathDetector.kind stats = PathDetector.KFile /\
  (0 < PathDetector.size stats \/ PathDetector.size stats < 0)%Z /\
  (PathDetector.size stats <= KindleParserIO.MAX_FILE_SIZE)%Z.
Proof.
  unfold KindleParserIO.validateFileAccess. split.
  - destruct (PathDetector.fs w p) as [e|]; [|done].
    destruct (PathDetector.kind e) eqn:K; try done.
    destruct (_ <? _)%Z eqn:E1; [done|].
    destruct (_ =? _)%Z eqn:E2; [done|].
    intros [= <-]. apply Z.ltb_ge in E1. apply Z.eqb_neq in E2.
    repeat split; try done. lia.
  - intros (-> & -> & Hs & Hm).
    apply Z.ltb_ge in Hm. rewrite Hm.
    destruct (PathDetector.size stats =? 0)%Z eqn:E2; [|done].
    apply Z.eqb_eq in E2. lia.
Qed.

(** X8. When [parseXMLFile] returns, the resolved path starts with the
    expected cache directory and ends in [.xml] (in any letter case), the
    file is a regular file that is not empty and not above ten mebibytes,
    and the statistics give the number of returned records as total and
    as successes with an error count of zero, however many elements were
    skipped.  Under a path that passes the path checks, a missing file, a
    directory, a file above the limit and an empty file each give their
    own error before anything is read. *)
Theorem parseXMLFile_checks (w : PathDetector.World)
  (userProfile xmlPath : jsstring) :
  (forall books stats,
      KindleParserIO.parseXMLFile P toLowerCase date_is_valid read_and_parse
        w userProfile xmlPath = Ok (books, stats) ->
      JS.startsWith (KindleParserIO.EXPECTED_KINDLE_CACHE_DIR P userProfile)
        (PathDetector.resolve P xmlPath) = true /\
      JSMore.endsWith (JS.lit ".xml")
        (toLowerCase (PathDetector.resolve P xmlPath)) = true /\
      (exists e, PathDetector.fs w xmlPath = Some e /\
                 PathDetector.kind e = PathDetector.KFile /\
                 PathDetector.size e <> 0%Z /\
                 (PathDetector.size e <= KindleParserIO.MAX_FILE_SIZE)%Z /\
                 KindleParserIO.fileSizeBytes stats = PathDetector.size e) /\
      KindleParserIO.totalBooks stats = length books /\
      KindleParserIO.successCount stats = length books /\
      KindleParserIO.errorCount stats = 0)
  /\
  (KindleParserIO.validateFilePath P toLowerCase userProfile xmlPath = Ok tt ->
   KindleParserIO.parseXMLFile P toLowerCase date_is_valid read_and_parse
     w userProfile xmlPath =
   match PathDetector.fs w xmlPath with
   | None => Throw NotFound
   | Some e =>
       match PathDetector.kind e with
       | PathDetector.KFile =>
           if (KindleParserIO.MAX_FILE_SIZE <? PathDetector.size e)%Z
           then Throw TooLarge
           else if (PathDetector.size e =? 0)%Z then Throw EmptyFile
           else
             match read_and_parse xmlPath with
             | Ok doc =>
                 let books :=
                   KindleParser.extractBookMetadata date_is_valid doc in
                 Ok (books,
                     KindleParserIO.mkParseStats (length books) (length books)
                       0 (PathDetector.size e))
             | Throw err => Throw err
             end
       | _ => Throw NotAFile
       end
   end).
Proof.
  split.
  - intros books stats H.
    unfold KindleParserIO.parseXMLFile, KindleParserIO.xml_phase in H.
    unfold KindleParserIO.validateFilePath in H.
    destruct (JS.startsWith _ _) eqn:Hs; simpl in H; [|done].
    destruct (JSMore.endsWith _ _) eqn:He; simpl in H; [|done].
    destruct (KindleParserIO.validateFileAccess w xmlPath) as [e|] eqn:Ha;
      [|done].
    destruct (read_and_parse xmlPath) as [doc|]; [|done].
    injection H as <- <-. simpl.
    apply validateFileAccess_ok in Ha as (Hf & Hk & Hz & Hm).
    split; [done|]. split; [done|]. split; [|done].
    exists e. repeat split; try done. lia.
  - intros Hpath.
    unfold KindleParserIO.parseXMLFile, KindleParserIO.xml_phase.
    rewrite Hpath. unfold KindleParserIO.validateFileAccess.
    destruct (PathDetector.fs w xmlPath) as [e|]; [|done].
    destruct (PathDetector.kind e); try done.
    destruct (_ <? _)%Z; [done|]. destruct (_ =? _)%Z; [done|].
    by destruct (read_and_parse xmlPath).
Qed.

(** X9. A metadata file without bytes at the detected path makes the
    extraction fail, and with it [integrateAllBookData]; a call of
    [getAllBooks] that needs this run throws and leaves the cache as it
    was. *)
Theorem empty_xml_file_fails (w : PathDetector.World) (userProfile : jsstring)
  (detection : PathDetector.PathDetectionResult)
  (ps : PathDetector.KindleCacheFiles) (e : PathDetector.FsEntry)
  (db : jsstring -> Result FileError SqliteResult) :
  PathDetector.success detection = true ->
  PathDetector.paths detection = Some ps ->
  KindleParserIO.validateFilePath P toLowerCase userProfile
    (PathDetector.xmlPath ps) = Ok tt ->
  PathDetector.fs w (PathDetector.xmlPath ps) = Some e ->
  PathDetector.kind e = PathDetector.KFile ->
  PathDetector.size e = 0%Z ->
  integrateAllBookData date_is_valid
    (host_phases P toLowerCase read_and_parse w userProfile detection db)
    = Throw (DATA_MERGE_FAILED (XmlFailed EmptyFile))
  /\
  (forall pipeline now st,
      BookService.cache_hit now st = None ->
      pipeline (BookService.runs st) =
        integrateAllBookData date_is_valid
          (host_phases P toLowerCase read_and_parse w userProfile detection db) ->
      fst (BookService.getAllBooks pipeline now st) =
        Throw (BookService.IntegrationThrew
                 (DATA_MERGE_FAILED (XmlFailed EmptyFile))) /\
      BookService.cachedBooks (snd (BookService.getAllBooks pipeline now st))
        = BookService.cachedBooks st /\
      BookService.lastCacheTime (snd (BookService.getAllBooks pipeline now st))
        = BookService.lastCacheTime st).
Proof.
  intros Hs Hp Hpath Hf Hk Hz.
  assert (Hint : integrateAllBookData date_is_valid
            (host_phases P toLowerCase read_and_parse w userProfile detection db)
            = Throw (DATA_MERGE_FAILED (XmlFailed EmptyFile))).
  { unfold integrateAllBookData, host_phases. cbn [pathResult xmlDocument].
    rewrite Hs, Hp. unfold KindleParserIO.xml_phase. rewrite Hpath.
    unfold KindleParserIO.validateFileAccess. rewrite Hf, Hk, Hz. done. }
  split; [exact Hint|].
  intros pipeline now st Hh Hrun.
  unfold BookService.getAllBooks. rewrite Hh, Hrun, Hint. done.
Qed.

End WithPlatform.

(** A file with one good element and one element without ASIN: one
    record, and statistics that count one book and no error. *)
Lemma parseXMLFile_checks_witness :
  exists books stats,
    KindleParserIO.parseXMLFile (PathDetector.posix PathSpec.cwd) ascii_lower
      PipelineRuns.any_date two_element_reader PathSpec.two_dirs_host
      (JS.lit "/home/u") (PathDetector.xmlPath profile_files)
      = Ok (books, stats) /\
    length books = 1 /\
    KindleParserIO.totalBooks stats = 1 /\
    KindleParserIO.errorCount stats = 0 /\
    KindleParserIO.fileSizeBytes stats = 2048%Z.
Proof.
  eexists _, _. split; [vm_compute; reflexivity|].
  match goal with
  | |- length ?b = _ /\ KindleParserIO.totalBooks ?s = _ /\ _ =>
      destruct (proj1 (parseXMLFile_checks (PathDetector.posix PathSpec.cwd)
                         ascii_lower PipelineRuns.any_date two_element_reader
                         PathSpec.two_dirs_host (JS.lit "/home/u")
                         (PathDetector.xmlPath profile_files)) b s)
        as (_ & _ & _ & Ht & _ & He)
  end.
  - vm_compute. reflexivity.
  - split; [reflexivity|]. split; [exact Ht|]. split; [exact He|]. reflexivity.
Defined.

(** The host with the empty metadata file. *)
Lemma empty_xml_file_fails_witness :
  integrateAllBookData PipelineRuns.any_date
    (host_phases (PathDetector.posix PathSpec.cwd) ascii_lower
       two_element_reader empty_xml_host (JS.lit "/home/u")
       profile_detection any_database)
    = Throw (DATA_MERGE_FAILED (XmlFailed EmptyFile)).
Proof.
  apply (proj1 (empty_xml_file_fails (PathDetector.posix PathSpec.cwd)
                  ascii_lower PipelineRuns.any_date two_element_reader
                  empty_xml_host (JS.lit "/home/u") profile_detection
                  profile_files (PathSpec.file_entry 0) any_database
                  eq_refl eq_refl
                  ltac:(vm_compute; reflexivity)
                  ltac:(vm_compute; reflexivity)
                  eq_refl eq_refl)).
Defined.

End XmlFileFacts.


(** ** Further properties: the collection database *)
Module CollectionDbFacts.
Import BookModel KindleCollectionParser CollectionDb CollectionSpec ExtraSpec.

Lemma isValidAsinFormat_spec a :
  isValidAsinFormat a = true <-> well_formed_asin a.
Proof.
  unfold isValidAsinFormat. split.
  - destruct (validateAsin a) as [b|] eqn:E; [|done].
    intros _. by apply (AsinFacts.validateAsin_ok_well_formed a b).
  - intros Hw. unfold validateAsin.
    assert (Ht : JS.truthy a = true).
    { destruct Hw as [Hl _]. by destruct a. }
    rewrite Ht. simpl.
    apply AsinFacts.ASIN_PATTERN_test_spec in Hw. by rewrite Hw.
Qed.

Lemma or_else_nil_some x s :
  s <> [] -> JSMore.or_else x [] = s <-> x = Some s.
Proof.
  intros Hs. unfold JSMore.or_else.
  destruct x as [[|c r]|]; simpl; split; intros H; try congruence.
Qed.

Lemma push_association_app acc row :
  push_association acc row = acc ++ push_association [] row.
Proof.
  unfold push_association.
  destruct (row_bookAsin row) as [a|]; [|by rewrite app_nil_r].
  destruct (JS.truthy a && isValidAsinFormat a); [|by rewrite app_nil_r].
  cbn [collectionId].
  destruct (JS.truthy (JSMore.or_else (row_collectionId row) []));
    [done | by rewrite app_nil_r].
Qed.

Lemma fold_push_association rows acc :
  fold_left push_association rows acc =
  acc ++ fold_left push_association rows [].
Proof.
  revert acc. induction rows as [|row r IH]; intros acc; simpl.
  - by rewrite app_nil_r.
  - rewrite (IH (push_association acc row)), (IH (push_association [] row)).
    rewrite (push_association_app acc row). by rewrite app_assoc.
Qed.

Lemma push_association_single row a :
  a ∈ push_association [] row <->
  row_bookAsin row = Some (bookAsin a) /\
  row_collectionId row = Some (collectionId a) /\
  well_formed_asin (bookAsin a) /\ collectionId a <> [].
Proof.
  unfold push_association.
  destruct (row_bookAsin row) as [x|] eqn:Hx.
  - destruct (JS.truthy x && isValidAsinFormat x) eqn:Hv.
    + apply andb_true_iff in Hv as [_ Hv]. apply isValidAsinFormat_spec in Hv.
      cbn [collectionId].
      destruct (JS.truthy (JSMore.or_else (row_collectionId row) [])) eqn:Hc.
      * apply JSFacts.truthy_nonempty in Hc. simpl.
        rewrite list_elem_of_singleton. split.
        -- intros ->. cbn [bookAsin collectionId].
           split; [done|]. split; [|done].
           by apply or_else_nil_some.
        -- intros (Hb & Hid & _ & Hne). destruct a as [ba ci]. simpl in *.
           injection Hb as ->. f_equal. symmetry. by apply or_else_nil_some.
      * split; [by intros H; apply elem_of_nil in H|].
        intros (_ & Hid & _ & Hne). rewrite Hid in Hc.
        unfold JSMore.or_else in Hc. simpl in Hc.
        destruct (collectionId a); simpl in Hc; congruence.
    + split; [by intros H; apply elem_of_nil in H|].
      intros (Hb & _ & Hw & _). injection Hb as Hb. rewrite <- Hb in Hw.
      apply isValidAsinFormat_spec in Hw as Hw'. rewrite Hw' in Hv.
      destruct Hw as [Hl _]. destruct x; simpl in *; congruence.
  - split; [by intros H; apply elem_of_nil in H|]. by intros [? _].
Qed.

Lemma push_association_length row : length (push_association [] row) <= 1.
Proof.
  unfold push_association.
  destruct (row_bookAsin row) as [x|]; simpl; [|lia].
  destruct (JS.truthy x && isValidAsinFormat x); simpl; [|lia].
  destruct (JS.truthy (JSMore.or_else (row_collectionId row) [])); simpl; lia.
Qed.

Lemma association_loop_fold fuel i rows acc :
  length rows <= i + fuel ->
  association_loop fuel i rows acc =
  acc ++ fold_left push_association (drop i rows) [].
Proof.
  revert i acc. induction fuel as [|f IH]; intros i acc Hlen; simpl.
  - rewrite drop_ge by lia. by rewrite app_nil_r.
  - destruct (i <? length rows) eqn:E.
    + apply Nat.ltb_lt in E. rewrite IH by (unfold CHUNK_SIZE; lia).
      unfold KindleParser.slice.
      replace (i + CHUNK_SIZE - i) with CHUNK_SIZE by lia.
      rewrite (fold_push_association (take _ _) acc), <- app_assoc. f_equal.
      rewrite <- fold_push_association, <- fold_left_app. f_equal.
      rewrite <- (take_drop CHUNK_SIZE (drop i rows)) at 2.
      f_equal. rewrite drop_drop. f_equal; lia.
    + apply Nat.ltb_ge in E. rewrite drop_ge by lia. by rewrite app_nil_r.
Qed.

Lemma fold_push_association_elem rows a :
  a ∈ fold_left push_association rows [] <->
  exists row, row ∈ rows /\ a ∈ push_association [] row.
Proof.
  induction rows as [|row r IH]; simpl.
  - split; [by intros H; apply elem_of_nil in H|].
    intros (row & H & _). by apply elem_of_nil in H.
  - rewrite fold_push_association, elem_of_app, IH. split.
    + intros [H|(row' & Hin & H)].
      * exists row. split; [left|done].
      * exists row'. split; [by right|done].
    + intros (row' & Hin & H). apply elem_of_cons in Hin as [->|Hin].
      * by left.
      * right. by exists row'.
Qed.

Lemma fold_push_association_length rows :
  length (fold_left push_association rows []) <= length rows.
Proof.
  induction rows as [|row r IH]; simpl; [lia|].
  rewrite fold_push_association, length_app.
  pose proof (push_association_length row). lia.
Qed.

Lemma fetchAssociations_fold rows :
  fetchAssociations (Rows rows) = Ok (fold_left push_association rows []).
Proof.
  unfold fetchAssociations. rewrite association_loop_fold by lia.
  by rewrite drop_0.
Qed.

Lemma push_collection_app acc row :
  push_collection acc row = acc ++ from_option (fun c => [c]) [] (collection_of_row row).
Proof.
  unfold push_collection.
  destruct (collection_of_row row); simpl; [done | by rewrite app_nil_r].
Qed.

Lemma fold_push_collection rows acc :
  fold_left push_collection rows acc = acc ++ omap collection_of_row rows.
Proof.
  revert acc. induction rows as [|row r IH]; intros acc; simpl.
  - by rewrite app_nil_r.
  - rewrite IH. unfold push_collection.
    destruct (collection_of_row row); [|done].
    by rewrite <- app_assoc.
Qed.

Lemma UNNAMED_nonempty : UNNAMED <> [].
Proof. done. Qed.

Lemma collection_of_row_some row c :
  collection_of_row row = Some c <->
  coll_id c <> [] /\ row_id row = Some (coll_id c) /\
  coll_name c = JSMore.or_else (row_name row) UNNAMED /\
  bookCount c = 0%Z /\ lastUpdated c = row_lastUpdated row.
Proof.
  unfold collection_of_row. cbn [coll_id].
  destruct (JS.truthy (JSMore.or_else (row_id row) [])) eqn:Hc.
  - apply JSFacts.truthy_nonempty in Hc. split.
    + intros [= <-]. simpl. split; [done|]. split; [|done].
      by apply or_else_nil_some.
    + intros (Hne & Hid & Hn & Hb & Hl). destruct c as [i n b l].
      simpl in *. subst. f_equal. f_equal. by apply or_else_nil_some.
  - split; [done|]. intros (Hne & Hid & _). rewrite Hid in Hc.
    unfold JSMore.or_else in Hc. simpl in Hc.
    destruct (coll_id c); simpl in Hc; congruence.
Qed.

Lemma or_else_nonempty x d : d <> [] -> JSMore.or_else x d <> [].
Proof.
  intros Hd. unfold JSMore.or_else.
  destruct x as [[|c r]|]; simpl; congruence.
Qed.

(** X10. The chunks of [fetchAssociations] change nothing: the result is
    the rows processed one by one, in order, and never longer than the
    rows.  An association is returned exactly when some row carries its
    two columns, the book identifier is ten characters of [[A-Z0-9]] and
    the collection identifier is non-empty; every other row is dropped
    without an error. *)
Theorem fetchAssociations_rows (rows : list AssociationRow) :
  fetchAssociations (Rows rows) = Ok (fold_left push_association rows []) /\
  length (fold_left push_association rows []) <= length rows /\
  forall a,
    a ∈ fold_left push_association rows [] <->
    well_formed_asin (bookAsin a) /\ collectionId a <> [] /\
    exists row, row ∈ rows /\
                row_bookAsin row = Some (bookAsin a) /\
                row_collectionId row = Some (collectionId a).
Proof.
  split; [apply fetchAssociations_fold|].
  split; [apply fold_push_association_length|].
  intros a. rewrite fold_push_association_elem. split.
  - intros (row & Hin & H). apply push_association_single in H
      as (Ha & Hc & Hw & Hne).
    split; [done|]. split; [done|]. by exists row.
  - intros (Hw & Hne & row & Hin & Ha & Hc). exists row.
    split; [done|]. by apply push_association_single.
Qed.

(** X11. [fetchCollections] returns, in the order of the rows, one
    collection for each row whose identifier is a non-empty string, with
    that identifier, a book count of zero and the timestamp of the row;
    its name is the name of the row, or the placeholder when the row has
    no name or an empty one, so no returned name is empty. *)
Theorem fetchCollections_rows (rows : list CollectionRow)
  (tables : option jsstring) :
  fetchCollections (Rows rows) tables = Ok (omap collection_of_row rows) /\
  (forall c, c ∈ omap collection_of_row rows ->
     coll_id c <> [] /\ coll_name c <> [] /\ bookCount c = 0%Z /\
     exists row, row ∈ rows /\ row_id row = Some (coll_id c) /\
                 lastUpdated c = row_lastUpdated row /\
                 (row_name row = Some (coll_name c) \/
                  JS.truthy_opt (row_name row) = false /\
                  coll_name c = UNNAMED)) /\
  (forall row i, row ∈ rows -> row_id row = Some i -> i <> [] ->
     exists c, c ∈ omap collection_of_row rows /\ coll_id c = i).
Proof.
  split; [|split].
  - unfold fetchCollections. by rewrite fold_push_collection.
  - intros c Hc. apply list_elem_of_omap in Hc as (row & Hin & Hrow).
    apply collection_of_row_some in Hrow as (Hne & Hid & Hn & Hb & Hl).
    split; [done|]. split.
    { rewrite Hn. apply or_else_nonempty, UNNAMED_nonempty. }
    split; [done|]. exists row. split; [done|]. split; [done|].
    split; [done|].
    rewrite Hn. unfold JSMore.or_else.
    destruct (JS.truthy_opt (row_name row)) eqn:Ht.
    + left. by destruct (row_name row).
    + by right.
  - intros row i Hin Hid Hne.
    exists {| coll_id := i; coll_name := JSMore.or_else (row_name row) UNNAMED;
              bookCount := 0; lastUpdated := row_lastUpdated row |}.
    split; [|done]. apply list_elem_of_omap. exists row. split; [done|].
    by apply collection_of_row_some.
Qed.

Section WithPlatform.

Variable P : PathDetector.PathLib.
Variable normalize : jsstring -> jsstring.
Variable toLowerCase : jsstring -> jsstring.

(** X12. When [parseCollectionDB] returns, the lower-cased path ends in
    [.db] and the lower-cased normalized path has the lower-cased expected
    directory as a prefix of its characters (no separator is asked for
    after the prefix, so a path into a directory beside the cache
    directory whose name begins with [Cache] passes as well), the file is
    a regular file that is not empty and not above fifty mebibytes, the
    database opened and closed without error, the statistics give the
    lengths of the two lists, every association has a well-formed book
    identifier, and every collection has a non-empty identifier and a
    book count of zero. *)
Theorem parseCollectionDB_ok (w : PathDetector.World) (s : DbSession)
  (userProfile dbPath : jsstring) (r : CollectionParseResult) :
  parseCollectionDB P normalize toLowerCase w s userProfile dbPath = Ok r ->
  JSMore.endsWith (JS.lit ".db") (toLowerCase dbPath) = true /\
  JS.startsWith (toLowerCase (EXPECTED_KINDLE_CACHE_DIR P userProfile))
    (toLowerCase (normalize dbPath)) = true /\
  (exists e, PathDetector.fs w dbPath = Some e /\
             PathDetector.kind e = PathDetector.KFile /\
             PathDetector.size e <> 0%Z /\
             (PathDetector.size e <= MAX_FILE_SIZE)%Z /\
             db_fileSizeBytes (cp_statistics r) = PathDetector.size e) /\
  connect_error s = None /\ close_error s = None /\
  totalCollections (cp_statistics r) = length (cp_collections r) /\
  totalAssociations (cp_statistics r) = length (cp_associations r) /\
  db_errorCount (cp_statistics r) = 0 /\
  Forall (fun a => well_formed_asin (bookAsin a) /\ collectionId a <> [])
    (cp_associations r) /\
  Forall (fun c => coll_id c <> [] /\ coll_name c <> [] /\ bookCount c = 0%Z)
    (cp_collections r).
Proof.
  unfold parseCollectionDB, validateFilePath. intros H.
  destruct (JSMore.endsWith _ _) eqn:He; simpl in H; [|done].
  destruct (JS.startsWith _ _) eqn:Hs; simpl in H; [|done].
  unfold validateFileAccess in H.
  destruct (PathDetector.fs w dbPath) as [e|] eqn:Hf; [|done].
  destruct (PathDetector.kind e) eqn:Hk; try done.
  destruct (_ <? _)%Z eqn:E1; [done|].
  destruct (_ =? _)%Z eqn:E2; [done|].
  apply Z.ltb_ge in E1. apply Z.eqb_neq in E2.
  unfold connectDatabase in H.
  destruct (connect_error s) as [m|] eqn:Hc.
  { destruct (JS.includes _ m); [done|]. by destruct (JS.includes _ m). }
  destruct (close_error s) as [m|] eqn:Hcl; [done|].
  unfold read_all in H.
  destruct (fetchCollections _ _) as [cs|] eqn:Hcs; [|done].
  destruct (fetchAssociations _) as [asc|] eqn:Has; [|done].
  injection H as <-. cbn.
  split; [done|]. split; [done|].
  split; [by exists e|].
  split; [done|]. split; [done|]. split; [done|]. split; [done|].
  split; [done|]. split.
  - apply Forall_forall. intros a Ha.
    unfold fetchAssociations in Has.
    destruct (associations_query s) as [rows|m].
    + fold (fetchAssociations (Rows rows)) in Has.
      rewrite fetchAssociations_fold in Has. injection Has as <-.
      apply fold_push_association_elem in Ha as (row & _ & Ha).
      apply push_association_single in Ha. tauto.
    + destruct (JS.includes _ m); [|done]. injection Has as <-.
      by apply elem_of_nil in Ha.
  - apply Forall_forall. intros c Hin.
    unfold fetchCollections in Hcs.
    destruct (collections_query s) as [rows|m].
    + injection Hcs as <-. rewrite fold_push_collection in Hin. simpl in Hin.
      apply list_elem_of_omap in Hin as (row & _ & Hrow).
      apply collection_of_row_some in Hrow as (Hne & _ & Hn & Hb & _).
      split; [done|]. split; [|done].
      rewrite Hn. apply or_else_nonempty, UNNAMED_nonempty.
    + destruct (JS.includes _ m); [|done].
      destruct (tables_error s); [done|]. injection Hcs as <-.
      by apply elem_of_nil in Hin.
Qed.

(** X13. On a file that passes the checks: an open error is reported as
    a locked database when its message contains [locked], else as an
    invalid one when it contains [not a database], and no query is then
    made; once the database is open, an error of the close replaces the
    outcome of the reads, whatever they gave; and when it closes, two
    missing tables give an empty result instead of an error, provided the
    list of tables can be read. *)
Theorem parseCollectionDB_failures (w : PathDetector.World) (s : DbSession)
  (userProfile dbPath : jsstring) (e : PathDetector.FsEntry) :
  validateFilePath P normalize toLowerCase userProfile dbPath = Ok tt ->
  validateFileAccess w dbPath = Ok e ->
  (forall m, connect_error s = Some m ->
     parseCollectionDB P normalize toLowerCase w s userProfile dbPath =
     Throw (if JS.includes (JS.lit "locked") m then DbLocked
            else if JS.includes (JS.lit "not a database") m then DbInvalid
                 else OtherError m)) /\
  (forall m, connect_error s = None -> close_error s = Some m ->
     parseCollectionDB P normalize toLowerCase w s userProfile dbPath =
     Throw (OtherError m)) /\
  (forall m1 m2,
     connect_error s = None -> close_error s = None ->
     collections_query s = QueryError m1 ->
     associations_query s = QueryError m2 ->
     JS.includes (JS.lit "no such table") m1 = true ->
     JS.includes (JS.lit "no such table") m2 = true ->
     tables_error s = None ->
     parseCollectionDB P normalize toLowerCase w s userProfile dbPath =
     Ok {| cp_collections := []; cp_associations := [];
           cp_statistics := mkDbStats 0 0 0 (PathDetector.size e) |}).
Proof.
  intros Hp Ha. unfold parseCollectionDB. rewrite Hp, Ha.
  unfold connectDatabase. split; [|split].
  - intros m ->. destruct (JS.includes _ m); [done|].
    by destruct (JS.includes _ m).
  - by intros m -> ->.
  - intros m1 m2 -> -> Hq1 Hq2 H1 H2 Ht. unfold read_all.
    rewrite Hq1, Hq2. unfold fetchCollections, fetchAssociations.
    by rewrite H1, H2, Ht.
Qed.

End WithPlatform.

Lemma references_filter_cons id a l :
  references id (a :: l) =
  (if bool_decide (collectionId a = id) then 1 else 0) + references id l.
Proof. unfold references. simpl. by case_bool_decide. Qed.

Lemma sum_counts_updated cs associations :
  sum_counts (updateBookCounts cs associations) =
  fold_right Z.add 0%Z
    (map (fun c => Z.of_nat (references (coll_id c) associations)) cs).
Proof.
  rewrite CollectionFacts.updateBookCounts_map. unfold sum_counts.
  by rewrite map_map.
Qed.

Lemma sum_references_nil cs :
  fold_right Z.add 0%Z
    (map (fun c : Collection => Z.of_nat (references (coll_id c) [])) cs) = 0%Z.
Proof. induction cs as [|c r IH]; simpl; [done|]. rewrite IH. done. Qed.

Lemma sum_indicator (cs : list Collection) (i : jsstring) :
  NoDup (map coll_id cs) ->
  fold_right Z.add 0%Z
    (map (fun c : Collection => if bool_decide (i = coll_id c) then 1%Z else 0%Z) cs)
  = if bool_decide (i ∈ map coll_id cs) then 1%Z else 0%Z.
Proof.
  induction cs as [|c r IH]; intros Hnd; simpl; [done|].
  apply NoDup_cons in Hnd as [Hnotin Hnd]. rewrite (IH Hnd).
  destruct (decide (i = coll_id c)) as [Heq|Hneq].
  - rewrite (bool_decide_true (i = coll_id c)) by done.
    rewrite (bool_decide_true (i ∈ coll_id c :: map coll_id r))
      by (rewrite Heq; left).
    rewrite (bool_decide_false (i ∈ map coll_id r)); [done|].
    by rewrite Heq.
  - rewrite (bool_decide_false (i = coll_id c)) by done.
    destruct (decide (i ∈ map coll_id r)) as [Hin|Hnin].
    + rewrite (bool_decide_true (i ∈ map coll_id r)) by done.
      by rewrite (bool_decide_true (i ∈ coll_id c :: map coll_id r))
        by (by right).
    + rewrite (bool_decide_false (i ∈ map coll_id r)) by done.
      rewrite (bool_decide_false (i ∈ coll_id c :: map coll_id r)); [done|].
      intros H. apply elem_of_cons in H as [?|?]; done.
Qed.

Lemma sum_references_cons cs a l :
  fold_right Z.add 0%Z
    (map (fun c : Collection => Z.of_nat (references (coll_id c) (a :: l))) cs) =
  (fold_right Z.add 0%Z
     (map (fun c : Collection =>
             if bool_decide (collectionId a = coll_id c) then 1%Z else 0%Z) cs)
   + fold_right Z.add 0%Z
       (map (fun c : Collection => Z.of_nat (references (coll_id c) l)) cs))%Z.
Proof.
  induction cs as [|c r IH]; simpl; [done|].
  rewrite IH, references_filter_cons. case_bool_decide; lia.
Qed.

(** X14. [updateBookCounts] does not read the counts it replaces, so a
    second run changes nothing; and over collections with distinct
    identifiers the new counts add up to the number of associations whose
    collection is one of them, hence to at most the number of
    associations. *)
Theorem updateBookCounts_total (cs : list Collection)
  (associations : list BookCollectionAssociation) :
  NoDup (map coll_id cs) ->
  updateBookCounts (updateBookCounts cs associations) associations
    = updateBookCounts cs associations /\
  sum_counts (updateBookCounts cs associations)
    = Z.of_nat (length (known_associations cs associations)) /\
  (sum_counts (updateBookCounts cs associations)
     <= Z.of_nat (length associations))%Z.
Proof.
  intros Hnd.
  assert (Hsum : sum_counts (updateBookCounts cs associations)
                 = Z.of_nat (length (known_associations cs associations))).
  { rewrite sum_counts_updated. unfold known_associations.
    induction associations as [|a l IH].
    - apply sum_references_nil.
    - rewrite sum_references_cons, IH, (sum_indicator cs _ Hnd). simpl.
      case_bool_decide; simpl; lia. }
  split; [|split; [exact Hsum|]].
  - rewrite !CollectionFacts.updateBookCounts_map, map_map. by apply map_ext.
  - rewrite Hsum. unfold known_associations.
    pose proof (filter_length_le
                  (fun a => bool_decide (collectionId a ∈ map coll_id cs))
                  associations) as Hle.
    lia.
Qed.

(** The collections and associations of the counting example. *)
Lemma updateBookCounts_total_witness :
  sum_counts (updateBookCounts c3_collections c3_associations) = 2%Z.
Proof.
  destruct (updateBookCounts_total c3_collections c3_associations)
    as (_ & Hsum & _).
  - apply (bool_decide_unpack _). vm_compute. exact I.
  - rewrite Hsum. reflexivity.
Defined.

(** A run that returns: three rows of each kind, two of each kept. *)
Lemma parseCollectionDB_ok_witness :
  exists r,
    parseCollectionDB (PathDetector.posix PathSpec.cwd)
      PathDetector.posix_normalize ascii_lower (profile_dir_host 8192)
      small_session (JS.lit "/home/u") (PathDetector.dbPath profile_files)
      = Ok r /\
    length (cp_collections r) = 2 /\ length (cp_associations r) = 2 /\
    Forall (fun a => well_formed_asin (bookAsin a) /\ collectionId a <> [])
      (cp_associations r).
Proof.
  eexists. split; [vm_compute; reflexivity|].
  split; [reflexivity|]. split; [reflexivity|].
  match goal with
  | |- Forall _ (cp_associations ?r) =>
      destruct (parseCollectionDB_ok (PathDetector.posix PathSpec.cwd)
                  PathDetector.posix_normalize ascii_lower
                  (profile_dir_host 8192) small_session (JS.lit "/home/u")
                  (PathDetector.dbPath profile_files) r)
        as (_ & _ & _ & _ & _ & _ & _ & _ & Ha & _)
  end.
  - vm_compute. reflexivity.
  - exact Ha.
Defined.

(** The directory test compares characters: a database in
    [CacheOfSomeoneElse], a directory beside the cache directory, is read
    like one inside it. *)
Example sibling_directory_is_read :
  JS.startsWith (JS.lit profile_cache ++ JS.lit "/") (JS.lit sibling_db)
    = false /\
  JS.startsWith (JS.lit profile_cache) (JS.lit sibling_db) = true /\
  is_ok (parseCollectionDB (PathDetector.posix PathSpec.cwd)
           PathDetector.posix_normalize ascii_lower sibling_host
           small_session (JS.lit "/home/u") (JS.lit sibling_db)) = true.
Proof. repeat split; vm_compute; reflexivity. Qed.

(** A close that fails after two good reads, and a database without the
    two tables. *)
Lemma parseCollectionDB_failures_witness :
  parseCollectionDB (PathDetector.posix PathSpec.cwd)
    PathDetector.posix_normalize ascii_lower (profile_dir_host 8192)
    failing_close_session (JS.lit "/home/u")
    (PathDetector.dbPath profile_files)
    = Throw (OtherError (JS.lit "SQLITE_BUSY")).
Proof.
  destruct (parseCollectionDB_failures (PathDetector.posix PathSpec.cwd)
              PathDetector.posix_normalize ascii_lower
              (profile_dir_host 8192) failing_close_session
              (JS.lit "/home/u") (PathDetector.dbPath profile_files)
              (PathSpec.file_entry 8192))
    as (_ & Hclose & _).
  - vm_compute. reflexivity.
  - vm_compute. reflexivity.
  - apply Hclose; reflexivity.
Defined.

(** The rows of the small session: the row without identifier is dropped
    and the row without name gets the placeholder. *)
Lemma fetchCollections_rows_witness :
  exists c,
    c ∈ omap collection_of_row
          match collections_query small_session with
          | Rows rows => rows
          | QueryError _ => []
          end /\
    coll_id c = JS.lit "c-2" /\ coll_name c <> [].
Proof.
  destruct (proj2 (proj2 (fetchCollections_rows
                            match collections_query small_session with
                            | Rows rows => rows
                            | QueryError _ => []
                            end None))
              (mkCollectionRow (Some (JS.lit "c-2")) None None)
              (JS.lit "c-2"))
    as (c & Hin & Hid).
  - right; right; left.
  - reflexivity.
  - vm_compute. discriminate.
  - exists c. split; [exact Hin|]. split; [exact Hid|].
    exact (proj1 (proj2 (proj1 (proj2 (fetchCollections_rows _ None)) c Hin))).
Defined.

End CollectionDbFacts.


(** ** Further properties: the merge and the result of the integration *)
Module IntegrationFacts.
Import BookModel KindleParser KindleCollectionParser BookDataService.
Import CollectionSpec MergeSpec MergeFacts ExtraSpec.

Lemma merge_step_total m st x :
  length (m_books (merge_step m st x)) + duplicateCount (merge_step m st x)
  + invalidCount (merge_step m st x)
  = S (length (m_books st) + duplicateCount st + invalidCount st).
Proof.
  destruct (merge_step_cases m st x)
    as [[_ ->] | [(b & _ & _ & ->) | (e & _ & _ & ->)]]; simpl;
    rewrite ?length_app; simpl; lia.
Qed.

Lemma merge_fold_total m l st :
  length (m_books (fold_left (merge_step m) l st))
  + duplicateCount (fold_left (merge_step m) l st)
  + invalidCount (fold_left (merge_step m) l st)
  = length (m_books st) + duplicateCount st + invalidCount st + length l.
Proof.
  revert st. induction l as [|x r IH]; intros st; simpl; [lia|].
  rewrite IH, merge_step_total. lia.
Qed.

Lemma first_occurrences_from m before l b :
  b ∈ first_occurrences m before l ->
  exists x, x ∈ l /\ book_of m x = Ok b.
Proof.
  revert before. induction l as [|x r IH]; intros before; simpl.
  - intros H. by apply elem_of_nil in H.
  - destruct (book_of m x) as [b'|] eqn:Hb.
    + destruct (existsb _ before).
      * intros H. destruct (IH _ H) as (y & Hy & Hby).
        exists y. split; [by right|done].
      * intros H. apply elem_of_cons in H as [->|H].
        -- exists x. split; [left|done].
        -- destruct (IH _ H) as (y & Hy & Hby).
           exists y. split; [by right|done].
    + intros H. destruct (IH _ H) as (y & Hy & Hby).
      exists y. split; [by right|done].
Qed.

Lemma merged_books_first l sq :
  merged_books l sq = first_occurrences (buildASINCollectionMapping sq) [] l.
Proof.
  unfold merged_books, mergeBookData. simpl.
  rewrite (fold_first_occurrences _ l merge_init []); [done|].
  intros a. simpl. split.
  - intros Ha. by apply elem_of_empty in Ha.
  - intros (y & Hy & _). by apply elem_of_nil in Hy.
Qed.

Lemma merged_books_from l sq b :
  b ∈ merged_books l sq ->
  exists x, x ∈ l /\ book_of (buildASINCollectionMapping sq) x = Ok b.
Proof. rewrite merged_books_first. apply first_occurrences_from. Qed.

Lemma merged_books_cover l sq x :
  x ∈ l -> constructible (buildASINCollectionMapping sq) x = true ->
  bm_asin x ∈ map asin (merged_books l sq).
Proof.
  intros Hx Hc. unfold merged_books, mergeBookData. simpl.
  set (m := buildASINCollectionMapping sq).
  apply (seen_is_books_fold m l merge_init seen_is_books_init).
  destruct (fold_covers m l merge_init x Hx) as [H|H]; [done|].
  fold m in Hc. congruence.
Qed.

Lemma merged_nodup l sq : NoDup (map asin (merged_books l sq)).
Proof.
  unfold merged_books, mergeBookData. simpl.
  apply nodup_fold; [apply seen_is_books_init | constructor].
Qed.

Lemma merged_no_invalid l sq :
  (forall x, x ∈ l -> constructible (buildASINCollectionMapping sq) x = true) ->
  merged_invalid l sq = 0.
Proof.
  unfold merged_invalid, mergeBookData. simpl.
  set (m := buildASINCollectionMapping sq).
  assert (H : forall st,
             (forall x, x ∈ l -> constructible m x = true) ->
             invalidCount (fold_left (merge_step m) l st) = invalidCount st).
  { induction l as [|x r IH]; intros st Hall; simpl; [done|].
    rewrite IH by (intros y Hy; apply Hall; by right).
    destruct (merge_step_cases m st x)
      as [[_ ->] | [(b & _ & _ & ->) | (e & _ & He & ->)]]; simpl; try done.
    specialize (Hall x ltac:(left)). unfold constructible in Hall.
    by rewrite He in Hall. }
  intros Hall. by rewrite H.
Qed.

Lemma merge_total l sq :
  length (merged_books l sq) + merged_duplicates l sq + merged_invalid l sq
    = length l.
Proof.
  unfold merged_books, merged_duplicates, merged_invalid, mergeBookData.
  simpl. rewrite merge_fold_total. simpl. lia.
Qed.

(** X15. Every record the merge is given is accounted for once: as a
    book, as a duplicate or as an invalid record.  Each book comes from a
    record of the input, and every record that can be turned into a book
    has its ASIN among the books. *)
Theorem merge_accounting (l : list BookMetadata) (sq : SqliteResult) :
  length (merged_books l sq) + merged_duplicates l sq + merged_invalid l sq
    = length l /\
  (forall b, b ∈ merged_books l sq ->
     exists x, x ∈ l /\ asin b = bm_asin x /\
               book_of (buildASINCollectionMapping sq) x = Ok b) /\
  (forall x, x ∈ l ->
     constructible (buildASINCollectionMapping sq) x = true ->
     bm_asin x ∈ map asin (merged_books l sq)).
Proof.
  split; [apply merge_total|split].
  - intros b Hb. destruct (merged_books_from l sq b Hb) as (x & Hx & Hbx).
    exists x. split; [done|]. split; [|done].
    by apply (book_of_asin (buildASINCollectionMapping sq)).
  - apply merged_books_cover.
Qed.

Lemma assemble_rest l sq :
  res_collections (assemble l sq)
    = List.filter isValidCollection
        (convert_collections (sq_collections (counted_sqlite sq))) /\
  errors (assemble l sq)
    = match map (fun b => InvalidBookData (asin b))
              (List.filter (fun b => negb (isValidBook b))
                 (merged_books l (counted_sqlite sq)))
            ++ map (fun c => InvalidCollectionData (coll_id c))
                 (List.filter (fun c => negb (isValidCollection c))
                    (convert_collections (sq_collections (counted_sqlite sq))))
      with
      | [] => None
      | d :: ds => Some (d :: ds)
      end /\
  finalCollectionCount (statistics (assemble l sq))
    = length (res_collections (assemble l sq)) /\
  sqliteCollectionCount (statistics (assemble l sq))
    = length (sq_collections sq).
Proof.
  unfold assemble, merged_books, mergeBookData, validateIntegratedData.
  fold (counted_sqlite sq). cbn.
  split; [done|]. split; [by destruct (_ ++ _)|]. split; [done|].
  unfold updateBookCounts. by rewrite length_map.
Qed.

Lemma extracted_valid date_is_valid doc m x :
  x ∈ extractBookMetadata date_is_valid doc ->
  exists b, book_of m x = Ok b /\ isValidBook b = true /\ asin b = bm_asin x.
Proof.
  assert (Hl : forall l, x ∈ processLargeMetadataList date_is_valid l [] ->
            exists b, book_of m x = Ok b /\ isValidBook b = true /\
                      asin b = bm_asin x).
  { intros l. rewrite ParserFacts.processLargeMetadataList_omap.
    intros Hx. apply list_elem_of_omap in Hx as (e & _ & He).
    destruct (ParserFacts.extractSingleBookMetadata_some _ _ _ He)
      as (Hv & Ht & Ha).
    destruct (PipelineFacts.headed_constructible m x Hv Ht Ha)
      as (b & Hb & Hvalid & Hasin & _).
    by exists b. }
  unfold extractBookMetadata.
  destruct (meta_data doc) as [[e|l]|]; [apply Hl | apply Hl |].
  intros H. by apply elem_of_nil in H.
Qed.

Lemma filter_all {A} (f : A -> bool) (l : list A) :
  (forall x, x ∈ l -> f x = true) -> List.filter f l = l.
Proof.
  intros H. apply forallb_filter_id, forallb_forall.
  intros x Hx. apply H. by apply list_elem_of_In.
Qed.

Lemma filter_none {A} (f : A -> bool) (l : list A) :
  (forall x, x ∈ l -> f x = true) ->
  List.filter (fun x => negb (f x)) l = [].
Proof.
  induction l as [|x r IH]; intros H; simpl; [done|].
  rewrite (H x) by left. simpl. apply IH. intros y Hy. apply H. by right.
Qed.

(** X16. In a run of [integrateAllBookData] that returns, no record of the
    extractor is counted as invalid: the books and the duplicates add up
    to the extracted records, the ASINs of the books are exactly the ASINs
    of the extracted records, each once, and every diagnostic there is
    concerns a collection. *)
Theorem extracted_records_all_kept (date_is_valid : jsstring -> bool)
  (io : PhaseOutcomes) (r : BookDataIntegrationResult) :
  integrateAllBookData date_is_valid io = Ok r ->
  exists ps doc,
    PathDetector.paths (pathResult io) = Some ps /\
    xmlDocument io (PathDetector.xmlPath ps) = Ok doc /\
    xmlBookCount (statistics r)
      = length (extractBookMetadata date_is_valid doc) /\
    invalidBookCount (statistics r) = 0 /\
    finalBookCount (statistics r) + duplicateBookCount (statistics r)
      = xmlBookCount (statistics r) /\
    NoDup (map asin (books r)) /\
    (forall a, a ∈ map asin (books r) <->
               a ∈ map bm_asin (extractBookMetadata date_is_valid doc)) /\
    (forall ds, errors r = Some ds ->
       Forall (fun d => exists id, d = InvalidCollectionData id) ds).
Proof.
  unfold integrateAllBookData. intros H.
  destruct (PathDetector.success (pathResult io)); [|done].
  destruct (PathDetector.paths (pathResult io)) as [ps|]; [|done].
  destruct (xmlDocument io (PathDetector.xmlPath ps)) as [doc|] eqn:Hdoc;
    [|done].
  destruct (sqliteResult io (PathDetector.dbPath ps)) as [sq|]; [|done].
  injection H as <-. exists ps, doc. split; [done|]. split; [done|].
  set (l := extractBookMetadata date_is_valid doc).
  set (sq' := counted_sqlite sq).
  set (m := buildASINCollectionMapping sq').
  assert (Hvalid : forall b, b ∈ merged_books l sq' -> isValidBook b = true).
  { intros b Hb. destruct (merged_books_from l sq' b Hb) as (x & Hx & Hbx).
    destruct (extracted_valid date_is_valid doc m x Hx) as (b' & Hb' & Hv & _).
    fold m in Hbx. congruence. }
  assert (Hcons : forall x, x ∈ l -> constructible m x = true).
  { intros x Hx.
    destruct (extracted_valid date_is_valid doc m x Hx) as (b' & Hb' & _).
    unfold constructible. by rewrite Hb'. }
  assert (Hbooks : books (assemble l sq) = merged_books l sq').
  { rewrite assemble_books. by apply filter_all. }
  destruct (assemble_statistics l sq) as (Hx & Hd & Hi & Hf).
  destruct (assemble_rest l sq) as (_ & Herr & _).
  assert (Hinv : merged_invalid l sq' = 0) by by apply merged_no_invalid.
  split; [exact Hx|]. split; [by rewrite Hi|]. split.
  { rewrite Hf, Hd, Hx, Hbooks.
    pose proof (merge_total l sq') as Htot.
    unfold sq' in Htot, Hinv |- *. lia. }
  split; [rewrite Hbooks; apply merged_nodup|]. split.
  - intros a. rewrite Hbooks. split.
    + intros Ha. apply list_elem_of_fmap in Ha as (b & -> & Hb).
      destruct (merged_books_from l sq' b Hb) as (x & Hxl & Hbx).
      apply list_elem_of_fmap. exists x. split; [|done].
      by apply (book_of_asin m).
    + intros Ha. apply list_elem_of_fmap in Ha as (x & -> & Hxl).
      apply (merged_books_cover l sq' x Hxl). by apply Hcons.
  - intros ds Hds. rewrite Herr in Hds. fold sq' in Hds.
    rewrite (filter_none isValidBook) in Hds by exact Hvalid.
    simpl in Hds. apply Forall_forall. intros d Hd'.
    destruct (map (fun c => InvalidCollectionData (coll_id c)) _)
      as [|d0 ds0] eqn:Hmap; [done|].
    injection Hds as <-. rewrite <- Hmap in Hd'.
    apply list_elem_of_fmap in Hd' as (c & -> & _). by eexists.
Qed.

Lemma collectionIdToName_fold (cs : list Collection)
  (m : gmap jsstring jsstring) (i : jsstring) :
  fold_left (fun m c => <[coll_id c := coll_name c]> m) cs m !! i =
  match naming_collection cs i with
  | Some c => Some (coll_name c)
  | None => m !! i
  end.
Proof.
  revert m. induction cs as [|c r IH]; intros m; [done|].
  cbn [fold_left]. rewrite IH. unfold naming_collection. cbn [List.filter].
  destruct (decide (coll_id c = i)) as [Heq|Hneq].
  - rewrite (bool_decide_true _ Heq), last_cons.
    destruct (last _); [done|]. by rewrite Heq, lookup_insert_eq.
  - rewrite (bool_decide_false _ Hneq).
    destruct (last _); [done|]. by rewrite lookup_insert_ne.
Qed.

Lemma collectionIdToName_lookup (cs : list Collection) (i : jsstring) :
  collectionIdToName cs !! i = coll_name <$> naming_collection cs i.
Proof.
  unfold collectionIdToName. rewrite collectionIdToName_fold.
  destruct (naming_collection cs i); [done|]. by rewrite lookup_empty.
Qed.

Lemma collectionIdToName_counted (cs : list Collection) associations :
  collectionIdToName (updateBookCounts cs associations) = collectionIdToName cs.
Proof.
  unfold collectionIdToName, updateBookCounts.
  generalize (∅ : gmap jsstring jsstring).
  induction cs as [|c r IH]; intros m; simpl; [done|]. apply IH.
Qed.

Lemma mapping_counted sq :
  buildASINCollectionMapping (counted_sqlite sq) = buildASINCollectionMapping sq.
Proof.
  unfold buildASINCollectionMapping, counted_sqlite. simpl.
  by rewrite collectionIdToName_counted.
Qed.

Lemma add_association_elem (names : gmap jsstring jsstring)
  (M : gmap jsstring (list jsstring)) (a : BookCollectionAssociation)
  (k name : jsstring) :
  name ∈ default [] (add_association names M a !! k) <->
  name ∈ default [] (M !! k) \/
  (bookAsin a = k /\ names !! collectionId a = Some name /\ name <> []).
Proof.
  unfold add_association.
  destruct (names !! collectionId a) as [n|] eqn:Hn.
  2: { split; [by left|]. by intros [H|(_ & H & _)]. }
  destruct (JS.truthy n) eqn:Ht; cbn [negb].
  2: { split; [by left|]. intros [H|(_ & Hs & Hne)]; [done|].
       injection Hs as ->. by destruct name. }
  cbv zeta.
  set (m1 := match M !! bookAsin a with
             | Some _ => M
             | None => <[bookAsin a := []]> M
             end).
  assert (Hm1 : forall j, default [] (m1 !! j) = default [] (M !! j)).
  { intros j. unfold m1. destruct (M !! bookAsin a) eqn:E; [done|].
    destruct (decide (j = bookAsin a)) as [->|Hj].
    - by rewrite lookup_insert_eq, E.
    - by rewrite lookup_insert_ne. }
  destruct (JS.arr_includes n (default [] (m1 !! bookAsin a))) eqn:Hinc.
  - rewrite Hm1. split; [by left|].
    intros [H|(Hk & Hs & _)]; [done|]. injection Hs as ->. subst k.
    apply JSFacts.arr_includes_spec in Hinc. by rewrite Hm1 in Hinc.
  - destruct (decide (k = bookAsin a)) as [->|Hk].
    + rewrite lookup_insert_eq. cbn [default from_option id].
      rewrite elem_of_app, Hm1, list_elem_of_singleton. split.
      * intros [H | ->]; [by left|]. right. split; [done|]. split; [done|].
        by apply JSFacts.truthy_nonempty.
      * intros [H|(_ & Hs & _)]; [by left|]. injection Hs as ->. by right.
    + rewrite lookup_insert_ne by done. rewrite Hm1. split; [by left|].
      intros [H|(Hk' & _)]; [done|]. congruence.
Qed.

Lemma fold_add_association_elem (names : gmap jsstring jsstring)
  (l : list BookCollectionAssociation) (M : gmap jsstring (list jsstring))
  (k name : jsstring) :
  name ∈ default [] (fold_left (add_association names) l M !! k) <->
  name ∈ default [] (M !! k) \/
  exists a, a ∈ l /\ bookAsin a = k /\
            names !! collectionId a = Some name /\ name <> [].
Proof.
  revert M. induction l as [|a r IH]; intros M; cbn [fold_left].
  - split; [by left|]. intros [H|(a & Ha & _)]; [done|].
    by apply elem_of_nil in Ha.
  - rewrite IH, add_association_elem. split.
    + intros [[H|H]|(a' & Ha' & H)].
      * by left.
      * right. exists a. split; [left|done].
      * right. exists a'. split; [by right|done].
    + intros [H|(a' & Ha' & H)]; [by left; left|].
      apply elem_of_cons in Ha' as [->|Ha'].
      * left. by right.
      * right. by exists a'.
Qed.

Lemma mapping_elem (sq : SqliteResult) (k name : jsstring) :
  name ∈ default [] (buildASINCollectionMapping sq !! k) <->
  name <> [] /\
  exists a c, a ∈ sq_associations sq /\ bookAsin a = k /\
              naming_collection (sq_collections sq) (collectionId a) = Some c /\
              coll_name c = name.
Proof.
  unfold buildASINCollectionMapping. rewrite fold_add_association_elem.
  rewrite lookup_empty. split.
  - intros [H|(a & Ha & Hk & Hn & Hne)]; [by apply elem_of_nil in H|].
    split; [done|]. rewrite collectionIdToName_lookup in Hn.
    destruct (naming_collection _ _) as [c|] eqn:Hc; [|done].
    injection Hn as Hn. by exists a, c.
  - intros (Hne & a & c & Ha & Hk & Hc & Hn). right. exists a.
    split; [done|]. split; [done|]. split; [|done].
    rewrite collectionIdToName_lookup, Hc. simpl. by rewrite Hn.
Qed.

Lemma book_of_collections m x b :
  book_of m x = Ok b ->
  collections b = List.filter keeps (default [] (m !! asin b)).
Proof.
  intros H. rewrite (book_of_asin m x b H).
  unfold book_of, createSafeBook, to_partial in H. simpl in H.
  destruct (JS.truthy (bm_asin x)); simpl in H; [|done].
  destruct (JS.truthy (bm_title x)); simpl in H; [|done].
  destruct (JS.truthy (bm_author x)); simpl in H; [|done].
  destruct (validateAsin (bm_asin x)); [|done].
  by injection H as <-.
Qed.

Lemma trim_nonempty s : JS.trim s <> [] -> s <> [].
Proof. by destruct s. Qed.

Lemma assemble_books_from l sq b :
  b ∈ books (assemble l sq) ->
  isValidBook b = true /\
  exists x, x ∈ l /\ book_of (buildASINCollectionMapping sq) x = Ok b.
Proof.
  rewrite assemble_books. intros Hb.
  apply list_elem_of_In, filter_In in Hb as [Hb Hv].
  apply list_elem_of_In in Hb. split; [done|].
  destruct (merged_books_from l _ b Hb) as (x & Hx & Hbx).
  rewrite mapping_counted in Hbx. by exists x.
Qed.

(** X17. A book of the result lists exactly the collections it is
    associated with: a name is among its collections if and only if it has
    a visible character and some association pairs the ASIN of the book
    with an identifier whose collection (the last one of the database
    with that identifier) has this name.  An association to an unknown
    identifier adds nothing. *)
Theorem book_collections_exact (l : list BookMetadata) (sq : SqliteResult)
  (b : Book) (name : jsstring) :
  b ∈ books (assemble l sq) ->
  (name ∈ collections b <->
   JS.trim name <> [] /\
   exists a c, a ∈ sq_associations sq /\ bookAsin a = asin b /\
               naming_collection (sq_collections sq) (collectionId a) = Some c /\
               coll_name c = name).
Proof.
  intros Hb. destruct (assemble_books_from l sq b Hb) as (_ & x & _ & Hbx).
  rewrite (book_of_collections _ x b Hbx). split.
  - intros Hn. apply list_elem_of_In, filter_In in Hn as [Hn Hk].
    apply list_elem_of_In, mapping_elem in Hn as (_ & Hex).
    split; [|done]. by apply JSFacts.truthy_nonempty.
  - intros (Ht & Hex). apply list_elem_of_In, filter_In. split.
    + apply list_elem_of_In, mapping_elem. split; [|done].
      by apply trim_nonempty.
    + by apply JSFacts.truthy_nonempty.
Qed.

Lemma convert_collections_fold cs acc :
  fold_left
    (fun acc c =>
       match createSafeCollection
               {| pc_id := Some (coll_id c);
                  pc_name := Some (coll_name c);
                  pc_bookCount := Some (bookCount c);
                  pc_lastUpdated := lastUpdated c |} with
       | Ok c' => acc ++ [c']
       | Throw _ => acc
       end) cs acc
  = acc ++ convert_collections cs.
Proof.
  unfold convert_collections. revert acc.
  induction cs as [|c r IH]; intros acc; cbn [fold_left].
  - by rewrite app_nil_r.
  - rewrite IH. destruct (createSafeCollection _) as [c'|].
    + rewrite (IH ([] ++ [c'])). by rewrite <- app_assoc.
    + done.
Qed.

Lemma convert_collections_cons c r :
  convert_collections (c :: r) =
  match createSafeCollection
          {| pc_id := Some (coll_id c);
             pc_name := Some (coll_name c);
             pc_bookCount := Some (bookCount c);
             pc_lastUpdated := lastUpdated c |} with
  | Ok c' => c' :: convert_collections r
  | Throw _ => convert_collections r
  end.
Proof.
  unfold convert_collections at 1. cbn [fold_left].
  rewrite convert_collections_fold.
  by destruct (createSafeCollection _).
Qed.

Lemma counted_collections_split associations cs :
  List.filter isValidCollection
    (convert_collections (updateBookCounts cs associations))
    = map (shown_collection associations) (List.filter shows cs) /\
  map coll_id
    (List.filter (fun c => negb (isValidCollection c))
       (convert_collections (updateBookCounts cs associations)))
    = map (fun c => JS.trim (coll_id c)) (List.filter blank_but_present cs).
Proof.
  rewrite CollectionFacts.updateBookCounts_map.
  induction cs as [|c r [IH1 IH2]]; [done|].
  cbn [map]. rewrite convert_collections_cons.
  unfold createSafeCollection. cbn [pc_id pc_name pc_bookCount pc_lastUpdated
    coll_id coll_name bookCount lastUpdated JS.truthy_opt default from_option id].
  cbn [List.filter]. unfold blank_but_present, shows.
  destruct (JS.truthy (coll_id c)) eqn:Hi; cbn [negb andb].
  2: { assert (Ht : JS.truthy (JS.trim (coll_id c)) = false).
       { destruct (JS.truthy (JS.trim (coll_id c))) eqn:E; [|done].
         apply JSFacts.trim_truthy in E. congruence. }
       rewrite Ht. cbn [andb]. by split. }
  destruct (JS.truthy (coll_name c)) eqn:Hn; cbn [negb andb].
  2: { assert (Ht : JS.truthy (JS.trim (coll_name c)) = false).
       { destruct (JS.truthy (JS.trim (coll_name c))) eqn:E; [|done].
         apply JSFacts.trim_truthy in E. congruence. }
       rewrite Ht, andb_false_r. by split. }
  cbn [List.filter].
  set (c' := {| coll_id := JS.trim (coll_id c);
                coll_name := JS.trim (coll_name c);
                bookCount :=
                  Z.max 0 (Z.of_nat (references (coll_id c) associations));
                lastUpdated := option_map JS.trim (lastUpdated c) |}).
  assert (Hv : isValidCollection c'
               = JS.truthy (JS.trim (coll_id c))
                 && JS.truthy (JS.trim (coll_name c))).
  { unfold isValidCollection, c'. cbn [coll_id coll_name bookCount].
    replace (Z.max 0 (Z.of_nat (references (coll_id c) associations)) <? 0)%Z
      with false by (symmetry; apply Z.ltb_ge; lia).
    destruct (JS.truthy (JS.trim (coll_id c))); [|done].
    by destruct (JS.truthy (JS.trim (coll_name c))). }
  rewrite Hv.
  destruct (JS.truthy (JS.trim (coll_id c))
            && JS.truthy (JS.trim (coll_name c))); cbn [negb map].
  - split; [|done]. rewrite IH1. f_equal. unfold c', shown_collection.
    f_equal. lia.
  - split; [done|]. by rewrite IH2.
Qed.

Lemma errors_default (L : list Diagnostic) :
  default [] (match L with [] => None | d :: ds => Some (d :: ds) end) = L.
Proof. by destruct L. Qed.

(** The collections of [assemble], for collections of the declared
    types. *)
Lemma typed_result_collections (l : list BookMetadata) (sq : SqliteResult) :
  res_collections (assemble l sq)
    = map (shown_collection (sq_associations sq))
        (List.filter shows (sq_collections sq)) /\
  finalCollectionCount (statistics (assemble l sq))
    = length (List.filter shows (sq_collections sq)) /\
  sqliteCollectionCount (statistics (assemble l sq))
    = length (sq_collections sq) /\
  (forall i,
     InvalidCollectionData i ∈ default [] (errors (assemble l sq)) <->
     exists c, c ∈ sq_collections sq /\ blank_but_present c = true /\
               i = JS.trim (coll_id c)).
Proof.
  destruct (assemble_rest l sq) as (Hres & Herr & Hfin & Hsq).
  destruct (counted_collections_split (sq_associations sq) (sq_collections sq))
    as (Hvalid & Hinvalid).
  assert (Hshown : res_collections (assemble l sq)
                   = map (shown_collection (sq_associations sq))
                       (List.filter shows (sq_collections sq))).
  { rewrite Hres. unfold counted_sqlite. cbn [sq_collections].
    exact Hvalid. }
  split; [exact Hshown|]. split.
  { by rewrite Hfin, Hshown, length_map. }
  split; [exact Hsq|].
  intros i. rewrite Herr, errors_default, elem_of_app. split.
  - intros [H|H].
    + apply list_elem_of_fmap in H as (b & Hb & _). done.
    + apply list_elem_of_fmap in H as (c' & Hc' & Hin).
      injection Hc' as ->.
      assert (Hi : coll_id c' ∈ map (fun c => JS.trim (coll_id c))
                     (List.filter blank_but_present (sq_collections sq))).
      { rewrite <- Hinvalid. apply list_elem_of_fmap. by exists c'. }
      apply list_elem_of_fmap in Hi as (c & Hc & Hcin).
      apply list_elem_of_In, filter_In in Hcin as [Hcin Hb].
      exists c. split; [by apply list_elem_of_In|]. by split.
  - intros (c & Hc & Hb & ->). right.
    assert (Hi : JS.trim (coll_id c) ∈
                 map (fun c => JS.trim (coll_id c))
                   (List.filter blank_but_present (sq_collections sq))).
    { apply list_elem_of_fmap. exists c. split; [done|].
      apply list_elem_of_In, filter_In. split; [by apply list_elem_of_In|done]. }
    rewrite <- Hinvalid in Hi.
    apply list_elem_of_fmap in Hi as (c' & Hc' & Hin).
    apply list_elem_of_fmap. exists c'. split; [by rewrite Hc'|done].
Qed.

Lemma math_max_0_shown (n : nat) :
  JSMore.math_max_0 (JSMore.of_int (Z.of_nat n)) = JSMore.of_int (Z.of_nat n).
Proof. rewrite ModelFacts.math_max_0_of_int. by rewrite Z.max_r by lia. Qed.

Lemma less_than_0_shown (n : nat) :
  JSMore.less_than_0 (JSMore.of_int (Z.of_nat n)) = false.
Proof. rewrite <- math_max_0_shown. apply ModelFacts.less_than_0_max. Qed.

Lemma raw_updateBookCounts_map cs associations :
  RawCollections.updateBookCounts cs associations =
  map (fun c =>
         {| RawCollections.read_id := RawCollections.read_id c;
            RawCollections.read_name := RawCollections.read_name c;
            RawCollections.read_bookCount :=
              Z.of_nat (references (RawCollections.read_id c) associations);
            RawCollections.read_lastUpdated :=
              RawCollections.read_lastUpdated c |}) cs.
Proof.
  unfold RawCollections.updateBookCounts. apply map_ext. intros c.
  by rewrite CollectionFacts.bookCountMap_lookup.
Qed.

Lemma raw_convert_fold cs acc :
  fold_left
    (fun acc c =>
       match RawCollections.createSafeCollection
               {| RawCollections.rp_id := Some (RawCollections.read_id c);
                  RawCollections.rp_name := Some (RawCollections.read_name c);
                  RawCollections.rp_bookCount :=
                    Some (JSMore.of_int (RawCollections.read_bookCount c));
                  RawCollections.rp_lastUpdated :=
                    RawCollections.read_lastUpdated c |} with
       | Ok c' => acc ++ [c']
       | Throw _ => acc
       end) cs acc
  = acc ++ RawCollections.convert_collections cs.
Proof.
  unfold RawCollections.convert_collections. revert acc.
  induction cs as [|c r IH]; intros acc; cbn [fold_left].
  - by rewrite app_nil_r.
  - rewrite IH. destruct (RawCollections.createSafeCollection _) as [c'|].
    + rewrite (IH ([] ++ [c'])). by rewrite <- app_assoc.
    + done.
Qed.

Lemma raw_convert_cons c r :
  RawCollections.convert_collections (c :: r) =
  match RawCollections.createSafeCollection
          {| RawCollections.rp_id := Some (RawCollections.read_id c);
             RawCollections.rp_name := Some (RawCollections.read_name c);
             RawCollections.rp_bookCount :=
               Some (JSMore.of_int (RawCollections.read_bookCount c));
             RawCollections.rp_lastUpdated :=
               RawCollections.read_lastUpdated c |} with
  | Ok c' => c' :: RawCollections.convert_collections r
  | Throw _ => RawCollections.convert_collections r
  end.
Proof.
  unfold RawCollections.convert_collections at 1. cbn [fold_left].
  rewrite raw_convert_fold.
  by destruct (RawCollections.createSafeCollection _).
Qed.

Lemma trim_falsy s : JS.truthy s = false -> JS.truthy (JS.trim s) = false.
Proof.
  intros H. destruct (JS.truthy (JS.trim s)) eqn:E; [|done].
  apply JSFacts.trim_truthy in E. congruence.
Qed.

Lemma raw_collections_split associations cs :
  List.filter RawCollections.isValidCollection
    (RawCollections.convert_collections
       (RawCollections.updateBookCounts cs associations))
    = map (shown_raw associations) (List.filter shows_raw cs) /\
  map RawCollections.safe_id
    (List.filter (fun c => negb (RawCollections.isValidCollection c))
       (RawCollections.convert_collections
          (RawCollections.updateBookCounts cs associations)))
    = map (fun c => JS.trim (RawCollections.read_id c))
        (List.filter reported_raw cs).
Proof.
  rewrite raw_updateBookCounts_map.
  induction cs as [|c r [IH1 IH2]]; [done|].
  cbn [map]. rewrite raw_convert_cons.
  unfold RawCollections.createSafeCollection.
  cbn [RawCollections.rp_id RawCollections.rp_name RawCollections.rp_bookCount
       RawCollections.rp_lastUpdated RawCollections.read_id
       RawCollections.read_name RawCollections.read_bookCount
       RawCollections.read_lastUpdated JS.truthy_opt default from_option id].
  cbn [List.filter]. unfold reported_raw, shows_raw.
  destruct (JS.truthy (RawCollections.read_id c)) eqn:Hi; cbn [negb andb].
  2: { rewrite (trim_falsy _ Hi). cbn [andb]. by split. }
  destruct (JS.truthy (RawCollections.read_name c)) eqn:Hn; cbn [negb andb].
  2: { rewrite (trim_falsy _ Hn), andb_false_r. cbn [andb]. by split. }
  destruct (RawCollections.read_lastUpdated c) as [[stamp|]|] eqn:Hs;
    cbn [JSMore.optional_trim].
  2: { rewrite andb_false_r. by split. }
  all: rewrite math_max_0_shown, andb_true_r; cbn [List.filter];
    match goal with
    | |- context [RawCollections.isValidCollection ?x] =>
        assert (Hv : RawCollections.isValidCollection x
                     = JS.truthy (JS.trim (RawCollections.read_id c))
                       && JS.truthy (JS.trim (RawCollections.read_name c)))
    end;
    [ unfold RawCollections.isValidCollection;
      cbn [RawCollections.safe_id RawCollections.safe_name
           RawCollections.safe_bookCount];
      rewrite less_than_0_shown;
      destruct (JS.truthy (JS.trim (RawCollections.read_id c))); [|done];
      by destruct (JS.truthy (JS.trim (RawCollections.read_name c)))
    | rewrite Hv;
      destruct (JS.truthy (JS.trim (RawCollections.read_id c))
                && JS.truthy (JS.trim (RawCollections.read_name c)));
      cbn [negb map List.filter];
      [ split; [|done]; rewrite IH1; f_equal;
        unfold shown_raw; by rewrite Hs
      | split; [done|]; by rewrite IH2 ] ].
Qed.

Lemma raw_fold_push rows acc :
  fold_left RawCollections.push_collection rows acc
  = acc ++ omap RawCollections.collection_of_row rows.
Proof.
  revert acc. induction rows as [|row r IH]; intros acc; simpl.
  - by rewrite app_nil_r.
  - rewrite IH. unfold RawCollections.push_collection.
    destruct (RawCollections.collection_of_row row); [|done].
    by rewrite <- app_assoc.
Qed.

(** On rows of the declared types the reader builds the same
    collections in both models; a timestamp is passed on as the row has
    it. *)
Lemma collections_of_rows_typed (rows : list CollectionDb.CollectionRow) :
  RawCollections.collections_of_rows (map RawCollections.raw_row_of rows)
  = map RawCollections.read_of (omap CollectionDb.collection_of_row rows).
Proof.
  unfold RawCollections.collections_of_rows. rewrite raw_fold_push.
  cbn [app]. induction rows as [|row r IH]; [done|].
  assert (E : RawCollections.collection_of_row (RawCollections.raw_row_of row)
              = option_map RawCollections.read_of
                  (CollectionDb.collection_of_row row)).
  { unfold RawCollections.collection_of_row, CollectionDb.collection_of_row.
    cbn [RawCollections.read_id coll_id RawCollections.raw_row_of
         RawCollections.raw_row_id RawCollections.raw_row_name
         RawCollections.raw_row_lastUpdated].
    by destruct (JS.truthy (JSMore.or_else (CollectionDb.row_id row) [])). }
  simpl. rewrite E.
  destruct (CollectionDb.collection_of_row row); simpl;
    [f_equal|]; exact IH.
Qed.

Lemma collections_of_rows_stamp (rows : list RawCollections.RawCollectionRow)
  (c : RawCollections.ReadCollection) :
  c ∈ RawCollections.collections_of_rows rows ->
  exists row, row ∈ rows /\
    RawCollections.read_lastUpdated c
      = RawCollections.raw_row_lastUpdated row /\
    RawCollections.read_id c
      = JSMore.or_else (RawCollections.raw_row_id row) [].
Proof.
  unfold RawCollections.collections_of_rows. rewrite raw_fold_push.
  cbn [app]. intros H. apply list_elem_of_omap in H as (row & Hrow & Hc).
  exists row. split; [done|].
  unfold RawCollections.collection_of_row in Hc.
  destruct (JS.truthy _); [|done]. by injection Hc as <-.
Qed.

Lemma shows_read_of c : shows_raw (RawCollections.read_of c) = shows c.
Proof.
  unfold shows_raw, shows, RawCollections.read_of. simpl.
  destruct (lastUpdated c); simpl; by rewrite andb_true_r.
Qed.

Lemma reported_read_of c :
  reported_raw (RawCollections.read_of c) = blank_but_present c.
Proof.
  unfold reported_raw, blank_but_present, shows, RawCollections.read_of.
  simpl. destruct (lastUpdated c); simpl; by rewrite andb_true_r.
Qed.

Lemma shown_read_of associations c :
  shown_raw associations (RawCollections.read_of c)
  = RawCollections.safe_of (shown_collection associations c).
Proof.
  unfold shown_raw, shown_collection, RawCollections.safe_of,
    RawCollections.read_of. simpl. by destruct (lastUpdated c).
Qed.

Lemma shown_typed associations cs :
  map (shown_raw associations)
    (List.filter shows_raw (map RawCollections.read_of cs))
  = map RawCollections.safe_of
      (map (shown_collection associations) (List.filter shows cs)).
Proof.
  induction cs as [|c r IH]; [done|]. cbn [map List.filter].
  rewrite shows_read_of. destruct (shows c); [|done].
  cbn [map]. by rewrite IH, shown_read_of.
Qed.

(** X18. The collections of the result are, in the order of the database,
    the collections whose identifier and name have a visible character
    and whose timestamp, if there is one, is a string; each comes with
    identifier, name and timestamp trimmed and with the number of
    associations that name its untrimmed identifier as book count, and the
    counts the database stored play no part.  A collection with an empty
    identifier or name is left out in silence, and so is one whose
    timestamp is not a string (a number from an INTEGER column): the
    [TypeError] of [trim] is caught and logged.  One whose identifier or
    name is white space only is left out with a diagnostic, and these are
    the only diagnostics about collections.  On collections of the
    declared types this is the result of the integration. *)
Theorem result_collections (cs : list RawCollections.ReadCollection)
  (associations : list BookCollectionAssociation)
  (l : list BookMetadata) (sq : SqliteResult) :
  fst (RawCollections.collections_phase cs associations)
    = map (shown_raw associations) (List.filter shows_raw cs) /\
  (forall i,
     InvalidCollectionData i
       ∈ snd (RawCollections.collections_phase cs associations) <->
     exists c, c ∈ cs /\ reported_raw c = true /\
               i = JS.trim (RawCollections.read_id c)) /\
  (forall c, c ∈ cs ->
     RawCollections.read_lastUpdated c = Some JSMore.NotString ->
     shows_raw c = false /\ reported_raw c = false) /\
  map RawCollections.safe_of (res_collections (assemble l sq))
    = fst (RawCollections.collections_phase
             (map RawCollections.read_of (sq_collections sq))
             (sq_associations sq)) /\
  (forall i,
     InvalidCollectionData i ∈ default [] (errors (assemble l sq)) <->
     InvalidCollectionData i
       ∈ snd (RawCollections.collections_phase
                (map RawCollections.read_of (sq_collections sq))
                (sq_associations sq))).
Proof.
  assert (Hraw : forall cs' associations',
            fst (RawCollections.collections_phase cs' associations')
              = map (shown_raw associations') (List.filter shows_raw cs') /\
            (forall i,
               InvalidCollectionData i
                 ∈ snd (RawCollections.collections_phase cs' associations') <->
               exists c, c ∈ cs' /\ reported_raw c = true /\
                         i = JS.trim (RawCollections.read_id c))).
  { intros cs' associations'.
    destruct (raw_collections_split associations' cs') as [Hvalid Hinvalid].
    unfold RawCollections.collections_phase,
      RawCollections.validate_collections. cbn [fst snd].
    split; [exact Hvalid|]. intros i. split.
    - intros H. apply list_elem_of_fmap in H as (c' & Hc' & Hin).
      injection Hc' as ->.
      assert (Hi : RawCollections.safe_id c'
                   ∈ map (fun c => JS.trim (RawCollections.read_id c))
                       (List.filter reported_raw cs')).
      { rewrite <- Hinvalid. apply list_elem_of_fmap. by exists c'. }
      apply list_elem_of_fmap in Hi as (c & Hc & Hcin).
      apply list_elem_of_In, filter_In in Hcin as [Hcin Hb].
      exists c. split; [by apply list_elem_of_In|]. by split.
    - intros (c & Hc & Hb & ->).
      assert (Hi : JS.trim (RawCollections.read_id c)
                   ∈ map (fun c => JS.trim (RawCollections.read_id c))
                       (List.filter reported_raw cs')).
      { apply list_elem_of_fmap. exists c. split; [done|].
        apply list_elem_of_In, filter_In.
        split; [by apply list_elem_of_In|done]. }
      rewrite <- Hinvalid in Hi.
      apply list_elem_of_fmap in Hi as (c' & Hc' & Hin).
      apply list_elem_of_fmap. exists c'. split; [by rewrite Hc'|done]. }
  destruct (Hraw cs associations) as [Hshown Hdiag].
  split; [exact Hshown|]. split; [exact Hdiag|]. split.
  { intros c _ Hs. unfold shows_raw, reported_raw. rewrite Hs.
    by rewrite !andb_false_r. }
  destruct (typed_result_collections l sq) as (Htyped & _ & _ & Hterr).
  destruct (Hraw (map RawCollections.read_of (sq_collections sq))
              (sq_associations sq)) as [Hshown' Hdiag'].
  split.
  { by rewrite Htyped, Hshown', shown_typed. }
  intros i. rewrite Hterr, Hdiag'. split.
  - intros (c & Hc & Hb & ->). exists (RawCollections.read_of c).
    split; [apply list_elem_of_fmap; by exists c|].
    split; [by rewrite reported_read_of | done].
  - intros (c' & Hc' & Hb & ->).
    apply list_elem_of_fmap in Hc' as (c & -> & Hc).
    exists c. split; [done|]. split; [by rewrite <- reported_read_of | done].
Qed.

Lemma nodup_map_filter {A B} (g : A -> B) (f : A -> bool) (l : list A) :
  NoDup (map g l) -> NoDup (map g (List.filter f l)).
Proof.
  induction l as [|x r IH]; simpl; [done|].
  intros Hnd. apply NoDup_cons in Hnd as [Hx Hnd].
  destruct (f x); [|by apply IH]. simpl. apply NoDup_cons. split; [|by apply IH].
  intros Hin. apply Hx. apply list_elem_of_fmap in Hin as (y & Hy & Hin).
  apply list_elem_of_fmap. exists y. split; [done|].
  apply list_elem_of_In, filter_In in Hin as [Hin _].
  by apply list_elem_of_In.
Qed.

Lemma assemble_nodup l sq : NoDup (map asin (books (assemble l sq))).
Proof. rewrite assemble_books. apply nodup_map_filter, merged_nodup. Qed.

Lemma find_by_asin (bs : list Book) b :
  NoDup (map asin bs) -> b ∈ bs ->
  List.find (fun b' => JS.eqb (asin b') (asin b)) bs = Some b.
Proof.
  induction bs as [|x r IH]; simpl.
  - intros _ H. by apply elem_of_nil in H.
  - intros Hnd Hin. apply NoDup_cons in Hnd as [Hx Hnd].
    unfold JS.eqb at 1. apply elem_of_cons in Hin as [->|Hin].
    + by rewrite bool_decide_true.
    + rewrite bool_decide_false; [by apply IH|].
      intros Heq. apply Hx. rewrite Heq. apply list_elem_of_fmap.
      by exists b.
Qed.

Lemma find_asin_none (bs : list Book) a :
  a ∉ map asin bs -> List.find (fun b' => JS.eqb (asin b') a) bs = None.
Proof.
  induction bs as [|x r IH]; simpl; [done|].
  intros Hn. unfold JS.eqb at 1. rewrite bool_decide_false.
  - apply IH. intros H. apply Hn. by right.
  - intros Heq. apply Hn. rewrite Heq. left.
Qed.

(** X19. [getBookByASIN] looks the identifier up in a fresh run of the
    integration: every book of that run is found by its own ASIN (no two
    books share one), an identifier of no book gives [null], a book that
    is returned has the identifier asked for, and a run that throws gives
    [null] for every identifier instead of an error. *)
Theorem getBookByASIN_finds (date_is_valid : jsstring -> bool)
  (io : PhaseOutcomes) :
  match integrateAllBookData date_is_valid io with
  | Ok r =>
      (forall b, b ∈ books r ->
         BookDataQueries.getBookByASIN date_is_valid io (asin b) = Some b) /\
      (forall a, a ∉ map asin (books r) ->
         BookDataQueries.getBookByASIN date_is_valid io a = None) /\
      (forall a b,
         BookDataQueries.getBookByASIN date_is_valid io a = Some b ->
         asin b = a /\ b ∈ books r)
  | Throw _ =>
      forall a, BookDataQueries.getBookByASIN date_is_valid io a = None
  end.
Proof.
  unfold BookDataQueries.getBookByASIN.
  destruct (integrateAllBookData date_is_valid io) as [r|e] eqn:Hr; [|done].
  assert (Hnd : NoDup (map asin (books r))).
  { unfold integrateAllBookData in Hr.
    destruct (PathDetector.success (pathResult io)); [|done].
    destruct (PathDetector.paths (pathResult io)) as [ps|]; [|done].
    destruct (xmlDocument io _) as [doc|]; [|done].
    destruct (sqliteResult io _) as [sq|]; [|done].
    injection Hr as <-. apply assemble_nodup. }
  split; [|split].
  - intros b Hb. by apply find_by_asin.
  - intros a Ha. by apply find_asin_none.
  - intros a b Hf. apply find_some in Hf as [Hin Heq].
    unfold JS.eqb in Heq. apply bool_decide_eq_true in Heq.
    split; [done|]. by apply list_elem_of_In.
Qed.

(** Two records with one ASIN and a record with a blank title. *)
Lemma merge_accounting_witness :
  length (merged_books [c2_book; c2_book] no_collections) = 1 /\
  merged_duplicates [c2_book; c2_book] no_collections = 1 /\
  bm_asin c2_book ∈ map asin (merged_books [c2_book; c2_book] no_collections).
Proof.
  split; [reflexivity|]. split; [reflexivity|].
  apply (proj2 (proj2 (merge_accounting [c2_book; c2_book] no_collections))
           c2_book).
  - left.
  - vm_compute. reflexivity.
Defined.

(** The run of the three elements: two records, one book, one duplicate. *)
Lemma extracted_records_all_kept_witness :
  exists r,
    integrateAllBookData PipelineRuns.any_date
      (PipelineRuns.run_of
         [PipelineRuns.dune; PipelineRuns.element_without_asin;
          PipelineRuns.dune_again] PipelineRuns.library) = Ok r /\
    invalidBookCount (statistics r) = 0 /\
    NoDup (map asin (books r)).
Proof.
  eexists. split; [vm_compute; reflexivity|].
  match goal with
  | |- invalidBookCount (statistics ?r) = 0 /\ _ =>
      destruct (extracted_records_all_kept PipelineRuns.any_date
                  (PipelineRuns.run_of
                     [PipelineRuns.dune; PipelineRuns.element_without_asin;
                      PipelineRuns.dune_again] PipelineRuns.library) r)
        as (ps & doc & _ & _ & _ & Hi & _ & Hnd & _)
  end.
  - vm_compute. reflexivity.
  - split; [exact Hi | exact Hnd].
Defined.

(** The first book of the library run is in both collections it is
    associated with. *)
Lemma book_collections_exact_witness :
  exists b,
    b ∈ books CacheRuns.good_result /\
    JS.lit "Classics" ∈ collections b.
Proof.
  assert (Hb : exists b bs, books CacheRuns.good_result = b :: bs).
  { vm_compute. eexists _, _. reflexivity. }
  destruct Hb as (b & bs & Hb). exists b.
  assert (Hin : b ∈ books CacheRuns.good_result) by (rewrite Hb; left).
  split; [exact Hin|].
  pose proof (book_collections_exact
                (extractBookMetadata PipelineRuns.any_date
                   {| meta_data :=
                        Some (MetaMany [PipelineRuns.dune; PipelineRuns.emma]) |})
                PipelineRuns.library b (JS.lit "Classics") Hin) as H.
  apply H. split; [vm_compute; discriminate|].
  exists {| bookAsin := JS.lit "B000000001"; collectionId := JS.lit "c-2" |},
         {| coll_id := JS.lit "c-2"; coll_name := JS.lit "Classics";
            bookCount := 0; lastUpdated := None |}.
  split; [right; left|].
  split; [|split; [vm_compute; reflexivity | reflexivity]].
  vm_compute in Hb. injection Hb as <- _. reflexivity.
Defined.

(** Three collections as the reader builds them: the one with a text
    timestamp is shown with the timestamp trimmed, the one with a numeric
    timestamp leaves no trace, and the one with a blank name is
    reported. *)
Lemma result_collections_witness :
  map RawCollections.safe_id
    (fst (RawCollections.collections_phase stamped_collections []))
    = [JS.lit "c-1"] /\
  map RawCollections.safe_lastUpdated
    (fst (RawCollections.collections_phase stamped_collections []))
    = [Some (JS.lit "2024-01-01")] /\
  snd (RawCollections.collections_phase stamped_collections [])
    = [InvalidCollectionData (JS.lit "c-3")] /\
  InvalidCollectionData (JS.lit "c-3")
    ∈ default [] (errors (assemble [] odd_library)).
Proof.
  destruct (result_collections stamped_collections [] [] odd_library)
    as (Hres & _ & _ & _ & Herr).
  split; [rewrite Hres; vm_compute; reflexivity|].
  split; [rewrite Hres; vm_compute; reflexivity|].
  split; [vm_compute; reflexivity|].
  apply Herr. vm_compute. left.
Defined.

(** Both books of the library run are found by their ASIN. *)
Lemma getBookByASIN_finds_witness :
  exists b,
    BookDataQueries.getBookByASIN PipelineRuns.any_date
      (PipelineRuns.run_of [PipelineRuns.dune; PipelineRuns.emma]
         PipelineRuns.library)
      (JS.lit "B000000002") = Some b.
Proof.
  generalize (getBookByASIN_finds PipelineRuns.any_date
                (PipelineRuns.run_of [PipelineRuns.dune; PipelineRuns.emma]
                   PipelineRuns.library)).
  destruct (integrateAllBookData _ _) as [r|e] eqn:Hr;
    [|vm_compute in Hr; discriminate].
  intros (Hfind & _ & _).
  assert (Hb : exists b, b ∈ books r /\ asin b = JS.lit "B000000002").
  { vm_compute in Hr. injection Hr as <-.
    eexists. split; [right; left | reflexivity]. }
  destruct Hb as (b & Hin & Ha). exists b. rewrite <- Ha. by apply Hfind.
Defined.

End IntegrationFacts.


(** ** Further properties: the path detector *)
Module DetectorFacts.
Import PathDetector PathSpec ExtraSpec.

Lemma parse_source_tag s : parse_source (source_tag s) = Some s.
Proof. destruct s; vm_compute; reflexivity. Qed.

Lemma saveConfiguration_loaded config w w' :
  saveConfiguration config w = Ok w' ->
  fs w' = fs w /\ env w' = env w /\ clock w' = clock w /\
  config_writable w' = config_writable w /\
  getCurrentConfiguration w' =
    if JS.truthy (kindleCachePath config) then Some config else None.
Proof.
  unfold saveConfiguration. destruct (config_writable w) eqn:Hw; [|done].
  intros [= <-]. cbn [fs env clock config_writable].
  split; [done|]. split; [done|]. split; [done|]. split; [done|].
  unfold getCurrentConfiguration, isValidConfiguration.
  cbn [config_file sc_source sc_lastValidated sc_kindleCachePath].
  rewrite parse_source_tag. destruct config as [path t src].
  by destruct path.
Qed.

(** X20. What [saveConfiguration] writes is what [getCurrentConfiguration]
    reads back: the same path, time and source, provided the path is not
    empty; a configuration with an empty path is written but rejected on
    reading.  Saving changes nothing but the configuration file, and fails
    when the file cannot be written. *)
Theorem configuration_round_trip (config : PathConfiguration) (w : World) :
  (config_writable w = true ->
   exists w',
     saveConfiguration config w = Ok w' /\
     fs w' = fs w /\ env w' = env w /\ clock w' = clock w /\
     (kindleCachePath config <> [] ->
      getCurrentConfiguration w' = Some config) /\
     (kindleCachePath config = [] -> getCurrentConfiguration w' = None)) /\
  (config_writable w = false ->
   saveConfiguration config w = Throw SaveFailed).
Proof.
  split.
  - intros Hw.
    destruct (saveConfiguration config w) as [w'|e] eqn:Hs.
    + exists w'. split; [done|].
      destruct (saveConfiguration_loaded config w w' Hs)
        as (Hf & He & Hc & _ & Hget).
      split; [done|]. split; [done|]. split; [done|]. split.
      * intros Hne. rewrite Hget.
        by destruct (kindleCachePath config).
      * intros Hempty. by rewrite Hget, Hempty.
    + unfold saveConfiguration in Hs. by rewrite Hw in Hs.
  - intros Hw. unfold saveConfiguration. by rewrite Hw.
Qed.

Section WithPath.

Variable P : PathLib.

Lemma validateFile_fs w1 w2 p :
  fs w1 = fs w2 -> validateFile w1 p = validateFile w2 p.
Proof. unfold validateFile. by intros ->. Qed.

Lemma validateKindlePath_fs w1 w2 base :
  fs w1 = fs w2 -> validateKindlePath P w1 base = validateKindlePath P w2 base.
Proof.
  intros H. unfold validateKindlePath. rewrite H.
  destruct (fs w2 base) as [e|]; [|done]. destruct (kind e); try done.
  by rewrite !(validateFile_fs w1 w2 _ H).
Qed.

Lemma env_override_fs w1 w2 :
  fs w1 = fs w2 -> env w1 = env w2 -> env_override P w1 = env_override P w2.
Proof. unfold env_override. by intros -> ->. Qed.

Lemma env_override_files w ps :
  env_override P w = Some ps ->
  regular_file w (xmlPath ps) /\ regular_file w (dbPath ps).
Proof.
  unfold env_override.
  destruct (KINDLE_XML_PATH (env w)) as [x|]; [|done].
  destruct (KINDLE_DB_PATH (env w)) as [d|]; [|done].
  destruct (JS.truthy x && JS.truthy d); [|done].
  destruct (fs w (resolve P x)) as [ex|] eqn:Hx; [|done].
  destruct (fs w (resolve P d)) as [ed|] eqn:Hd; [|done].
  destruct (kind ex) eqn:Kx; try done. destruct (kind ed) eqn:Kd; try done.
  intros [= <-]. simpl. split; [by exists ex | by exists ed].
Qed.

Lemma validated_files w base ps :
  validateKindlePath P w base = Ok ps ->
  regular_file w (xmlPath ps) /\ regular_file w (dbPath ps).
Proof.
  intros H. apply PathFacts.validateKindlePath_ok in H as (_ & Hx & Hd & ->).
  simpl. split; by apply PathFacts.usable_regular.
Qed.

Lemma validated_directory w base ps :
  validateKindlePath P w base = Ok ps -> is_Some (fs w base).
Proof.
  intros H. apply PathFacts.validateKindlePath_ok in H as ((e & He & _) & _).
  by exists e.
Qed.

Lemma try_candidates_some w cands r w' :
  try_candidates P w cands = Ok (Some (r, w')) ->
  exists base src ps,
    (base, src) ∈ cands /\
    validateKindlePath P w base = Ok ps /\
    saveConfiguration {| kindleCachePath := base; lastValidated := clock w;
                         cfg_source := src |} w = Ok w' /\
    r = {| success := true; paths := Some ps; error := None;
           searchedPaths := [base]; source := src |}.
Proof.
  induction cands as [|[base src] rest IH]; simpl; [done|].
  destruct (validateKindlePath P w base) as [ps|] eqn:Hv.
  - destruct (saveConfiguration _ w) as [w1|] eqn:Hs; [|done].
    intros [= <- <-]. exists base, src, ps. split; [left|done].
  - intros H. destruct (IH H) as (b & s0 & ps & Hin & Hrest).
    exists b, s0, ps. split; [by right|done].
Qed.

Lemma try_candidates_none w cands :
  try_candidates P w cands = Ok None <->
  forall c, c ∈ cands -> is_ok (validateKindlePath P w (fst c)) = false.
Proof.
  induction cands as [|[base src] rest IH]; simpl.
  - split; [|done]. intros _ c Hc. by apply elem_of_nil in Hc.
  - destruct (validateKindlePath P w base) as [ps|] eqn:Hv.
    + split.
      * by destruct (saveConfiguration _ w).
      * intros H. specialize (H (base, src) ltac:(left)). simpl in H.
        by rewrite Hv in H.
    + rewrite IH. split.
      * intros H c Hc. apply elem_of_cons in Hc as [->|Hc]; [|by apply H].
        simpl. by rewrite Hv.
      * intros H c Hc. apply H. by right.
Qed.

Lemma failure_outcome w e searched src :
  well_formed_outcome w (failure e searched src, w).
Proof.
  unfold well_formed_outcome, failure. simpl.
  split; [done|]. split; [done|]. split; [done|]. split; [done|].
  split; [done|]. intros _. split; [done|]. split; [done|]. by eexists.
Qed.

Lemma success_outcome w w' ps searched src :
  fs w' = fs w -> env w' = env w -> clock w' = clock w ->
  config_writable w' = config_writable w ->
  regular_file w (xmlPath ps) -> regular_file w (dbPath ps) ->
  well_formed_outcome w
    ({| success := true; paths := Some ps; error := None;
        searchedPaths := searched; source := src |}, w').
Proof.
  intros Hf He Hc Hw Hx Hd. unfold well_formed_outcome. simpl.
  split; [done|]. split; [done|]. split; [done|]. split; [done|].
  split; [|done]. intros _. split; [done|]. by exists ps.
Qed.

Lemma detect_candidates_outcome w :
  well_formed_outcome w (detect_candidates P w).
Proof.
  unfold detect_candidates.
  destruct (try_candidates P w (generatePathCandidates P w))
    as [[[r w']|]|e] eqn:Ht; try apply failure_outcome.
  apply try_candidates_some in Ht as (base & src & ps & _ & Hv & Hs & ->).
  destruct (saveConfiguration_loaded _ w w' Hs) as (Hf & He & Hc & Hw & _).
  destruct (validated_files w base ps Hv) as [Hx Hd].
  by apply success_outcome.
Qed.

Lemma loadCachedConfiguration_success w :
  success (loadCachedConfiguration P w) = true <->
  exists config ps,
    getCurrentConfiguration w = Some config /\
    (clock w - lastValidated config <= CACHE_VALIDITY_MS)%Z /\
    validateKindlePath P w (kindleCachePath config) = Ok ps.
Proof.
  unfold loadCachedConfiguration. split.
  - destruct (getCurrentConfiguration w) as [config|]; [|done].
    destruct (_ <? _)%Z eqn:E; [done|]. apply Z.ltb_ge in E.
    destruct (validateKindlePath P w (kindleCachePath config)) as [ps|] eqn:Hv;
      [|done].
    intros _. by exists config, ps.
  - intros (config & ps & -> & Ht & ->).
    apply Z.ltb_ge in Ht. by rewrite Ht.
Qed.

(** X21. Every outcome of [detectKindlePaths] and of [setManualPath] is
    well formed: a success carries no error and the paths of two existing
    regular files; a failure carries an error and no paths, and has
    written nothing; and whatever the outcome, nothing but the
    configuration file has changed on the host. *)
Theorem detection_outcome (w : World) :
  (forall forceUpdate,
      well_formed_outcome w (detectKindlePaths P forceUpdate w)) /\
  (forall manualPath, well_formed_outcome w (setManualPath P manualPath w)).
Proof.
  split.
  - intros forceUpdate. unfold detectKindlePaths.
    destruct (env_override P w) as [ps|] eqn:Ho.
    + destruct (env_override_files w ps Ho) as [Hx Hd].
      by apply success_outcome.
    + destruct forceUpdate; cbn [negb]; [apply detect_candidates_outcome|].
      destruct (success (loadCachedConfiguration P w)) eqn:Hs;
        [|apply detect_candidates_outcome].
      apply loadCachedConfiguration_success in Hs
        as (config & ps & Hc & Ht & Hv).
      rewrite (PathFacts.loadCachedConfiguration_valid P w config ps Hc Ht Hv).
      destruct (validated_files w _ ps Hv) as [Hx Hd].
      by apply success_outcome.
  - intros manualPath. unfold setManualPath.
    destruct (validateAndNormalizePath P manualPath) as [norm|e];
      [|apply failure_outcome].
    destruct (validateKindlePath P w norm) as [ps|e] eqn:Hv;
      [|apply failure_outcome].
    destruct (saveConfiguration _ w) as [w'|e] eqn:Hs;
      [|apply failure_outcome].
    destruct (saveConfiguration_loaded _ w w' Hs) as (Hf & He & Hc & Hw & _).
    destruct (validated_files w norm ps Hv) as [Hx Hd].
    by apply success_outcome.
Qed.

Lemma reuse_saved w0 base src ps t dt :
  env_override P w0 = None ->
  getCurrentConfiguration w0 =
    Some {| kindleCachePath := base; lastValidated := t; cfg_source := src |} ->
  validateKindlePath P w0 base = Ok ps ->
  (clock w0 + dt - t <= CACHE_VALIDITY_MS)%Z ->
  detectKindlePaths P false (later dt w0) =
  ({| success := true; paths := Some ps; error := None;
      searchedPaths := [base]; source := src |}, later dt w0).
Proof.
  intros Ho Hc Hv Ht. unfold detectKindlePaths.
  rewrite (env_override_fs (later dt w0) w0) by done. rewrite Ho.
  cbn [negb].
  assert (Hload : loadCachedConfiguration P (later dt w0) =
                  {| success := true; paths := Some ps; error := None;
                     searchedPaths := [base]; source := src |}).
  { unfold loadCachedConfiguration.
    replace (getCurrentConfiguration (later dt w0))
      with (getCurrentConfiguration w0) by done.
    rewrite Hc. cbn [lastValidated kindleCachePath cfg_source later clock].
    apply Z.ltb_ge in Ht. rewrite Ht.
    rewrite (validateKindlePath_fs (later dt w0) w0) by done.
    by rewrite Hv. }
  by rewrite Hload.
Qed.

Lemma nonempty_truthy (s : jsstring) : s <> [] -> JS.truthy s = true.
Proof. by destruct s. Qed.

(** X22. A directory found by a fresh detection is persisted and reused:
    when the candidates are searched and one validates, every later call
    without the force flag, up to twenty-four hours later on the same
    file system, returns the very same result from the configuration
    file, without searching and without writing.  The persisted
    configuration names a directory from the list of candidates and the
    time of the detection. *)
Theorem detected_paths_reused (w w' : World) (r : PathDetectionResult)
  (dt : Z) :
  fs w [] = None ->
  env_override P w = None ->
  detect_candidates P w = (r, w') ->
  success r = true ->
  (0 <= dt <= CACHE_VALIDITY_MS)%Z ->
  detectKindlePaths P false (later dt w') = (r, later dt w') /\
  exists base src,
    (base, src) ∈ generatePathCandidates P w /\
    searchedPaths r = [base] /\ source r = src /\
    getCurrentConfiguration w' =
      Some {| kindleCachePath := base; lastValidated := clock w;
              cfg_source := src |}.
Proof.
  intros Hroot Ho Hd Hs Hdt. unfold detect_candidates in Hd.
  destruct (try_candidates P w (generatePathCandidates P w))
    as [[[r0 w0]|]|e] eqn:Ht.
  2: { injection Hd as <- <-. done. }
  2: { injection Hd as <- <-. done. }
  injection Hd as -> ->.
  apply try_candidates_some in Ht as (base & src & ps & Hin & Hv & Hsave & ->).
  destruct (saveConfiguration_loaded _ w w' Hsave)
    as (Hf & He & Hc & _ & Hget).
  cbn [kindleCachePath] in Hget.
  assert (Hbase : base <> []).
  { intros ->. destruct (validated_directory w [] ps Hv) as [e He'].
    congruence. }
  rewrite (nonempty_truthy base Hbase) in Hget.
  split.
  - apply (reuse_saved w' base src ps (clock w) dt).
    + by rewrite (env_override_fs w' w).
    + exact Hget.
    + by rewrite (validateKindlePath_fs w' w).
    + rewrite Hc. lia.
  - by exists base, src.
Qed.

(** X23. A directory accepted by [setManualPath] is what the detector
    uses afterwards: every later call without the force flag, up to
    twenty-four hours later on the same file system, returns the same
    paths with source [manual].  What is persisted is the resolved form of
    the trimmed input, which holds neither two dots in a row nor one of
    the forbidden characters. *)
Theorem manual_path_reused (w w' : World) (manualPath : jsstring)
  (r : PathDetectionResult) (dt : Z) :
  fs w [] = None ->
  env_override P w = None ->
  setManualPath P manualPath w = (r, w') ->
  success r = true ->
  (0 <= dt <= CACHE_VALIDITY_MS)%Z ->
  detectKindlePaths P false (later dt w') = (r, later dt w') /\
  source r = SManual /\
  getCurrentConfiguration w' =
    Some {| kindleCachePath := resolve P (JS.trim manualPath);
            lastValidated := clock w; cfg_source := SManual |} /\
  JS.includes (JS.lit "..") (resolve P (JS.trim manualPath)) = false /\
  JS.test_class invalidChars (resolve P (JS.trim manualPath)) = false.
Proof.
  intros Hroot Ho Hm Hs Hdt. unfold setManualPath in Hm.
  destruct (validateAndNormalizePath P manualPath) as [norm|e] eqn:Hn.
  2: { injection Hm as <- <-. done. }
  destruct (validateKindlePath P w norm) as [ps|e] eqn:Hv.
  2: { injection Hm as <- <-. done. }
  destruct (saveConfiguration _ w) as [w0|e] eqn:Hsave.
  2: { injection Hm as <- <-. done. }
  injection Hm as <- <-.
  unfold validateAndNormalizePath in Hn.
  destruct (JS.truthy manualPath); cbn [negb] in Hn; [|done].
  destruct (JS.includes _ _) eqn:Hinc; [done|].
  destruct (JS.test_class _ _) eqn:Hcls; [done|].
  injection Hn as <-.
  destruct (saveConfiguration_loaded _ w w0 Hsave)
    as (Hf & He & Hc & _ & Hget).
  cbn [kindleCachePath] in Hget.
  set (norm := resolve P (JS.trim manualPath)) in *.
  assert (Hbase : norm <> []).
  { intros Heq. rewrite Heq in Hv.
    destruct (validated_directory w [] ps Hv) as [e He']. congruence. }
  rewrite (nonempty_truthy norm Hbase) in Hget.
  split; [|done].
  apply (reuse_saved w0 norm SManual ps (clock w) dt).
  - by rewrite (env_override_fs w0 w).
  - exact Hget.
  - by rewrite (validateKindlePath_fs w0 w).
  - rewrite Hc. lia.
Qed.

Lemma filter_indexed_from {A} (f : A -> nat -> bool) (g : A -> option nat)
  (l : list A) (k : nat) (y : A) :
  (forall x i, f x i = true -> g x = Some i) ->
  y ∈ filter_indexed f k l -> exists j, k <= j /\ g y = Some j.
Proof.
  intros Hf. revert k. induction l as [|x r IH]; intros k; simpl.
  - intros H. by apply elem_of_nil in H.
  - destruct (f x k) eqn:E.
    + intros H. apply elem_of_cons in H as [->|H].
      * exists k. split; [lia|]. by apply Hf.
      * destruct (IH _ H) as (j & Hj & Hg). exists j. split; [lia|done].
    + intros H. destruct (IH _ H) as (j & Hj & Hg). exists j. split; [lia|done].
Qed.

Lemma filter_indexed_length {A} (f : A -> nat -> bool) (l : list A) k :
  length (filter_indexed f k l) <= length l.
Proof.
  revert k. induction l as [|x r IH]; intros k; simpl; [lia|].
  destruct (f x k); simpl; specialize (IH (S k)); lia.
Qed.

Lemma filter_indexed_keeps {A} (f : A -> nat -> bool) (l : list A) k i x :
  l !! i = Some x -> f x (k + i) = true -> x ∈ filter_indexed f k l.
Proof.
  revert k i. induction l as [|y r IH]; intros k i; [done|].
  destruct i as [|i]; simpl.
  - intros [= ->]. rewrite Nat.add_0_r. intros ->. left.
  - intros Hx Hf. replace (k + S i) with (S k + i) in Hf by lia.
    destruct (f y k); [right|]; by apply (IH (S k) i).
Qed.

Lemma findIndex_some {A} (f : A -> bool) (l : list A) x :
  x ∈ l -> f x = true ->
  exists j y, findIndex f l = Some j /\ l !! j = Some y /\ f y = true.
Proof.
  induction l as [|z r IH]; simpl.
  - intros H. by apply elem_of_nil in H.
  - intros Hin Hf. destruct (f z) eqn:E.
    + by exists 0, z.
    + apply elem_of_cons in Hin as [->|Hin]; [congruence|].
      destruct (IH Hin Hf) as (j & y & -> & Hy & Hfy).
      by exists (S j), y.
Qed.

Lemma candidates_nodup (cands : list (jsstring * Source)) (k : nat)
  (l : list (jsstring * Source)) :
  NoDup
    (map fst
       (filter_indexed
          (fun candidate index =>
             bool_decide
               (findIndex (fun c => JS.eqb (fst c) (fst candidate)) cands
                = Some index)) k l)).
Proof.
  revert k. induction l as [|x r IH]; intros k; simpl; [constructor|].
  case_bool_decide as Hx; [|apply IH].
  simpl. apply NoDup_cons. split; [|apply IH].
  intros Hin. apply list_elem_of_fmap in Hin as (y & Hy & Hin).
  apply (filter_indexed_from _
           (fun c => findIndex (fun c' => JS.eqb (fst c') (fst c)) cands))
    in Hin as (j & Hj & Hg).
  - rewrite <- Hy in Hg. rewrite Hx in Hg. injection Hg as Hg. lia.
  - intros c i Hc. by apply bool_decide_eq_true in Hc.
Qed.

Lemma candidates_cover (cands : list (jsstring * Source)) c :
  c ∈ cands ->
  fst c ∈
    map fst
      (filter_indexed
         (fun candidate index =>
            bool_decide
              (findIndex (fun c => JS.eqb (fst c) (fst candidate)) cands
               = Some index)) 0 cands).
Proof.
  intros Hc.
  destruct (findIndex_some (fun c' => JS.eqb (fst c') (fst c)) cands c Hc)
    as (j & y & Hj & Hy & Hfy).
  { unfold JS.eqb. by apply bool_decide_eq_true. }
  unfold JS.eqb in Hfy. apply bool_decide_eq_true in Hfy.
  apply list_elem_of_fmap. exists y. split; [done|].
  apply (filter_indexed_keeps _ cands 0 j y Hy).
  apply bool_decide_eq_true. simpl. by rewrite Hfy.
Qed.

(** X24. The candidates of the search are at most three, no directory is
    tried twice, and every directory the environment yields is among
    them; a cache path of the environment comes first, with source [env],
    also when it is one of the standard locations.  When no candidate
    validates, the failure lists every candidate it tried, and nothing is
    written. *)
Theorem candidates_distinct (w : World) :
  NoDup (map fst (generatePathCandidates P w)) /\
  length (generatePathCandidates P w) <= 3 /\
  (forall envPath,
      KINDLE_CACHE_PATH (env w) = Some envPath -> envPath <> [] ->
      head (generatePathCandidates P w) = Some (resolve P envPath, SEnv)) /\
  (forall userProfile,
      USERPROFILE (env w) = Some userProfile -> userProfile <> [] ->
      join P ([userProfile; JS.lit "AppData"; JS.lit "Local"] ++ auto_segments)
        ∈ map fst (generatePathCandidates P w)) /\
  (forall localAppData,
      LOCALAPPDATA (env w) = Some localAppData -> localAppData <> [] ->
      join P (localAppData :: auto_segments)
        ∈ map fst (generatePathCandidates P w)) /\
  ((forall c, c ∈ generatePathCandidates P w ->
      is_ok (validateKindlePath P w (fst c)) = false) ->
   detect_candidates P w =
   (failure (NoCandidateFound (map fst (generatePathCandidates P w)))
      (map fst (generatePathCandidates P w)) SAuto, w)).
Proof.
  split; [apply candidates_nodup|]. split.
  { unfold generatePathCandidates. cbv zeta.
    etrans; [apply filter_indexed_length|].
    rewrite !length_app.
    destruct (KINDLE_CACHE_PATH (env w)) as [a|];
      [destruct (JS.truthy a)|];
      (destruct (USERPROFILE (env w)) as [b|]; [destruct (JS.truthy b)|]);
      (destruct (LOCALAPPDATA (env w)) as [c|]; [destruct (JS.truthy c)|]);
      simpl; lia. }
  split.
  { intros envPath He Hne. unfold generatePathCandidates. rewrite He.
    rewrite (nonempty_truthy envPath Hne). cbv zeta.
    cbn [app filter_indexed findIndex fst].
    assert (Hrefl : JS.eqb (resolve P envPath) (resolve P envPath) = true)
      by (unfold JS.eqb; by apply bool_decide_eq_true).
    rewrite Hrefl. by rewrite (bool_decide_true (Some 0 = Some 0)). }
  split.
  { intros userProfile Hu Hne.
    apply (candidates_cover _
             (join P ([userProfile; JS.lit "AppData"; JS.lit "Local"]
                        ++ auto_segments), SAuto)).
    rewrite Hu, (nonempty_truthy userProfile Hne).
    apply elem_of_app. right. apply elem_of_app. left. left. }
  split.
  { intros localAppData Hl Hne.
    apply (candidates_cover _ (join P (localAppData :: auto_segments), SAuto)).
    rewrite Hl, (nonempty_truthy localAppData Hne).
    apply elem_of_app. right. apply elem_of_app. right. left. }
  intros Hall. unfold detect_candidates.
  apply try_candidates_none in Hall. by rewrite Hall.
Qed.

(** X25. Without the force flag the detector still searches exactly when
    the persisted configuration is of no use: it is missing or not valid,
    it is more than twenty-four hours old, or its directory no longer
    validates.  A configuration exactly twenty-four hours old is still
    used. *)
Theorem stale_configuration_ignored (w : World) :
  env_override P w = None ->
  (success (loadCachedConfiguration P w) = true <->
   exists config ps,
     getCurrentConfiguration w = Some config /\
     (clock w - lastValidated config <= CACHE_VALIDITY_MS)%Z /\
     validateKindlePath P w (kindleCachePath config) = Ok ps) /\
  (success (loadCachedConfiguration P w) = false ->
   detectKindlePaths P false w = detect_candidates P w) /\
  (success (loadCachedConfiguration P w) = true ->
   detectKindlePaths P false w = (loadCachedConfiguration P w, w) /\
   searchedPaths (loadCachedConfiguration P w)
     = (fun c => kindleCachePath c) <$> option_list (getCurrentConfiguration w)).
Proof.
  intros Ho. split; [apply loadCachedConfiguration_success|].
  unfold detectKindlePaths. rewrite Ho. cbn [negb]. split.
  - by intros ->.
  - intros Hs. rewrite Hs. split; [done|].
    apply loadCachedConfiguration_success in Hs
      as (config & ps & Hc & Ht & Hv).
    rewrite (PathFacts.loadCachedConfiguration_valid P w config ps Hc Ht Hv).
    by rewrite Hc.
Qed.

End WithPath.

(** A writable host: the configuration that is saved is read back. *)
Lemma configuration_round_trip_witness :
  exists w',
    saveConfiguration kindle_config fresh_host = Ok w' /\
    getCurrentConfiguration w' = Some kindle_config.
Proof.
  destruct (proj1 (configuration_round_trip kindle_config fresh_host)
              eq_refl)
    as (w' & Hs & _ & _ & _ & Hget & _).
  exists w'. split; [exact Hs|]. apply Hget. vm_compute. discriminate.
Defined.

(** The detection on the host with two directories, forced and not. *)
Lemma detection_outcome_witness :
  success (fst (detectKindlePaths (posix cwd) true two_dirs_host)) = true /\
  error (fst (detectKindlePaths (posix cwd) true two_dirs_host)) = None.
Proof.
  destruct (proj1 (detection_outcome (posix cwd) two_dirs_host) true)
    as (_ & _ & _ & _ & Hok & _).
  assert (Hs : success (fst (detectKindlePaths (posix cwd) true two_dirs_host))
               = true) by (vm_compute; reflexivity).
  split; [exact Hs|]. exact (proj1 (Hok Hs)).
Defined.

(** The forced detection on the host with two directories, and a call one
    hour later. *)
Lemma detected_paths_reused_witness :
  detectKindlePaths (posix cwd) false
    (later 3600000 (snd (detect_candidates (posix cwd) two_dirs_host)))
  = (fst (detect_candidates (posix cwd) two_dirs_host),
     later 3600000 (snd (detect_candidates (posix cwd) two_dirs_host))).
Proof.
  apply (proj1 (detected_paths_reused (posix cwd) two_dirs_host
                  (snd (detect_candidates (posix cwd) two_dirs_host))
                  (fst (detect_candidates (posix cwd) two_dirs_host))
                  3600000
                  ltac:(vm_compute; reflexivity)
                  ltac:(vm_compute; reflexivity)
                  ltac:(by destruct (detect_candidates (posix cwd) two_dirs_host))
                  ltac:(vm_compute; reflexivity)
                  ltac:(vm_compute; split; discriminate))).
Defined.

(** A manual path on the fresh host, and a call one hour later. *)
Lemma manual_path_reused_witness :
  detectKindlePaths (posix cwd) false
    (later 3600000 (snd (setManualPath (posix cwd) (JS.lit " /kindle ")
                           fresh_host)))
  = (fst (setManualPath (posix cwd) (JS.lit " /kindle ") fresh_host),
     later 3600000 (snd (setManualPath (posix cwd) (JS.lit " /kindle ")
                           fresh_host))).
Proof.
  apply (proj1 (manual_path_reused (posix cwd) fresh_host
                  (snd (setManualPath (posix cwd) (JS.lit " /kindle ")
                          fresh_host))
                  (JS.lit " /kindle ")
                  (fst (setManualPath (posix cwd) (JS.lit " /kindle ")
                          fresh_host))
                  3600000
                  ltac:(vm_compute; reflexivity)
                  ltac:(vm_compute; reflexivity)
                  ltac:(by destruct (setManualPath (posix cwd)
                                       (JS.lit " /kindle ") fresh_host))
                  ltac:(vm_compute; reflexivity)
                  ltac:(vm_compute; split; discriminate))).
Defined.

(** The cache path of the environment is the standard location: one
    candidate of the two that differ, tagged [env], and a failure that
    lists both. *)
Lemma candidates_distinct_witness :
  map snd (generatePathCandidates (posix cwd) same_dir_host) = [SEnv] /\
  detect_candidates (posix cwd) same_dir_host =
  (failure (NoCandidateFound [JS.lit profile_cache])
     [JS.lit profile_cache] SAuto, same_dir_host).
Proof.
  split; [vm_compute; reflexivity|].
  destruct (candidates_distinct (posix cwd) same_dir_host)
    as (_ & _ & _ & _ & _ & Hfail).
  rewrite Hfail.
  - vm_compute. reflexivity.
  - intros c Hc.
    assert (Hl : generatePathCandidates (posix cwd) same_dir_host
                 = [(JS.lit profile_cache, SEnv)]) by (vm_compute; reflexivity).
    rewrite Hl in Hc. apply list_elem_of_singleton in Hc. subst c.
    vm_compute. reflexivity.
Defined.

(** A persisted resolution that is one second too old is passed over. *)
Lemma stale_configuration_ignored_witness :
  source (fst (detectKindlePaths (posix cwd) false expired_host)) = SAuto /\
  detectKindlePaths (posix cwd) false expired_host
    = detect_candidates (posix cwd) expired_host.
Proof.
  destruct (stale_configuration_ignored (posix cwd) expired_host)
    as (_ & Hstale & _).
  - vm_compute. reflexivity.
  - split; [vm_compute; reflexivity|]. apply Hstale. vm_compute. reflexivity.
Defined.

End DetectorFacts.


(** ** Further properties: the queries of the book service and the route *)
Module QueryFacts.
Import BookModel BookService BookQueries BooksRoute ExtraSpec.

Lemma kata_hira_kata c : kata_to_hira (hira_to_kata c) = kata_to_hira c.
Proof.
  unfold kata_to_hira, hira_to_kata.
  destruct ((12353 <=? c) && (c <=? 12438))%N eqn:E1.
  - apply andb_true_iff in E1 as [H1 H2].
    apply N.leb_le in H1. apply N.leb_le in H2.
    replace ((12449 <=? c + 96) && (c + 96 <=? 12534))%N with true
      by (symmetry; apply andb_true_iff; split; apply N.leb_le; lia).
    replace ((12449 <=? c) && (c <=? 12534))%N with false
      by (symmetry; apply andb_false_iff; left; apply N.leb_gt; lia).
    lia.
  - done.
Qed.

Lemma hira_kata_hira c : hira_to_kata (kata_to_hira c) = hira_to_kata c.
Proof.
  unfold kata_to_hira, hira_to_kata.
  destruct ((12449 <=? c) && (c <=? 12534))%N eqn:E1.
  - apply andb_true_iff in E1 as [H1 H2].
    apply N.leb_le in H1. apply N.leb_le in H2.
    replace ((12353 <=? c - 96) && (c - 96 <=? 12438))%N with true
      by (symmetry; apply andb_true_iff; split; apply N.leb_le; lia).
    replace ((12353 <=? c) && (c <=? 12438))%N with false
      by (symmetry; apply andb_false_iff; right; apply N.leb_gt; lia).
    lia.
  - done.
Qed.

Lemma kata_to_hira_fixed c : not_katakana c -> kata_to_hira c = c.
Proof.
  unfold not_katakana, kata_to_hira. intros H.
  destruct ((12449 <=? c) && (c <=? 12534))%N eqn:E; [|done].
  apply andb_true_iff in E as [H1 H2].
  apply N.leb_le in H1. apply N.leb_le in H2. lia.
Qed.

Lemma hira_to_kata_fixed c : not_hiragana c -> hira_to_kata c = c.
Proof.
  unfold not_hiragana, hira_to_kata. intros H.
  destruct ((12353 <=? c) && (c <=? 12438))%N eqn:E; [|done].
  apply andb_true_iff in E as [H1 H2].
  apply N.leb_le in H1. apply N.leb_le in H2. lia.
Qed.

(** X26. The two kana conversions undo each other: a string without
    katakana letters comes back unchanged from [hiraganaToKatakana]
    followed by [katakanaToHiragana], and a string without hiragana
    letters from the other round; on any string a conversion after the
    opposite one is the conversion alone, each conversion applied twice is
    itself, and the number of code units never changes. *)
Theorem kana_round_trip (s : jsstring) :
  (Forall not_katakana s -> katakanaToHiragana (hiraganaToKatakana s) = s) /\
  (Forall not_hiragana s -> hiraganaToKatakana (katakanaToHiragana s) = s) /\
  katakanaToHiragana (hiraganaToKatakana s) = katakanaToHiragana s /\
  hiraganaToKatakana (katakanaToHiragana s) = hiraganaToKatakana s /\
  hiraganaToKatakana (hiraganaToKatakana s) = hiraganaToKatakana s /\
  katakanaToHiragana (katakanaToHiragana s) = katakanaToHiragana s /\
  length (hiraganaToKatakana s) = length s /\
  length (katakanaToHiragana s) = length s.
Proof.
  unfold katakanaToHiragana, hiraganaToKatakana.
  assert (H1 : map kata_to_hira (map hira_to_kata s) = map kata_to_hira s).
  { rewrite map_map. apply map_ext. apply kata_hira_kata. }
  assert (H2 : map hira_to_kata (map kata_to_hira s) = map hira_to_kata s).
  { rewrite map_map. apply map_ext. apply hira_kata_hira. }
  split; [|split; [|split; [exact H1|split; [exact H2|]]]].
  - intros Hs. rewrite H1. clear H1 H2.
    induction Hs as [|c r Hc _ IH]; simpl; [done|].
    by rewrite IH, kata_to_hira_fixed.
  - intros Hs. rewrite H2. clear H1 H2.
    induction Hs as [|c r Hc _ IH]; simpl; [done|].
    by rewrite IH, hira_to_kata_fixed.
  - split; [|split; [|by rewrite !length_map]].
    + rewrite map_map. apply map_ext. intros c. unfold hira_to_kata.
      destruct ((12353 <=? c) && (c <=? 12438))%N eqn:E; [|by rewrite E].
      apply andb_true_iff in E as [E1 E2].
      apply N.leb_le in E1. apply N.leb_le in E2.
      replace ((12353 <=? c + 96) && (c + 96 <=? 12438))%N with false; [done|].
      symmetry. apply andb_false_iff. right. apply N.leb_gt. lia.
    + rewrite map_map. apply map_ext. intros c. unfold kata_to_hira.
      destruct ((12449 <=? c) && (c <=? 12534))%N eqn:E; [|by rewrite E].
      apply andb_true_iff in E as [E1 E2].
      apply N.leb_le in E1. apply N.leb_le in E2.
      replace ((12449 <=? c - 96) && (c - 96 <=? 12534))%N with false; [done|].
      symmetry. apply andb_false_iff. left. apply N.leb_gt. lia.
Qed.

Lemma array_slice_window {A} (l : list A) (o n : Z) :
  (0 <= o)%Z -> (0 <= n)%Z ->
  JSMore.array_slice l o (o + n) = take (Z.to_nat n) (drop (Z.to_nat o) l).
Proof.
  intros Ho Hn. unfold JSMore.array_slice, JSMore.slice_index.
  replace (o <? 0)%Z with false by (symmetry; apply Z.ltb_ge; lia).
  replace (o + n <? 0)%Z with false by (symmetry; apply Z.ltb_ge; lia).
  destruct (decide (Z.of_nat (length l) <= o)%Z) as [Hbig|Hsmall].
  - rewrite (drop_ge l (Z.to_nat (Z.min o (Z.of_nat (length l))))) by lia.
    rewrite (drop_ge l (Z.to_nat o)) by lia. by rewrite !take_nil.
  - replace (Z.to_nat (Z.min o (Z.of_nat (length l)))) with (Z.to_nat o) by lia.
    destruct (decide (o + n <= Z.of_nat (length l))%Z) as [Hfit|Hover].
    + f_equal. lia.
    + rewrite !take_ge; [done| |]; rewrite length_drop; lia.
Qed.

(** X27. With an offset that is not negative and a limit above zero, the
    page of [getBooks] is the window of that many books after the offset:
    the page followed by the books after it is the list from the offset
    on, the page is never longer than the limit, and [hasMore] holds
    exactly when a book is left after the page.  A limit of zero or a
    missing one stands for one thousand, a missing offset for zero. *)
Theorem paginate_window (filteredBooks : list Book)
  (params : BookSearchParams) :
  (0 <= effective_offset params)%Z -> (0 < effective_limit params)%Z ->
  fst (paginate filteredBooks params)
    = take (Z.to_nat (effective_limit params))
        (drop (Z.to_nat (effective_offset params)) filteredBooks) /\
  fst (paginate filteredBooks params)
    ++ drop (Z.to_nat (effective_offset params + effective_limit params))
         filteredBooks
    = drop (Z.to_nat (effective_offset params)) filteredBooks /\
  (Z.of_nat (length (fst (paginate filteredBooks params)))
     <= effective_limit params)%Z /\
  (snd (paginate filteredBooks params) = true <->
   drop (Z.to_nat (effective_offset params + effective_limit params))
     filteredBooks <> []) /\
  (limit params = Some 0%Z \/ limit params = None ->
   effective_limit params = 1000%Z) /\
  (offset params = None -> effective_offset params = 0%Z).
Proof.
  intros Ho Hl. unfold paginate. cbn [fst snd].
  fold (effective_offset params). fold (effective_limit params).
  rewrite array_slice_window by lia.
  split; [done|]. split.
  { rewrite <- (take_drop (Z.to_nat (effective_limit params))
                  (drop (Z.to_nat (effective_offset params)) filteredBooks))
      at 2.
    f_equal. rewrite drop_drop. f_equal. lia. }
  split.
  { rewrite length_take. lia. }
  split.
  { rewrite Z.ltb_lt. split.
    - intros Hlt Hnil. apply (f_equal length) in Hnil.
      rewrite length_drop in Hnil. simpl in Hnil. lia.
    - intros Hne.
      destruct (decide (effective_offset params + effective_limit params
                        < Z.of_nat (length filteredBooks))%Z); [done|].
      exfalso. apply Hne. apply drop_ge. lia. }
  split.
  - unfold effective_limit, number_or. by intros [-> | ->].
  - unfold effective_offset, number_or. by intros ->.
Qed.

Lemma params_of_bounds q :
  (1 <= effective_limit (params_of q) <= 1000)%Z /\
  (0 <= effective_offset (params_of q))%Z.
Proof.
  unfold effective_limit, effective_offset, params_of, parsedLimit,
    parsedOffset, number_or, parsed_or. cbn [limit offset].
  split.
  - destruct (q_limit q) as [|[v|]]; simpl; [lia| |lia].
    destruct (Z.eqb_spec (Z.min (Z.max 1 v) 1000) 0); lia.
  - destruct (q_offset q) as [|[v|]]; simpl; [lia| |lia].
    destruct (Z.eqb_spec (Z.max 0 v) 0); lia.
Qed.

Lemma paginate_length (books : list Book) (params : BookSearchParams) :
  (0 <= effective_offset params)%Z -> (0 < effective_limit params)%Z ->
  (Z.of_nat (length (fst (paginate books params)))
     <= effective_limit params)%Z /\
  length (fst (paginate books params)) <= length books.
Proof.
  intros Ho Hl. unfold paginate. cbn [fst].
  fold (effective_offset params). fold (effective_limit params).
  rewrite array_slice_window by lia.
  rewrite length_take, length_drop. lia.
Qed.

Lemma array_slice_sub {A} (l : list A) (i j : Z) x :
  x ∈ JSMore.array_slice l i j -> x ∈ l.
Proof.
  unfold JSMore.array_slice. intros H.
  apply elem_of_take in H as (k & Hk & _).
  rewrite lookup_drop in Hk. by apply list_elem_of_lookup_2 in Hk.
Qed.

Lemma array_slice_length {A} (l : list A) (i j : Z) :
  length (JSMore.array_slice l i j) <= length l.
Proof.
  unfold JSMore.array_slice. rewrite length_take, length_drop. lia.
Qed.

Lemma fold_set_add l acc :
  NoDup acc ->
  NoDup (fold_left JSMore.set_add l acc) /\
  forall x, x ∈ fold_left JSMore.set_add l acc <-> x ∈ acc \/ x ∈ l.
Proof.
  revert acc. induction l as [|y r IH]; intros acc Hnd; simpl.
  - split; [done|]. intros x. split; [by left|].
    intros [H|H]; [done|]. by apply elem_of_nil in H.
  - assert (Hstep : NoDup (JSMore.set_add acc y) /\
                    forall x, x ∈ JSMore.set_add acc y <-> x ∈ acc \/ x = y).
    { unfold JSMore.set_add.
      destruct (JS.arr_includes y acc) eqn:E.
      - apply JSFacts.arr_includes_spec in E. split; [done|].
        intros x. split; [by left|]. intros [H | ->]; done.
      - split.
        + apply NoDup_app. split; [done|]. split; [|apply NoDup_singleton].
          intros x Hx Hy. apply list_elem_of_singleton in Hy. subst x.
          apply JSFacts.arr_includes_spec in Hx. congruence.
        + intros x. by rewrite elem_of_app, list_elem_of_singleton. }
    destruct Hstep as [Hnd' Hel]. destruct (IH _ Hnd') as [Hn Hx].
    split; [done|]. intros x. rewrite Hx, Hel, elem_of_cons. tauto.
Qed.

Lemma collect_names (bs : list Book) acc :
  NoDup acc ->
  NoDup (fold_left
           (fun acc book => fold_left JSMore.set_add (collections book) acc)
           bs acc) /\
  forall x,
    x ∈ fold_left
          (fun acc book => fold_left JSMore.set_add (collections book) acc)
          bs acc
    <-> x ∈ acc \/ exists b, b ∈ bs /\ x ∈ collections b.
Proof.
  revert acc. induction bs as [|b r IH]; intros acc Hnd; simpl.
  - split; [done|]. intros x. split; [by left|].
    intros [H|(b & Hb & _)]; [done|]. by apply elem_of_nil in Hb.
  - destruct (fold_set_add (collections b) acc Hnd) as [Hnd' Hel].
    destruct (IH _ Hnd') as [Hn Hx]. split; [done|].
    intros x. rewrite Hx, Hel. split.
    + intros [[H|H]|(b' & Hb' & H)].
      * by left.
      * right. exists b. split; [left|done].
      * right. exists b'. split; [by right|done].
    + intros [H|(b' & Hb' & H)]; [by left; left|].
      apply elem_of_cons in Hb' as [->|Hb'].
      * left. by right.
      * right. by exists b'.
Qed.

Section WithPlatform.

Variable toLowerCase : jsstring -> jsstring.
Variable sort_by_title : bool -> list Book -> list Book.
Variable sort_names : list jsstring -> list jsstring.
Variable pipeline :
  nat -> Result BookDataService.IntegrationError
           BookDataService.BookDataIntegrationResult.

Lemma sortBooks_permutes books sortType :
  (forall descending l, sort_by_title descending l ≡ₚ l) ->
  sortBooks sort_by_title books sortType ≡ₚ books.
Proof.
  intros Hsort. unfold sortBooks. destruct (JS.eqb sortType _); [done|].
  by destruct (JS.eqb sortType _).
Qed.

Lemma apply_filters_elem params all b :
  b ∈ apply_filters toLowerCase params all <->
  b ∈ all /\
  (forall term, search params = Some term -> term <> [] ->
                title_matches toLowerCase term b = true) /\
  (forall name, collection params = Some name -> name <> [] ->
                name ∈ collections b).
Proof.
  unfold apply_filters.
  set (filtered1 := match search params with
                    | Some term =>
                        if JS.truthy term
                        then List.filter (title_matches toLowerCase term) all
                        else all
                    | None => all
                    end).
  assert (H1 : b ∈ filtered1 <->
               b ∈ all /\
               (forall term, search params = Some term -> term <> [] ->
                             title_matches toLowerCase term b = true)).
  { unfold filtered1. destruct (search params) as [term|].
    - destruct (JS.truthy term) eqn:Ht.
      + rewrite list_elem_of_In, filter_In, <- list_elem_of_In. split.
        * intros [Hin Hm]. split; [done|]. by intros term' [= <-] _.
        * intros [Hin Hm]. split; [done|]. apply Hm; [done|].
          by apply JSFacts.truthy_nonempty.
      + split; [|by intros [? _]]. intros Hin. split; [done|].
        intros term' [= <-] Hne. apply JSFacts.truthy_nonempty in Hne.
        congruence.
    - split; [|by intros [? _]]. intros Hin. by split. }
  destruct (collection params) as [name|].
  - destruct (JS.truthy name) eqn:Hn.
    + rewrite list_elem_of_In, filter_In, <- list_elem_of_In, H1.
      rewrite JSFacts.arr_includes_spec. split.
      * intros [[Hin Hs] Hc]. split; [done|]. split; [done|].
        by intros name' [= <-] _.
      * intros (Hin & Hs & Hc). split; [done|]. apply Hc; [done|].
        by apply JSFacts.truthy_nonempty.
    + rewrite H1. split.
      * intros [Hin Hs]. split; [done|]. split; [done|].
        intros name' [= <-] Hne. apply JSFacts.truthy_nonempty in Hne.
        congruence.
      * by intros (Hin & Hs & _).
  - rewrite H1. split.
    + intros [Hin Hs]. by split.
    + by intros (Hin & Hs & _).
Qed.

Lemma getBooks_ok params now st r st' :
  getBooks toLowerCase sort_by_title pipeline params now st = (Ok r, st') ->
  exists allBooks,
    getAllBooks pipeline now st = (Ok allBooks, st') /\
    totalCount r
      = length (sortBooks sort_by_title
                  (apply_filters toLowerCase params (ref_books allBooks))
                  (JSMore.or_else (sort params) (JS.lit "title_asc"))) /\
    sr_books r
      = fst (paginate
               (sortBooks sort_by_title
                  (apply_filters toLowerCase params (ref_books allBooks))
                  (JSMore.or_else (sort params) (JS.lit "title_asc")))
               params).
Proof.
  intros H. unfold getBooks in H.
  destruct (getAllBooks pipeline now st) as [[allBooks|e] st1]; [|done].
  destruct (paginate _ params) as [page more] eqn:Hp.
  injection H as <- <-. exists allBooks. by rewrite Hp.
Qed.

(** X28. Whatever the sort does to the order, a search that returns
    reports as total the number of cached books that pass the two filters,
    and returns only such books: each is a book of the cache, its title
    contains the search term (in lower case, as given or with its kana
    converted) when a term is given, and it is in the collection when one
    is given.  An empty term or collection filters nothing.  A failure
    of the integration surfaces as the error of the search, and the cache
    is left as [getAllBooks] left it. *)
Theorem getBooks_result (params : BookSearchParams) (now : Z) (st : State) :
  (forall descending l, sort_by_title descending l ≡ₚ l) ->
  (forall r st',
      getBooks toLowerCase sort_by_title pipeline params now st = (Ok r, st') ->
      exists allBooks,
        getAllBooks pipeline now st = (Ok allBooks, st') /\
        totalCount r
          = length (apply_filters toLowerCase params (ref_books allBooks)) /\
        length (sr_books r) <= totalCount r /\
        (forall b, b ∈ sr_books r ->
           b ∈ ref_books allBooks /\
           (forall term, search params = Some term -> term <> [] ->
                         title_matches toLowerCase term b = true) /\
           (forall name, collection params = Some name -> name <> [] ->
                         name ∈ collections b))) /\
  (forall e st',
      getAllBooks pipeline now st = (Throw e, st') ->
      getBooks toLowerCase sort_by_title pipeline params now st
        = (Throw (SearchFailed e), st')).
Proof.
  intros Hsort. split.
  - intros r st' H.
    destruct (getBooks_ok params now st r st' H) as (allBooks & Hall & Ht & Hb).
    exists allBooks. split; [done|].
    pose proof (sortBooks_permutes
                  (apply_filters toLowerCase params (ref_books allBooks))
                  (JSMore.or_else (sort params) (JS.lit "title_asc")) Hsort)
      as Hperm.
    split; [by rewrite Ht, (Permutation_length Hperm)|]. split.
    { rewrite Ht, Hb. unfold paginate. cbn [fst]. apply array_slice_length. }
    intros b Hin. rewrite Hb in Hin. unfold paginate in Hin. cbn [fst] in Hin.
    apply array_slice_sub in Hin. rewrite Hperm in Hin.
    by apply apply_filters_elem in Hin.
  - intros e st' H. unfold getBooks. by rewrite H.
Qed.

(** X29. [getCollections] returns every collection name that some cached
    book carries, each once, and nothing else; when the integration
    fails it fails in the same way. *)
Theorem getCollections_names (now : Z) (st : State) :
  (forall names, sort_names names ≡ₚ names) ->
  (forall names st',
      getCollections sort_names pipeline now st = (Ok names, st') ->
      exists allBooks,
        getAllBooks pipeline now st = (Ok allBooks, st') /\
        NoDup names /\
        forall x, x ∈ names <->
                  exists b, b ∈ ref_books allBooks /\ x ∈ collections b) /\
  (forall e st',
      getAllBooks pipeline now st = (Throw e, st') ->
      getCollections sort_names pipeline now st = (Throw e, st')).
Proof.
  intros Hsort. split.
  - intros names st' H. unfold getCollections in H.
    destruct (getAllBooks pipeline now st) as [[allBooks|e] st1]; [|done].
    injection H as <- <-. exists allBooks. split; [done|].
    destruct (collect_names (ref_books allBooks) [] (NoDup_nil_2))
      as [Hnd Hel].
    split; [by rewrite Hsort|].
    intros x. rewrite Hsort, Hel. split.
    + intros [H|H]; [by apply elem_of_nil in H|done].
    + by right.
  - intros e st' H. unfold getCollections. by rewrite H.
Qed.

(** X30. Whatever numbers the query of [GET /api/books] carries, the
    handler asks for a limit between one and one thousand and an offset
    that is not negative, also when a number cannot be parsed; so a
    response never holds more than one thousand books, never more than the
    limit asked for, and never more than the total it reports. *)
Theorem route_limits (q : Query) (now : Z) (st : State) :
  (1 <= effective_limit (params_of q) <= 1000)%Z /\
  (0 <= effective_offset (params_of q))%Z /\
  (q_limit q = Parsed None -> effective_limit (params_of q) = 1000%Z) /\
  (forall v, q_limit q = Parsed (Some v) -> (v <= 1)%Z ->
             effective_limit (params_of q) = 1%Z) /\
  (forall bs total more st',
      get_books toLowerCase sort_by_title pipeline q now st
        = (Json200 bs total more, st') ->
      (Z.of_nat (length bs) <= effective_limit (params_of q))%Z /\
      length bs <= 1000 /\ length bs <= total).
Proof.
  destruct (params_of_bounds q) as [Hl Ho].
  split; [exact Hl|]. split; [exact Ho|]. split.
  { intros Hq. unfold effective_limit, params_of, parsedLimit, parsed_or.
    cbn [limit]. by rewrite Hq. }
  split.
  { intros v Hq Hv. unfold effective_limit, params_of, parsedLimit, parsed_or.
    cbn [limit]. rewrite Hq. simpl. unfold number_or.
    destruct (Z.eqb_spec (Z.min (Z.max 1 v) 1000) 0); lia. }
  intros bs total more st' H. unfold get_books in H.
  destruct (getBooks toLowerCase sort_by_title pipeline (params_of q) now st)
    as [[r|e] st1] eqn:Hg; [|done].
  injection H as <- <- <- <-.
  destruct (getBooks_ok (params_of q) now st r st1 Hg)
    as (allBooks & _ & Ht & Hb).
  rewrite Ht, Hb.
  match goal with
  | |- context [paginate ?sorted _] =>
      destruct (paginate_length sorted (params_of q)) as [Hlen Hle]; [lia|lia|]
  end.
  split; [exact Hlen|]. split; [lia|exact Hle].
Qed.

End WithPlatform.

(** A string of hiragana and Latin letters. *)
Lemma kana_round_trip_witness :
  katakanaToHiragana (hiraganaToKatakana [12371%N; 12371%N; 12429%N; 97%N])
  = [12371%N; 12371%N; 12429%N; 97%N].
Proof.
  apply (proj1 (kana_round_trip [12371%N; 12371%N; 12429%N; 97%N])).
  repeat constructor; unfold not_katakana; lia.
Defined.

(** The second page of size one of the two books of the library run. *)
Lemma paginate_window_witness :
  fst (paginate (BookDataService.books CacheRuns.good_result)
         (params_of page_two))
    = drop 1 (BookDataService.books CacheRuns.good_result) /\
  snd (paginate (BookDataService.books CacheRuns.good_result)
         (params_of page_two)) = false.
Proof.
  destruct (paginate_window (BookDataService.books CacheRuns.good_result)
              (params_of page_two))
    as (Hpage & _ & _ & Hmore & _).
  - vm_compute. discriminate.
  - vm_compute. reflexivity.
  - split.
    + rewrite Hpage. vm_compute. reflexivity.
    + destruct (snd (paginate _ _)); [|reflexivity].
      exfalso. apply (proj1 Hmore eq_refl). vm_compute. reflexivity.
Defined.

(** The books of the collection [Novels] in the filled cache. *)
Lemma getBooks_result_witness :
  exists r st',
    getBooks ascii_lower unsorted (CacheRuns.steady CacheRuns.good_run)
      novels_only 2000 CacheRuns.filled = (Ok r, st') /\
    totalCount r = 1 /\
    forall b, b ∈ sr_books r -> JS.lit "Novels" ∈ collections b.
Proof.
  destruct (getBooks ascii_lower unsorted (CacheRuns.steady CacheRuns.good_run)
              novels_only 2000 CacheRuns.filled) as [[r|e] st'] eqn:Hg;
    [|vm_compute in Hg; discriminate].
  exists r, st'. split; [done|].
  destruct (proj1 (getBooks_result ascii_lower unsorted
                     (CacheRuns.steady CacheRuns.good_run)
                     novels_only 2000 CacheRuns.filled
                     (fun _ l => reflexivity l)) r st' Hg)
    as (allBooks & Hall & Ht & _ & Hb).
  split.
  - vm_compute in Hg. by injection Hg as <- _.
  - intros b Hin. destruct (Hb b Hin) as (_ & _ & Hc).
    apply Hc; [reflexivity | vm_compute; discriminate].
Defined.

(** The names of the filled cache. *)
Lemma getCollections_names_witness :
  exists names st',
    getCollections unsorted_names (CacheRuns.steady CacheRuns.good_run)
      2000 CacheRuns.filled = (Ok names, st') /\
    NoDup names.
Proof.
  destruct (getCollections unsorted_names
              (CacheRuns.steady CacheRuns.good_run) 2000 CacheRuns.filled)
    as [[names|e] st'] eqn:Hg; [|vm_compute in Hg; discriminate].
  exists names, st'. split; [done|].
  destruct (proj1 (getCollections_names unsorted_names
                     (CacheRuns.steady CacheRuns.good_run) 2000
                     CacheRuns.filled (fun l => reflexivity l))
              names st' Hg)
    as (allBooks & _ & Hnd & _).
  exact Hnd.
Defined.

(** A request for one book from the second on, served from the filled
    cache. *)
Lemma route_limits_witness :
  exists bs total more st',
    get_books ascii_lower unsorted (CacheRuns.steady CacheRuns.good_run)
      page_two 2000 CacheRuns.filled = (Json200 bs total more, st') /\
    length bs <= 1000 /\ length bs <= total.
Proof.
  destruct (get_books ascii_lower unsorted
              (CacheRuns.steady CacheRuns.good_run) page_two 2000
              CacheRuns.filled) as [[bs total more|e] st'] eqn:Hg;
    [|vm_compute in Hg; discriminate].
  exists bs, total, more, st'. split; [done|].
  destruct (route_limits ascii_lower unsorted
              (CacheRuns.steady CacheRuns.good_run) page_two 2000
              CacheRuns.filled)
    as (_ & _ & _ & _ & Hresp).
  destruct (Hresp bs total more st' Hg) as (_ & H1 & H2).
  split; [exact H1 | exact H2].
Defined.

End QueryFacts.
